(** * fb_alloc: a fixed-size-block pool allocator (src/fb_alloc.h)

    Shallow embedding of the class template
    [fb_alloc<T, nof_elements, alignment>] and proofs about it.

    Conventions of the embedding (LP64 target, default build, i.e. [assert]
    is active because NDEBUG is not defined):
    - [size_t] is a 64-bit unsigned integer, [unsigned int] a 32-bit unsigned
      integer, [int] a 32-bit signed integer; each is a [Z] with its
      wrap-around written out;
    - raw memory is a byte-addressed store; a [char*] is the [Z] address and
      the null pointer is [0]; a pointer object occupies [ptr_size] = 8 bytes,
      least significant byte first;
    - the two counters [refcount_] and [nof_allocs_] are [int] objects on the
      heap, shared between handles by address: they live in a finite map from
      address to value;
    - the process heap is an external collaborator: every operation that
      calls [new] takes the heap's answer as an argument ([None] is failure);
    - an operation either returns, throws [std::bad_alloc], or stops the
      program (failed [assert], access through a null or dangling counter
      pointer);
    - pointer arithmetic is addition in [Z]: addresses past [2^64] are cut to
      64 bits when a pointer is stored;
    - a loop that follows links in memory ([clean], [check]) takes a bound on
      its number of rounds, and reports when the bound is too small;
    - the class declares neither a copy constructor nor a copy assignment
      (the constructor template is not a copy constructor), so a handle
      copied to its own type is copied member by member. *)

From Stdlib Require Import ZArith Lia Bool List.
From stdpp Require Import base option gmap.
Import ListNotations.

Local Open Scope Z_scope.

(** ** Machine integers *)

Module MachInt.

Definition size_mod : Z := 2 ^ 64.
Definition uint_mod : Z := 2 ^ 32.
Definition INT_MAX : Z := 2 ^ 31 - 1.
Definition INT_MIN : Z := - 2 ^ 31.

(** value of a [size_t] expression *)
Definition wrap_size (x : Z) : Z := x mod size_mod.

(** value of an [unsigned int] expression *)
Definition wrap_uint (x : Z) : Z := x mod uint_mod.

(** value of an [int] expression (two's complement wrap-around) *)
Definition wrap_int (x : Z) : Z := (x + 2 ^ 31) mod uint_mod - 2 ^ 31.

Definition is_size (x : Z) : Prop := 0 <= x < size_mod.

End MachInt.
Export MachInt.

(** ** The element size calculation of both constructors

    [for( ; elsize_ < elsize_ + alignment_; ++elsize_ )
        if ( (elsize_ % alignment_ ) == 0 ) break;]

    The loop condition is evaluated in [size_t]: it is false exactly when
    [elsize_ + alignment_] wraps around. [None] is running out of fuel. *)

Fixpoint elsize_loop (fuel : nat) (elsize_ alignment_ : Z) : option Z :=
  if elsize_ <? wrap_size (elsize_ + alignment_) then
    if elsize_ mod alignment_ =? 0 then Some elsize_
    else
      match fuel with
      | O => None
      | S fuel' => elsize_loop fuel' (wrap_size (elsize_ + 1)) alignment_
      end
  else Some elsize_.

(** A multiple of the alignment is met after fewer than [alignment] steps. *)
Definition calc_elsize (sizeof_T alignment : Z) : option Z :=
  elsize_loop (Z.to_nat alignment) sizeof_T alignment.

(** ** Raw memory *)

Module Mem.

(** [sizeof(char* )], also the size of an [alloc_link] *)
Definition ptr_size : Z := 8.

(** the byte stored at each address *)
Definition memory : Type := Z -> Z.

Definition byte_of (v i : Z) : Z := (v / 256 ^ i) mod 256.

(** [*(char** )a = v] *)
Definition store_ptr (m : memory) (a v : Z) : memory :=
  fun x => if (a <=? x) && (x <? a + ptr_size) then byte_of v (x - a) else m x.

(** [*(char** )a] *)
Definition load_ptr (m : memory) (a : Z) : Z :=
  m a + 256 * (m (a + 1) + 256 * (m (a + 2) + 256 * (m (a + 3) + 256 *
  (m (a + 4) + 256 * (m (a + 5) + 256 * (m (a + 6) + 256 * m (a + 7))))))).

(** [memset(a, 0, len)] *)
Definition memset0 (m : memory) (a len : Z) : memory :=
  fun x => if (a <=? x) && (x <? a + len) then 0 else m x.

End Mem.
Export Mem.

(** ** Program state *)

(** What lives outside a handle: raw memory, the heap-allocated [int]
    counters, the three static members of the instantiation, and the sizes
    asked from the process heap so far (latest first). *)
Record state : Type := mkState {
  mem : memory;
  ints : gmap Z Z;
  global_chunk_head_ : Z;
  nof_allocated_chunks_ : Z;
  nof_free_chunks_ : Z;
  heap_log : list Z
}.

(** The data members of one [fb_alloc] object. *)
Record fb_alloc : Type := mkHandle {
  nof_elmts_ : Z;
  elsize_ : Z;
  alignment_ : Z;
  pool_head_ : Z;
  chunk_head_ : Z;
  refcount_ : Z;
  nof_allocs_ : Z
}.

Definition set_mem (st : state) (m : memory) : state :=
  mkState m (ints st) (global_chunk_head_ st) (nof_allocated_chunks_ st)
          (nof_free_chunks_ st) (heap_log st).
Definition set_ints (st : state) (i : gmap Z Z) : state :=
  mkState (mem st) i (global_chunk_head_ st) (nof_allocated_chunks_ st)
          (nof_free_chunks_ st) (heap_log st).
Definition set_global_chunk_head (st : state) (p : Z) : state :=
  mkState (mem st) (ints st) p (nof_allocated_chunks_ st)
          (nof_free_chunks_ st) (heap_log st).
Definition set_nof_allocated_chunks (st : state) (n : Z) : state :=
  mkState (mem st) (ints st) (global_chunk_head_ st) n
          (nof_free_chunks_ st) (heap_log st).
Definition set_nof_free_chunks (st : state) (n : Z) : state :=
  mkState (mem st) (ints st) (global_chunk_head_ st) (nof_allocated_chunks_ st)
          n (heap_log st).
Definition log_request (st : state) (bytes : Z) : state :=
  mkState (mem st) (ints st) (global_chunk_head_ st) (nof_allocated_chunks_ st)
          (nof_free_chunks_ st) (bytes :: heap_log st).

Definition set_pool_head (h : fb_alloc) (p : Z) : fb_alloc :=
  mkHandle (nof_elmts_ h) (elsize_ h) (alignment_ h) p (chunk_head_ h)
           (refcount_ h) (nof_allocs_ h).
Definition set_chunk_head (h : fb_alloc) (p : Z) : fb_alloc :=
  mkHandle (nof_elmts_ h) (elsize_ h) (alignment_ h) (pool_head_ h) p
           (refcount_ h) (nof_allocs_ h).
Definition set_counters (h : fb_alloc) (rc na : Z) : fb_alloc :=
  mkHandle (nof_elmts_ h) (elsize_ h) (alignment_ h) (pool_head_ h)
           (chunk_head_ h) rc na.

(** ** Outcomes *)

Inductive result (A : Type) : Type :=
  | Ok (x : A)            (* the call returns *)
  | Throw (st : state)    (* std::bad_alloc leaves the call; the state then *)
  | Stopped               (* failed assert, or a null or dangling counter *)
  | OutOfFuel.            (* the model's loop bound was too small *)
Arguments Ok {A} x.
Arguments Throw {A} st.
Arguments Stopped {A}.
Arguments OutOfFuel {A}.

#[export] Instance result_ret : MRet result := fun A x => Ok x.
#[export] Instance result_bind : MBind result := fun A B f r =>
  match r with
  | Ok x => f x
  | Throw st => Throw st
  | Stopped => Stopped
  | OutOfFuel => OutOfFuel
  end.

(** [assert( b )] *)
Definition assert (b : bool) : result unit := if b then Ok tt else Stopped.

(** *** The heap-allocated counters *)

(** [*p] read, for an [int* p] *)
Definition int_read (st : state) (p : Z) : result Z :=
  if p =? 0 then Stopped
  else match ints st !! p with Some v => Ok v | None => Stopped end.

(** [*p = v] *)
Definition int_write (st : state) (p v : Z) : result state :=
  if p =? 0 then Stopped
  else match ints st !! p with
       | Some _ => Ok (set_ints st (<[p := v]> (ints st)))
       | None => Stopped
       end.

(** [++*p] and [--*p] ([d] is 1 or -1), in [int] arithmetic *)
Definition int_incr (st : state) (p d : Z) : result state :=
  v ← int_read st p; int_write st p (wrap_int (v + d)).

(** [new (std::nothrow) int] with the heap's answer [ans]: the pointer
    obtained (null on failure) and the state, in which the request of
    [sizeof(int)] = 4 bytes is logged. A new object has an unspecified value
    (modelled as 0; both constructors overwrite it at once). *)
Definition int_new (st : state) (ans : option Z) : Z * state :=
  match ans with
  | Some p => (p, set_ints (log_request st 4) (<[p := 0]> (ints st)))
  | None => (0, log_request st 4)
  end.

(** [delete p]; deleting the null pointer does nothing *)
Definition int_delete (st : state) (p : Z) : result state :=
  if p =? 0 then Ok st
  else match ints st !! p with
       | Some _ => Ok (set_ints st (delete p (ints st)))
       | None => Stopped
       end.

(** ** Linking the blocks of a chunk *)

(** One statement of the unrolled loop:
    [((alloc_link* )(p))->next_ = (alloc_link* )(p + elsize_); p += elsize_;] *)
Definition link_stmt (e : Z) (pm : Z * memory) : Z * memory :=
  (fst pm + e, store_ptr (snd pm) (fst pm) (fst pm + e)).

Fixpoint link_stmts (k : nat) (e : Z) (pm : Z * memory) : Z * memory :=
  match k with
  | O => pm
  | S k' => link_stmts k' e (link_stmt e pm)
  end.

(** Number of statements between the label [case k:] and the end of the
    [do] body: [case 0] is in front of all eight. *)
Definition duff_entry (k : Z) : nat := if k =? 0 then 8%nat else Z.to_nat k.

(** [do { <statements> } while ( --nn > 0 );] whose first pass runs [entry]
    statements and every later pass all eight. *)
Fixpoint duff_do (fuel : nat) (entry : nat) (nn e : Z) (pm : Z * memory)
  : option (Z * memory) :=
  let pm' := link_stmts entry e pm in
  let nn' := wrap_int (nn - 1) in
  if 0 <? nn' then
    match fuel with
    | O => None
    | S fuel' => duff_do fuel' 8 nn' e pm'
    end
  else Some pm'.

(** The [#else] branch of [grow]:
    [p = start; int nn = ((nof_elmts_-1) + 7)/8;
     switch ((nof_elmts_-1) % 8) { case 0: do { ... } while (--nn > 0); }
     ((alloc_link* )(p))->next_ = 0;] *)
Definition set_links (n e start : Z) (m : memory) : option memory :=
  let nn := wrap_int (wrap_uint (wrap_uint (n - 1) + 7) / 8) in
  match duff_do (Z.to_nat nn) (duff_entry (wrap_uint (n - 1) mod 8)) nn e (start, m) with
  | Some (p, m') => Some (store_ptr m' p 0)
  | None => None
  end.

(** The [#if 0] branch of [grow], the loop that the unrolled one replaces:
    [char* last = start + (nof_elmts_-1)*elsize_;
     for( p = start; p < last; p += elsize_ ) <statement>
     last->next_ = 0;] *)
Fixpoint plain_for (fuel : nat) (e last : Z) (pm : Z * memory)
  : option (Z * memory) :=
  if fst pm <? last then
    match fuel with
    | O => None
    | S fuel' => plain_for fuel' e last (link_stmt e pm)
    end
  else Some pm.

Definition set_links_plain (n e start : Z) (m : memory) : option memory :=
  let last := start + wrap_size (wrap_uint (n - 1) * e) in
  match plain_for (Z.to_nat n) e last (start, m) with
  | Some (_, m') => Some (store_ptr m' last 0)
  | None => None
  end.

(** ** The member functions

    The template parameters are section variables: [sizeof_T] stands for
    [sizeof(T)]. The static members in [state] are those of this
    instantiation. *)

Section Instantiation.

Variable sizeof_T : Z.
Variable nof_elements : Z.
Variable alignment : Z.

(** [elsize_*nof_elmts_], a [size_t] product *)
Definition blocks_bytes (h : fb_alloc) : Z := wrap_size (elsize_ h * nof_elmts_ h).

(** [elsize_*nof_elmts_ + sizeof(char* )] *)
Definition chunksize (h : fb_alloc) : Z := wrap_size (blocks_bytes h + ptr_size).

(** Member initialisers, the three asserts and the element size loop,
    common to both constructors. *)
Definition fb_alloc_init : result fb_alloc :=
  let h := mkHandle nof_elements sizeof_T alignment 0 0 0 0 in
  _ ← assert (0 <? nof_elmts_ h);
  _ ← assert (0 <? elsize_ h);
  _ ← assert (0 <? alignment_ h);
  match calc_elsize (elsize_ h) (alignment_ h) with
  | Some e => Ok (mkHandle nof_elements e alignment 0 0 0 0)
  | None => OutOfFuel
  end.

(** [fb_alloc( void ) throw()]: [new int] that fails throws inside a
    function that may not throw, which stops the program. *)
Definition fb_alloc_ctor (rc na : option Z) (st : state) : result (fb_alloc * state) :=
  h ← fb_alloc_init;
  let '(r, st1) := int_new st rc in
  if r =? 0 then Stopped else
  st2 ← int_write st1 r 1;
  let '(n, st3) := int_new st2 na in
  if n =? 0 then Stopped else
  st4 ← int_write st3 n 0;
  Ok (set_counters h r n, st4).

(** [template <typename U> fb_alloc( const fb_alloc<U,...>& fba ) throw()] *)
Definition fb_alloc_copy (fba : fb_alloc) (rc na : option Z) (st : state)
  : result (fb_alloc * state) :=
  h ← fb_alloc_init;
  if elsize_ h =? elsize_ fba then
    let h1 := mkHandle (nof_elmts_ h) (elsize_ h) (alignment_ h)
                       (pool_head_ fba) (chunk_head_ fba)
                       (refcount_ fba) (nof_allocs_ fba) in
    st1 ← int_incr st (refcount_ h1) 1;
    v ← int_read st1 (refcount_ h1);
    _ ← assert (0 <=? v);
    Ok (h1, st1)
  else
    let '(r, st1) := int_new st rc in
    st2 ← (if r =? 0 then Ok st1 else int_write st1 r 1);
    let '(n, st3) := int_new st2 na in
    st4 ← (if n =? 0 then Ok st3 else int_write st3 n 0);
    Ok (set_counters h r n, st4).

(** [fb_alloc<T,...> b( a )] with [a] of the same type [fb_alloc<T,...>].
    The class declaration (lines 10-94) has no copy constructor: the
    constructor template above is never one, and for an argument of the
    class's own type the implicitly defined copy constructor is chosen. It
    copies the seven data members and does nothing else; no counter is
    touched. *)
Definition fb_alloc_implicit_copy (fba : fb_alloc) (st : state)
  : result (fb_alloc * state) :=
  Ok (fba, st).

(** [char* allocate_chunk( void ) const] *)
Definition allocate_chunk (heap : option Z) (h : fb_alloc) (st : state)
  : result (Z * state) :=
  if global_chunk_head_ st =? 0 then
    let st1 := set_nof_allocated_chunks st (wrap_int (nof_allocated_chunks_ st + 1)) in
    let st2 := log_request st1 (chunksize h) in
    match heap with
    | Some pp => Ok (pp, set_mem st2 (memset0 (mem st2) pp (chunksize h)))
    | None => Throw st2
    end
  else
    let st1 := set_nof_free_chunks st (wrap_int (nof_free_chunks_ st - 1)) in
    _ ← assert (0 <=? nof_free_chunks_ st1);
    let res := global_chunk_head_ st1 in
    Ok (res, set_global_chunk_head st1 (load_ptr (mem st1) res)).

(** [void deallocate_chunk( char* p ) const] *)
Definition deallocate_chunk (p : Z) (st : state) : result state :=
  let st1 := set_mem st (store_ptr (mem st) p (global_chunk_head_ st)) in
  let st2 := set_global_chunk_head st1 p in
  let st3 := set_nof_free_chunks st2 (wrap_int (nof_free_chunks_ st2 + 1)) in
  _ ← assert (nof_free_chunks_ st3 <=? nof_allocated_chunks_ st3);
  Ok st3.

(** [void grow( void ) throw (const std::bad_alloc&)] *)
Definition grow (heap : option Z) (h : fb_alloc) (st : state)
  : result (fb_alloc * state) :=
  if (refcount_ h =? 0) || (nof_allocs_ h =? 0) then Throw st else
  '(start, st1) ← allocate_chunk heap h st;
  let st2 := set_mem st1 (store_ptr (mem st1) (start + blocks_bytes h) (chunk_head_ h)) in
  let h1 := set_chunk_head h start in
  match set_links (nof_elmts_ h1) (elsize_ h1) start (mem st2) with
  | Some m => Ok (set_pool_head h1 start, set_mem st2 m)
  | None => OutOfFuel
  end.

(** [void clean( void )]: the [while] loop, [ptr] being re-read from
    [chunk_head_] at the end of each round *)
Fixpoint clean_loop (fuel : nat) (h : fb_alloc) (st : state)
  : result (fb_alloc * state) :=
  let ptr := chunk_head_ h in
  if ptr =? 0 then Ok (h, st) else
  match fuel with
  | O => OutOfFuel
  | S fuel' =>
      let h1 := set_chunk_head h (load_ptr (mem st) (ptr + blocks_bytes h)) in
      st1 ← deallocate_chunk ptr st;
      clean_loop fuel' h1 st1
  end.

Definition clean (fuel : nat) (h : fb_alloc) (st : state)
  : result (fb_alloc * state) :=
  '(h1, st1) ← clean_loop fuel h st;
  Ok (set_chunk_head (set_pool_head h1 0) 0, st1).

(** [bool check( const pointer p ) const] *)
Fixpoint check_loop (fuel : nat) (h : fb_alloc) (m : memory) (ptr pob : Z)
  : result bool :=
  if ptr =? 0 then Ok false else
  if (ptr <=? pob) && (pob <=? ptr + wrap_size (wrap_uint (nof_elmts_ h - 1) * elsize_ h))
  then Ok true else
  match fuel with
  | O => OutOfFuel
  | S fuel' => check_loop fuel' h m (load_ptr m (ptr + blocks_bytes h)) pob
  end.

Definition check (fuel : nat) (h : fb_alloc) (st : state) (p : Z) : result bool :=
  check_loop fuel h (mem st) (chunk_head_ h) p.

(** [~fb_alloc( void ) throw()] *)
Definition fb_alloc_dtor (fuel : nat) (h : fb_alloc) (st : state) : result state :=
  if refcount_ h =? 0 then Ok st else
  st1 ← int_incr st (refcount_ h) (-1);
  v ← int_read st1 (refcount_ h);
  _ ← assert (0 <=? v);
  if v =? 0 then
    '(h1, st2) ← clean fuel h st1;
    st3 ← int_delete st2 (refcount_ h1);
    int_delete st3 (nof_allocs_ h1)
  else Ok st1.

(** [void release( void )] *)
Definition release (fuel : nat) (h : fb_alloc) (st : state)
  : result (fb_alloc * state) :=
  if refcount_ h =? 0 then Ok (h, st) else
  st1 ← int_incr st (refcount_ h) (-1);
  v ← int_read st1 (refcount_ h);
  _ ← assert (0 <=? v);
  if v =? 0 then
    '(h1, st2) ← clean fuel h st1;
    st3 ← int_write st2 (refcount_ h1) 1;
    st4 ← int_write st3 (nof_allocs_ h1) 0;
    Ok (h1, st4)
  else Ok (h, st1).

(** [pointer allocate( size_type n, const void* hint )] *)
Definition allocate (heap : option Z) (h : fb_alloc) (n : Z) (st : state)
  : result (Z * fb_alloc * state) :=
  if n =? 1 then
    '(h1, st1) ← (if pool_head_ h =? 0 then grow heap h st else Ok (h, st));
    let res := pool_head_ h1 in
    let h2 := set_pool_head h1 (load_ptr (mem st1) res) in
    st2 ← int_incr st1 (nof_allocs_ h2) 1;
    v ← int_read st2 (nof_allocs_ h2);
    _ ← assert (0 <? v);
    Ok (res, h2, st2)
  else
    let st1 := log_request st (wrap_size (n * sizeof_T)) in
    match heap with
    | Some p => Ok (p, h, st1)
    | None => Throw st1
    end.

(** [void deallocate( pointer p, size_type n )] *)
Definition deallocate (fuel : nat) (h : fb_alloc) (p n : Z) (st : state)
  : result (fb_alloc * state) :=
  if n =? 1 then
    b ← check fuel h st p;
    _ ← assert b;
    let st1 := set_mem st (store_ptr (mem st) p (pool_head_ h)) in
    let h1 := set_pool_head h p in
    st2 ← int_incr st1 (nof_allocs_ h1) (-1);
    v ← int_read st2 (nof_allocs_ h1);
    _ ← assert (0 <=? v);
    Ok (h1, st2)
  else Ok (h, st).

(** *** Observers *)

Definition max_size (h : fb_alloc) : Z := elsize_ h.
Definition nof_elmts (h : fb_alloc) : Z := nof_elmts_ h.
Definition elsize (h : fb_alloc) : Z := elsize_ h.
Definition alignmnt (h : fb_alloc) : Z := alignment_ h.

(** [int refcount( void ) const] *)
Definition refcount (h : fb_alloc) (st : state) : result Z :=
  if refcount_ h =? 0 then Ok 0 else int_read st (refcount_ h).

(** [int nof_allocs( void ) const] *)
Definition nof_allocs (h : fb_alloc) (st : state) : result Z :=
  if nof_allocs_ h =? 0 then Ok 0 else int_read st (nof_allocs_ h).

(** [void dump( std::ostream& os ) const]: the two numbers written *)
Definition dump (st : state) : Z * Z :=
  (nof_allocated_chunks_ st, nof_free_chunks_ st).

End Instantiation.

(** The state in which the program starts: the static members are
    initialised to 0, there is no counter yet, nothing was asked from the
    heap. *)
Definition st_init : state := mkState (fun _ => 0) ∅ 0 0 0 [].

(** ** The chunk registry as a list

    [registry m bb head cs]: following the back links (the pointer stored
    [bb] bytes into each chunk) from [head] visits the chunks [cs] in turn
    and ends on the null pointer. *)
Fixpoint registry (m : memory) (bb head : Z) (cs : list Z) : Prop :=
  match cs with
  | [] => head = 0
  | c :: cs' => head = c /\ c <> 0 /\ registry m bb (load_ptr m (c + bb)) cs'
  end.

(** The test of [check] against the chunk at [c]:
    [(pob >= ptr) && (pob <= ptr + (nof_elmts_-1)*elsize_)] *)
Definition in_block_range (h : fb_alloc) (p c : Z) : bool :=
  (c <=? p) && (p <=? c + wrap_size (wrap_uint (nof_elmts_ h - 1) * elsize_ h)).

(** The chunks of [cs] occupy pairwise disjoint address ranges ([bb] bytes
    of blocks and the back link). *)
Fixpoint chunks_apart (bb : Z) (cs : list Z) : Prop :=
  match cs with
  | [] => True
  | c :: cs' =>
      Forall (fun c' => c + bb + ptr_size <= c' \/ c' + bb + ptr_size <= c) cs' /\
      chunks_apart bb cs'
  end.

(** ** The Global Chunk Cache as a list

    [cache_segment m head cs tail]: following the first word of each cached
    chunk from [head] visits the chunks [cs] in turn and arrives at [tail]. *)
Fixpoint cache_segment (m : memory) (head : Z) (cs : list Z) (tail : Z) : Prop :=
  match cs with
  | [] => head = tail
  | c :: cs' => head = c /\ cache_segment m (load_ptr m c) cs' tail
  end.

(** ** Handles whose counters are missing

    The sharing constructor tolerates a failed counter allocation and leaves
    the pointer null. [null_counters] collects the handles that come from
    such a construction: the construction itself, a sharing construction
    from such a handle, and every member function that returns on one. The
    state in which a member function runs is arbitrary: other handles may
    have run in between. *)
Inductive null_counters (sizeof_T nof_elements alignment : Z) : fb_alloc -> Prop :=
  | nc_construct fba rc na st h st' :
      fb_alloc_copy sizeof_T nof_elements alignment fba rc na st = Ok (h, st') ->
      elsize_ h <> elsize_ fba ->
      rc = None \/ na = None ->
      null_counters sizeof_T nof_elements alignment h
  | nc_share fba rc na st h st' :
      null_counters sizeof_T nof_elements alignment fba ->
      fb_alloc_copy sizeof_T nof_elements alignment fba rc na st = Ok (h, st') ->
      elsize_ h = elsize_ fba ->
      null_counters sizeof_T nof_elements alignment h
  | nc_allocate heap h n st p h' st' :
      null_counters sizeof_T nof_elements alignment h ->
      allocate sizeof_T heap h n st = Ok (p, h', st') ->
      null_counters sizeof_T nof_elements alignment h'
  | nc_deallocate fuel h p n st h' st' :
      null_counters sizeof_T nof_elements alignment h ->
      deallocate fuel h p n st = Ok (h', st') ->
      null_counters sizeof_T nof_elements alignment h'
  | nc_release fuel h st h' st' :
      null_counters sizeof_T nof_elements alignment h ->
      release fuel h st = Ok (h', st') ->
      null_counters sizeof_T nof_elements alignment h'.

(** What holds of such a handle. *)
Definition null_inv (h : fb_alloc) : Prop :=
  (refcount_ h = 0 \/ nof_allocs_ h = 0) /\ pool_head_ h = 0 /\ chunk_head_ h = 0.

(** ** Repeated allocation

    [allocate(1)] called once for each entry of [heaps] (the answer the heap
    would give, should that call grow the pool); the addresses returned,
    first call first. *)
Fixpoint allocate_each (sizeof_T : Z) (heaps : list (option Z))
         (h : fb_alloc) (st : state) : result (list Z * fb_alloc * state) :=
  match heaps with
  | [] => Ok ([], h, st)
  | heap :: rest =>
      '(p, h1, st1) ← allocate sizeof_T heap h 1 st;
      '(ps, h2, st2) ← allocate_each sizeof_T rest h1 st1;
      Ok (p :: ps, h2, st2)
  end.

(** ** Giving back a list of blocks

    [deallocate(p, 1)] called for each address of [ps], first entry
    first. *)
Fixpoint deallocate_each (fuel : nat) (ps : list Z) (h : fb_alloc) (st : state)
  : result (fb_alloc * state) :=
  match ps with
  | [] => Ok (h, st)
  | p :: rest =>
      '(h1, st1) ← deallocate fuel h p 1 st;
      deallocate_each fuel rest h1 st1
  end.

(** The blocks at the addresses [ps], of [e] bytes each, occupy pairwise
    disjoint address ranges. *)
Fixpoint blocks_apart (e : Z) (ps : list Z) : Prop :=
  match ps with
  | [] => True
  | p :: ps' =>
      Forall (fun q => p + e <= q \/ q + e <= p) ps' /\ blocks_apart e ps'
  end.

(** ** The free list during a run of allocations

    [config_ok]: at least two blocks per chunk, blocks that can hold a
    pointer, and a chunk size that fits [size_t]. [chunk_fits]: where the
    heap may put a chunk. [chunk_pool h m c j]: the free list of [h] is what
    is left of chunk [c] after its first [j] blocks were given out.
    [given_out]: the addresses given out so far, the chunks of the registry
    being [cs] (newest first), all full but the newest. *)
Definition config_ok (h : fb_alloc) : Prop :=
  2 <= nof_elmts_ h /\ nof_elmts_ h + 6 < uint_mod /\ ptr_size <= elsize_ h /\
  elsize_ h * nof_elmts_ h + ptr_size < size_mod.

Definition chunk_fits (h : fb_alloc) (c : Z) : Prop :=
  0 < c /\ c + elsize_ h * nof_elmts_ h + ptr_size <= size_mod.

Definition chunk_pool (h : fb_alloc) (m : memory) (c j : Z) : Prop :=
  1 <= j <= nof_elmts_ h /\
  pool_head_ h = (if j <? nof_elmts_ h then c + j * elsize_ h else 0) /\
  (forall i, j <= i < nof_elmts_ h - 1 ->
     load_ptr m (c + i * elsize_ h) = c + (i + 1) * elsize_ h) /\
  (j < nof_elmts_ h -> load_ptr m (c + (nof_elmts_ h - 1) * elsize_ h) = 0).

Definition given_out (h : fb_alloc) (cs : list Z) (j r : Z) : Prop :=
  match cs with
  | [] => False
  | c :: older =>
      c <= r < c + j * elsize_ h \/
      exists c', In c' older /\ c' <= r < c' + nof_elmts_ h * elsize_ h
  end.

Definition pool_inv (h : fb_alloc) (m : memory) (cs : list Z) (j : Z)
           (ret : list Z) : Prop :=
  Forall (chunk_fits h) cs /\
  chunks_apart (elsize_ h * nof_elmts_ h) cs /\
  match cs with
  | [] => pool_head_ h = 0
  | c :: _ => chunk_pool h m c j
  end /\
  (forall r, In r ret -> given_out h cs j r).

(** ** Handles and their counters *)

(** Number of handles of [l] whose [refcount_] is the pointer [r]: the
    handles of [l] that share the group counted at [r]. *)
Fixpoint sharers (r : Z) (l : list fb_alloc) : nat :=
  match l with
  | [] => O
  | h :: l' =>
      Nat.add (if refcount_ h =? r then 1%nat else 0%nat) (sharers r l')
  end.

(** The shape shared by [allocate], [deallocate] and [release] (at
    reference count 1): the handle keeps its counter pointers, and only the
    value of its [nof_allocs_] counter, which stays allocated, may change. *)
Definition counters_kept (h h' : fb_alloc) (m m' : gmap Z Z) : Prop :=
  refcount_ h' = refcount_ h /\ nof_allocs_ h' = nof_allocs_ h /\
  (forall q, q <> nof_allocs_ h -> m' !! q = m !! q) /\
  (is_Some (m !! nof_allocs_ h) -> is_Some (m' !! nof_allocs_ h)).

(** ** Scenarios used in the proofs *)

(** [fb_alloc<T,1,8>] with [sizeof(T) = 8]: the default constructor run in
    the initial state (the heap puts the two counters at 64 and 68), then
    [grow] with the heap answering the chunk request with address 4096. *)
Definition one_block_handle : result (fb_alloc * state) :=
  fb_alloc_ctor 8 1 8 (Some 64) (Some 68) st_init.

Definition one_block_grown : result (fb_alloc * state) :=
  '(h, st) ← one_block_handle; grow (Some 4096) h st.

(** The same handle after one call of [allocate(1)], the heap putting the
    chunk at 4096; and after two calls (the second call finds the free list
    not empty and does not ask the heap). *)
Definition one_block_first : result (Z * fb_alloc * state) :=
  '(h, st) ← one_block_handle; allocate 8 (Some 4096) h 1 st.

Definition one_block_two : result (list Z * fb_alloc * state) :=
  '(h, st) ← one_block_handle; allocate_each 8 [Some 4096; None] h st.

(** The value a call returned, for calls known to return. *)
Definition returned {A : Type} (d : A) (r : result A) : A :=
  match r with Ok x => x | _ => d end.

Definition is_Ok {A : Type} (r : result A) : bool :=
  match r with Ok _ => true | _ => false end.

Definition no_handle : fb_alloc := mkHandle 0 0 0 0 0 0 0.

(** [fb_alloc<T,4,8>] with [sizeof(T) = 8], counters at 64 and 68; one block
    is allocated (the chunk is put at 4096), given back and asked again. *)
Definition four_ctor : fb_alloc * state :=
  returned (no_handle, st_init) (fb_alloc_ctor 8 4 8 (Some 64) (Some 68) st_init).

Definition four_first : Z * fb_alloc * state :=
  returned (0, no_handle, st_init)
           (allocate 8 (Some 4096) (fst four_ctor) 1 (snd four_ctor)).

Definition four_back : fb_alloc * state :=
  returned (no_handle, st_init)
           (deallocate 1 (snd (fst four_first)) (fst (fst four_first)) 1 (snd four_first)).

(** [fb_alloc<T,4,8> b( a )] for the handle [a] of [four_ctor], of the same
    type. *)
Definition four_twin : result (fb_alloc * state) :=
  fb_alloc_implicit_copy (fst four_ctor) (snd four_ctor).

(** [fb_alloc<T,100,8>] with [sizeof(T) = 4]: every block takes 8 bytes. *)
Definition padded_ctor : fb_alloc * state :=
  returned (no_handle, st_init) (fb_alloc_ctor 4 100 8 (Some 64) (Some 68) st_init).

(** A sharing construction [fb_alloc<T,100,8>] ([sizeof(T) = 16]) from the
    handle above, during which the heap refuses both counters. *)
Definition starved_copy : fb_alloc * state :=
  returned (no_handle, st_init)
           (fb_alloc_copy 16 100 8 (fst padded_ctor) None None (snd padded_ctor)).

(** A sharing construction for an element type of another block size
    ([sizeof(T) = 16] against blocks of 8 bytes), the heap giving the
    counters 72 and 76. *)
Definition other_size_copy : fb_alloc * state :=
  returned (no_handle, st_init)
           (fb_alloc_copy 16 100 8 (fst padded_ctor) (Some 72) (Some 76)
                          (snd padded_ctor)).

(** A second block asked from the handle of [four_first]; the heap is not
    needed. *)
Definition four_second : Z * fb_alloc * state :=
  returned (0, no_handle, st_init)
           (allocate 8 None (snd (fst four_first)) 1 (snd four_first)).

(** The chunk that [grow] gets for the handle of [four_ctor], from the
    heap, at 4096. *)
Definition four_chunk : Z * state :=
  returned (0, st_init) (allocate_chunk (Some 4096) (fst four_ctor) (snd four_ctor)).

(** * Proofs *)

(** ** Machine integers and raw memory *)

Lemma wrap_size_small x : 0 <= x < size_mod -> wrap_size x = x.
Proof. intros H. unfold wrap_size. now apply Z.mod_small. Qed.

Lemma wrap_size_range x : 0 <= wrap_size x < size_mod.
Proof. unfold wrap_size. apply Z.mod_pos_bound. reflexivity. Qed.

Lemma wrap_int_small x : INT_MIN <= x <= INT_MAX -> wrap_int x = x.
Proof.
  unfold wrap_int, INT_MIN, INT_MAX, uint_mod. intros H.
  rewrite Z.mod_small; lia.
Qed.

Lemma store_ptr_in m a v x :
  a <= x < a + ptr_size -> store_ptr m a v x = byte_of v (x - a).
Proof.
  intros H. unfold store_ptr.
  destruct (Z.leb_spec a x), (Z.ltb_spec x (a + ptr_size)); simpl; lia || reflexivity.
Qed.

Lemma store_ptr_out m a v x :
  x < a \/ a + ptr_size <= x -> store_ptr m a v x = m x.
Proof.
  intros H. unfold store_ptr.
  destruct (Z.leb_spec a x), (Z.ltb_spec x (a + ptr_size)); simpl; lia || reflexivity.
Qed.

Lemma bytes_value v :
  byte_of v 0 + 256 * (byte_of v 1 + 256 * (byte_of v 2 + 256 * (byte_of v 3 +
  256 * (byte_of v 4 + 256 * (byte_of v 5 + 256 * (byte_of v 6 +
  256 * byte_of v 7)))))) = v mod 2 ^ 64.
Proof.
  unfold byte_of.
  assert (S : forall i j, 0 <= i -> j = i + 1 -> v / 256 ^ j = v / 256 ^ i / 256).
  { intros i j Hi ->. rewrite Z.pow_add_r, Z.div_div by lia. reflexivity. }
  pose proof (S 0 1 ltac:(lia) eq_refl) as S0.
  pose proof (S 1 2 ltac:(lia) eq_refl) as S1.
  pose proof (S 2 3 ltac:(lia) eq_refl) as S2.
  pose proof (S 3 4 ltac:(lia) eq_refl) as S3.
  pose proof (S 4 5 ltac:(lia) eq_refl) as S4.
  pose proof (S 5 6 ltac:(lia) eq_refl) as S5.
  pose proof (S 6 7 ltac:(lia) eq_refl) as S6.
  pose proof (S 7 8 ltac:(lia) eq_refl) as S7.
  clear S.
  change (256 ^ 0) with 1 in *. rewrite Z.div_1_r in *.
  change (2 ^ 64) with (256 ^ 8).
  pose proof (Z.div_mod v (256 ^ 8) ltac:(lia)) as E8.
  pose proof (Z.div_mod v 256 ltac:(lia)) as E0.
  pose proof (Z.div_mod (v / 256 ^ 1) 256 ltac:(lia)) as E1.
  pose proof (Z.div_mod (v / 256 ^ 2) 256 ltac:(lia)) as E2.
  pose proof (Z.div_mod (v / 256 ^ 3) 256 ltac:(lia)) as E3.
  pose proof (Z.div_mod (v / 256 ^ 4) 256 ltac:(lia)) as E4.
  pose proof (Z.div_mod (v / 256 ^ 5) 256 ltac:(lia)) as E5.
  pose proof (Z.div_mod (v / 256 ^ 6) 256 ltac:(lia)) as E6.
  pose proof (Z.div_mod (v / 256 ^ 7) 256 ltac:(lia)) as E7.
  change (256 ^ 1) with 256 in *.
  lia.
Qed.

Lemma load_store_same m a v :
  load_ptr (store_ptr m a v) a = wrap_size v.
Proof.
  unfold load_ptr, wrap_size, size_mod.
  rewrite !store_ptr_in by (unfold ptr_size; lia).
  replace (a - a) with 0 by lia.
  replace (a + 1 - a) with 1 by lia. replace (a + 2 - a) with 2 by lia.
  replace (a + 3 - a) with 3 by lia. replace (a + 4 - a) with 4 by lia.
  replace (a + 5 - a) with 5 by lia. replace (a + 6 - a) with 6 by lia.
  replace (a + 7 - a) with 7 by lia.
  apply bytes_value.
Qed.

Lemma load_store_other m a v b :
  b + ptr_size <= a \/ a + ptr_size <= b ->
  load_ptr (store_ptr m a v) b = load_ptr m b.
Proof.
  intros H. unfold load_ptr.
  rewrite !store_ptr_out by (unfold ptr_size in *; lia). reflexivity.
Qed.

Lemma load_agree m m' b :
  (forall x, b <= x < b + ptr_size -> m' x = m x) -> load_ptr m' b = load_ptr m b.
Proof.
  intros H. unfold load_ptr.
  rewrite !H by (unfold ptr_size; lia). reflexivity.
Qed.

(** ** The element size loop *)

Section ElsizeLoop.

Variable a : Z.
Hypothesis a_pos : 1 <= a.
Hypothesis a_size : a < size_mod.

Lemma guard_true_iff s :
0 <= s < size_mod ->
(s <? wrap_size (s + a)) = true <-> s + a < size_mod.
Proof using a_pos a_size.
intros Hs. rewrite Z.ltb_lt. unfold wrap_size. split.
- intros H. destruct (Z_lt_ge_dec (s + a) size_mod) as [|Hge]; [assumption|].
  exfalso.
  assert (E : (s + a) mod size_mod = s + a - size_mod).
  { symmetry. apply (Z.mod_unique_pos _ _ 1); lia. }
  lia.
- intros H. rewrite Z.mod_small; lia.
Qed.

(** Full description of the loop: it stops at the first value that is a
  multiple of [a] or at which the guard wraps, whichever comes first. *)
Lemma elsize_loop_spec :
forall fuel s m,
  0 <= s < size_mod -> s <= m -> m mod a = 0 -> m - s <= Z.of_nat fuel ->
  exists e,
    elsize_loop fuel s a = Some e /\ s <= e <= m /\
    (e mod a = 0 /\ e + a < size_mod \/ size_mod <= e + a) /\
    (forall x, s <= x < e -> x mod a <> 0 /\ x + a < size_mod).
Proof using a_pos a_size.
induction fuel as [|fuel IH]; intros s m Hs Hsm Hm Hfuel.
- assert (s = m) by lia. subst m. exists s. cbn [elsize_loop].
  destruct (s <? wrap_size (s + a)) eqn:G.
  + apply guard_true_iff in G; [|assumption].
    rewrite Hm. cbn. repeat split; try lia.
  + assert (~ s + a < size_mod).
    { intros C. apply guard_true_iff in C; [congruence|assumption]. }
    repeat split; try lia.
- cbn [elsize_loop].
  destruct (s <? wrap_size (s + a)) eqn:G.
  + apply guard_true_iff in G; [|assumption].
    destruct (s mod a =? 0) eqn:M.
    * apply Z.eqb_eq in M. exists s. repeat split; try lia.
    * apply Z.eqb_neq in M.
      assert (s <> m) by (intros ->; contradiction).
      rewrite wrap_size_small by lia.
      destruct (IH (s + 1) m ltac:(lia) ltac:(lia) Hm ltac:(lia))
        as (e & He & Hr & Hstop & Hbefore).
      exists e. repeat split; try lia; try assumption.
      -- destruct (Z.eq_dec x s) as [->|]; [assumption|].
         apply Hbefore. lia.
      -- destruct (Z.eq_dec x s) as [->|]; [assumption|].
         apply Hbefore. lia.
  + assert (~ s + a < size_mod).
    { intros C. apply guard_true_iff in C; [congruence|assumption]. }
    exists s. repeat split; try lia.
Qed.

(** The multiple of [a] right above [s]. *)
Lemma next_multiple s :
0 <= s -> let m := a * (s / a + 1) in s <= m /\ m mod a = 0 /\ m - s <= a.
Proof using a_pos a_size.
intros Hs m. subst m.
pose proof (Z.div_mod s a ltac:(lia)) as E.
pose proof (Z.mod_pos_bound s a ltac:(lia)) as B.
repeat split; try nia.
rewrite Z.mul_comm. apply Z.mod_mul. lia.
Qed.

Lemma calc_elsize_total s :
0 <= s < size_mod -> exists e, calc_elsize s a = Some e /\ s <= e.
Proof using a_pos a_size.
intros Hs. destruct (next_multiple s) as (H1 & H2 & H3); [lia|].
destruct (elsize_loop_spec (Z.to_nat a) s _ Hs H1 H2) as (e & He & Hr & _).
- lia.
- exists e. split; [exact He | lia].
Qed.

Lemma calc_elsize_least s e :
0 <= s < size_mod -> s <= e -> e mod a = 0 ->
(forall e', s <= e' -> e' mod a = 0 -> e <= e') ->
e + a < size_mod ->
calc_elsize s a = Some e.
Proof using a_pos a_size.
intros Hs Hse He Hmin Hfit.
assert (Hd : e - s <= Z.of_nat (Z.to_nat a)).
{ destruct (next_multiple s) as (H1 & H2 & H3); [lia|].
  specialize (Hmin _ H1 H2). lia. }
destruct (elsize_loop_spec (Z.to_nat a) s e Hs Hse He Hd)
  as (r & Hr & Hrange & Hstop & Hbefore).
unfold calc_elsize. rewrite Hr. f_equal.
destruct Hstop as [[Hm _]|Hw]; [|lia].
specialize (Hmin r ltac:(lia) Hm). lia.
Qed.

(** When the guard wraps at the very first test the native size is kept. *)
Lemma calc_elsize_wrapped s :
0 <= s < size_mod -> size_mod <= s + a -> calc_elsize s a = Some s.
Proof using a_pos a_size.
intros Hs Hw. unfold calc_elsize.
assert (G : (s <? wrap_size (s + a)) = false).
{ destruct (s <? wrap_size (s + a)) eqn:G; [|reflexivity].
  apply guard_true_iff in G; [lia|assumption]. }
destruct (Z.to_nat a); cbn [elsize_loop]; now rewrite G.
Qed.

End ElsizeLoop.

(** ** Calls that are known to return *)

Lemma returned_Ok {A : Type} (d : A) (r : result A) :
  is_Ok r = true -> r = Ok (returned d r).
Proof. destruct r; cbn; intros H; congruence. Qed.

Lemma returned_Ok2 {A B : Type} (d : A * B) (r : result (A * B)) :
  is_Ok r = true -> r = Ok (fst (returned d r), snd (returned d r)).
Proof. destruct r as [[a b]| | |]; cbn; intros H; congruence. Qed.

Lemma returned_Ok3 {A B C : Type} (d : A * B * C) (r : result (A * B * C)) :
  is_Ok r = true ->
  r = Ok (fst (fst (returned d r)), snd (fst (returned d r)), snd (returned d r)).
Proof. destruct r as [[[a b] c]| | |]; cbn; intros H; congruence. Qed.

(** ** Basic facts about the counters *)

Lemma int_read_live st p v :
  p <> 0 -> ints st !! p = Some v -> int_read st p = Ok v.
Proof.
  intros Hp Hl. unfold int_read.
  destruct (Z.eqb_spec p 0); [contradiction|]. now rewrite Hl.
Qed.

Lemma int_write_live st p v w :
  p <> 0 -> ints st !! p = Some v ->
  int_write st p w = Ok (set_ints st (<[p := w]> (ints st))).
Proof.
  intros Hp Hl. unfold int_write.
  destruct (Z.eqb_spec p 0); [contradiction|]. now rewrite Hl.
Qed.

Lemma int_read_Ok st p v :
  int_read st p = Ok v -> p <> 0 /\ ints st !! p = Some v.
Proof.
  unfold int_read. destruct (Z.eqb_spec p 0); [discriminate|].
  destruct (ints st !! p); [|discriminate]. intros [= ->]. auto.
Qed.

Lemma int_write_Ok st p w st' :
  int_write st p w = Ok st' ->
  p <> 0 /\ is_Some (ints st !! p) /\ st' = set_ints st (<[p := w]> (ints st)).
Proof.
  unfold int_write. destruct (Z.eqb_spec p 0); [discriminate|].
  destruct (ints st !! p) eqn:E; [|discriminate]. intros [= <-]. eauto.
Qed.

Lemma int_incr_Ok st p d st' :
  int_incr st p d = Ok st' ->
  exists v, p <> 0 /\ ints st !! p = Some v /\
            st' = set_ints st (<[p := wrap_int (v + d)]> (ints st)).
Proof.
  unfold int_incr. destruct (int_read st p) as [v| | |] eqn:R; try discriminate.
  cbn. intros W. apply int_read_Ok in R as [Hp Hl].
  apply int_write_Ok in W as (_ & _ & ->). eauto.
Qed.

Lemma int_incr_live st p d v :
  p <> 0 -> ints st !! p = Some v ->
  int_incr st p d = Ok (set_ints st (<[p := wrap_int (v + d)]> (ints st))).
Proof.
  intros Hp Hl. unfold int_incr. rewrite (int_read_live _ _ _ Hp Hl). cbn.
  now apply int_write_live with v.
Qed.

(** ** Element size (constructors, [elsize]) *)

Section ElementSize.

Variables sizeof_T nof_elements alignment : Z.
Hypothesis n_pos : 1 <= nof_elements.
Hypothesis s_range : 1 <= sizeof_T < size_mod.
Hypothesis a_range : 1 <= alignment < size_mod.

Lemma fb_alloc_init_calc e :
  calc_elsize sizeof_T alignment = Some e ->
  fb_alloc_init sizeof_T nof_elements alignment
  = Ok (mkHandle nof_elements e alignment 0 0 0 0).
Proof using n_pos s_range a_range.
  intros E. unfold fb_alloc_init. cbn [nof_elmts_ elsize_ alignment_].
  replace (0 <? nof_elements) with true by (symmetry; apply Z.ltb_lt; lia).
  replace (0 <? sizeof_T) with true by (symmetry; apply Z.ltb_lt; lia).
  replace (0 <? alignment) with true by (symmetry; apply Z.ltb_lt; lia).
  cbn. now rewrite E.
Qed.

(** The computation always ends, on a value not below the native size. *)
Lemma fb_alloc_init_total :
  exists e, sizeof_T <= e /\
    fb_alloc_init sizeof_T nof_elements alignment
    = Ok (mkHandle nof_elements e alignment 0 0 0 0).
Proof using n_pos s_range a_range.
  destruct (calc_elsize_total alignment ltac:(lia) ltac:(lia) sizeof_T)
    as (e & He & Hle); [lia|].
  exists e. split; [assumption|]. now apply fb_alloc_init_calc.
Qed.

Lemma fb_alloc_ctor_Ok h0 r n st :
  fb_alloc_init sizeof_T nof_elements alignment = Ok h0 ->
  r <> 0 -> n <> 0 ->
  exists st',
    fb_alloc_ctor sizeof_T nof_elements alignment (Some r) (Some n) st
    = Ok (set_counters h0 r n, st').
Proof using Type.
  intros E Hr Hn. unfold fb_alloc_ctor. rewrite E. cbn.
  destruct (Z.eqb_spec r 0); [contradiction|].
  erewrite int_write_live; [|assumption|apply lookup_insert_eq]. cbn.
  destruct (Z.eqb_spec n 0); [contradiction|].
  erewrite int_write_live; [|assumption|apply lookup_insert_eq]. cbn.
  eauto.
Qed.

End ElementSize.

(** Case analysis on the first call of a sequence [x ← c; k]. *)
Ltac bind_case H :=
  match type of H with
  | mbind _ ?c = _ =>
      let E := fresh "E" in
      destruct c as [?| | |] eqn:E; cbn [mbind result_bind] in H;
      [|discriminate H|discriminate H|discriminate H]
  | result_bind _ _ _ ?c = _ =>
      let E := fresh "E" in
      destruct c as [?| | |] eqn:E; cbn [mbind result_bind] in H;
      [|discriminate H|discriminate H|discriminate H]
  end.

Tactic Notation "bind_as" hyp(H) simple_intropattern(x) ident(E) :=
  match type of H with
  | mbind _ ?c = _ =>
      destruct c as [x| | |] eqn:E; cbn [mbind result_bind] in H;
      [|discriminate H|discriminate H|discriminate H]
  | result_bind _ _ _ ?c = _ =>
      destruct c as [x| | |] eqn:E; cbn [mbind result_bind] in H;
      [|discriminate H|discriminate H|discriminate H]
  end.

Lemma fb_alloc_ctor_elsize sizeof_T nof_elements alignment h0 rc na st h st' :
  fb_alloc_init sizeof_T nof_elements alignment = Ok h0 ->
  fb_alloc_ctor sizeof_T nof_elements alignment rc na st = Ok (h, st') ->
  elsize h = elsize h0.
Proof.
  intros E H. unfold fb_alloc_ctor in H. rewrite E in H. cbn [mbind result_bind] in H.
  destruct (int_new st rc) as [r st1].
  destruct (r =? 0); [discriminate|]. bind_case H.
  destruct (int_new x na) as [n st3].
  destruct (n =? 0); [discriminate|]. bind_case H.
  now inversion H.
Qed.

Lemma fb_alloc_copy_elsize sizeof_T nof_elements alignment h0 fba rc na st h st' :
  fb_alloc_init sizeof_T nof_elements alignment = Ok h0 ->
  fb_alloc_copy sizeof_T nof_elements alignment fba rc na st = Ok (h, st') ->
  elsize h = elsize h0.
Proof.
  intros E H. unfold fb_alloc_copy in H. rewrite E in H. cbn [mbind result_bind] in H.
  destruct (elsize_ h0 =? elsize_ fba).
  - do 3 bind_case H. now inversion H.
  - destruct (int_new st rc) as [r st1]. bind_case H.
    destruct (int_new x na) as [n st3]. bind_case H.
    now inversion H.
Qed.

(** C2, as stated, fails: with [sizeof(T) = 1] and [alignment = 2^64 - 1]
    the loop guard [elsize_ < elsize_ + alignment_] wraps around at the first
    test, the constructor keeps [elsize_ = 1], and [elsize()] returns 1, which
    is not a multiple of the alignment (the least multiple not below 1 is
    [2^64 - 1] itself). *)
Lemma elsize_guard_wraps :
  exists h st,
    fb_alloc_ctor 1 100 (2 ^ 64 - 1) (Some 4096) (Some 4100) st_init = Ok (h, st) /\
    elsize h = 1 /\
    elsize h mod (2 ^ 64 - 1) <> 0 /\
    (2 ^ 64 - 1) mod (2 ^ 64 - 1) = 0.
Proof.
  assert (I : fb_alloc_init 1 100 (2 ^ 64 - 1)
              = Ok (mkHandle 100 1 (2 ^ 64 - 1) 0 0 0 0)).
  { apply fb_alloc_init_calc; try (unfold size_mod; lia).
    apply calc_elsize_wrapped; unfold size_mod; lia. }
  destruct (fb_alloc_ctor_Ok 1 100 (2 ^ 64 - 1) _ 4096 4100 st_init I)
    as [st' H]; try lia.
  eexists _, st'. split; [exact H|]. cbn [elsize elsize_ set_counters].
  split; [reflexivity|]. split.
  - rewrite Z.mod_small; lia.
  - apply Z.mod_same. lia.
Qed.

(** C2, amended: for a native size [sizeof_T >= 1] and an alignment
    [alignment >= 1] whose least multiple [e >= sizeof_T] leaves the loop
    guard unwrapped ([e + alignment < 2^64]), the element size computation
    of the constructors terminates and stores exactly that [e]: a
    constructor given its two counters returns a handle, and every handle
    returned by either constructor has [elsize() = e]. *)
Theorem elsize_least_multiple sizeof_T nof_elements alignment e :
  1 <= nof_elements ->
  1 <= sizeof_T < size_mod ->
  1 <= alignment < size_mod ->
  sizeof_T <= e ->
  e mod alignment = 0 ->
  (forall e', sizeof_T <= e' -> e' mod alignment = 0 -> e <= e') ->
  e + alignment < size_mod ->
  fb_alloc_init sizeof_T nof_elements alignment
    = Ok (mkHandle nof_elements e alignment 0 0 0 0) /\
  (forall r n st, r <> 0 -> n <> 0 ->
     exists h st',
       fb_alloc_ctor sizeof_T nof_elements alignment (Some r) (Some n) st
       = Ok (h, st') /\ elsize h = e) /\
  (forall rc na st h st',
     fb_alloc_ctor sizeof_T nof_elements alignment rc na st = Ok (h, st') ->
     elsize h = e) /\
  (forall fba rc na st h st',
     fb_alloc_copy sizeof_T nof_elements alignment fba rc na st = Ok (h, st') ->
     elsize h = e).
Proof.
  intros Hn Hs Ha Hse He Hmin Hfit.
  assert (I : fb_alloc_init sizeof_T nof_elements alignment
              = Ok (mkHandle nof_elements e alignment 0 0 0 0)).
  { apply fb_alloc_init_calc; try assumption.
    apply calc_elsize_least; try assumption; lia. }
  split; [exact I|]. split; [|split].
  - intros r n st Hr Hn'.
    destruct (fb_alloc_ctor_Ok _ _ _ _ r n st I Hr Hn') as [st' H].
    eexists _, st'. split; [exact H|reflexivity].
  - intros rc na st h st' H.
    now rewrite (fb_alloc_ctor_elsize _ _ _ _ _ _ _ _ _ I H).
  - intros fba rc na st h st' H.
    now rewrite (fb_alloc_copy_elsize _ _ _ _ _ _ _ _ _ _ I H).
Qed.

Lemma elsize_least_multiple_witness :
  fb_alloc_init 12 100 8 = Ok (mkHandle 100 16 8 0 0 0 0) /\
  (forall r n st, r <> 0 -> n <> 0 ->
     exists h st',
       fb_alloc_ctor 12 100 8 (Some r) (Some n) st = Ok (h, st') /\ elsize h = 16) /\
  (forall rc na st h st',
     fb_alloc_ctor 12 100 8 rc na st = Ok (h, st') -> elsize h = 16) /\
  (forall fba rc na st h st',
     fb_alloc_copy 12 100 8 fba rc na st = Ok (h, st') -> elsize h = 16).
Proof.
  apply (elsize_least_multiple 12 100 8 16); unfold size_mod; try lia.
  - reflexivity.
  - intros e' H1 H2.
    destruct (Z_lt_ge_dec e' 16) as [L|]; [|lia]. exfalso.
    assert (C : e' = 12 \/ e' = 13 \/ e' = 14 \/ e' = 15) by lia.
    destruct C as [-> | [-> | [-> | ->]]]; discriminate H2.
Defined.

(** ** Linking the blocks ([grow]) *)

Lemma link_stmts_fst k e p m : fst (link_stmts k e (p, m)) = p + Z.of_nat k * e.
Proof.
  revert p m. induction k as [|k IH]; intros p m.
  - cbn. lia.
  - cbn [link_stmts]. unfold link_stmt at 1. cbn [fst snd]. rewrite IH. lia.
Qed.

Lemma link_stmts_app j k e pm :
  link_stmts (j + k) e pm = link_stmts k e (link_stmts j e pm).
Proof.
  revert pm. induction j as [|j IH]; intros pm; [reflexivity|].
  cbn [Nat.add link_stmts]. apply IH.
Qed.

(** Every later pass of the [do] loop runs eight statements: [nn] passes
    still to go make [8 * nn] statements. *)
Lemma duff_do_full fuel nn e pm :
  1 <= nn <= INT_MAX -> (Z.to_nat nn <= S fuel)%nat ->
  duff_do fuel 8 nn e pm = Some (link_stmts (8 * Z.to_nat nn) e pm).
Proof.
  revert nn pm. induction fuel as [|fuel IH]; intros nn pm Hnn Hf.
  - assert (nn = 1) by lia. subst nn. reflexivity.
  - cbn [duff_do]. rewrite wrap_int_small by (unfold INT_MIN, INT_MAX in *; lia).
    destruct (Z.ltb_spec 0 (nn - 1)) as [L|L].
    + rewrite IH by (unfold INT_MAX in *; lia).
      replace (8 * Z.to_nat nn)%nat with (8 + 8 * Z.to_nat (nn - 1))%nat by lia.
      now rewrite link_stmts_app.
    + assert (nn = 1) by lia. subst nn. reflexivity.
Qed.

(** With at least two blocks in a chunk the unrolled loop runs exactly
    [nof_elmts_ - 1] statements. *)
Lemma duff_links n e start m :
  2 <= n -> n + 6 < uint_mod ->
  set_links n e start m =
  Some (store_ptr (snd (link_stmts (Z.to_nat (n - 1)) e (start, m)))
                  (start + (n - 1) * e) 0).
Proof.
  intros Hn Hmax. unfold set_links.
  assert (U1 : wrap_uint (n - 1) = n - 1).
  { unfold wrap_uint. apply Z.mod_small. lia. }
  assert (U2 : wrap_uint (n - 1 + 7) = n - 1 + 7).
  { unfold wrap_uint. apply Z.mod_small. lia. }
  rewrite U1, U2.
  pose proof (Z.div_mod (n - 1) 8 ltac:(lia)) as D.
  pose proof (Z.mod_pos_bound (n - 1) 8 ltac:(lia)) as B.
  set (k := (n - 1) mod 8) in *. set (q := (n - 1) / 8) in *.
  assert (Hq : 0 <= q) by (subst q; apply Z.div_pos; lia).
  assert (Hnn : (n - 1 + 7) / 8 = if k =? 0 then q else q + 1).
  { destruct (Z.eqb_spec k 0) as [K|K].
    - symmetry. apply (Z.div_unique _ _ _ 7); lia.
    - symmetry. apply (Z.div_unique _ _ _ (k - 1)); lia. }
  assert (Hq32 : q < 2 ^ 29) by (unfold uint_mod in *; lia).
  rewrite wrap_int_small by (unfold INT_MIN, INT_MAX; rewrite Hnn; destruct (k =? 0); lia).
  rewrite Hnn.
  assert (R : duff_do (Z.to_nat (if k =? 0 then q else q + 1)) (duff_entry k)
                      (if k =? 0 then q else q + 1) e (start, m)
              = Some (link_stmts (Z.to_nat (n - 1)) e (start, m))).
  { unfold duff_entry. destruct (Z.eqb_spec k 0) as [K|K].
    - assert (1 <= q) by lia.
      destruct (Z.to_nat q) as [|f] eqn:F; [lia|].
      cbn [duff_do]. rewrite wrap_int_small by (unfold INT_MIN, INT_MAX; lia).
      destruct (Z.ltb_spec 0 (q - 1)) as [L|L].
      + destruct f as [|f]; [lia|].
        rewrite duff_do_full by (unfold INT_MAX; lia).
        rewrite <- link_stmts_app. f_equal. f_equal. lia.
      + f_equal. f_equal. lia.
    - destruct (Z.to_nat (q + 1)) as [|f] eqn:F; [lia|].
      cbn [duff_do]. rewrite wrap_int_small by (unfold INT_MIN, INT_MAX; lia).
      replace (q + 1 - 1) with q by lia.
      destruct (Z.ltb_spec 0 q) as [L|L].
      + destruct f as [|f]; [lia|].
        rewrite duff_do_full by (unfold INT_MAX; lia).
        rewrite <- link_stmts_app. f_equal. f_equal. lia.
      + f_equal. f_equal. lia. }
  rewrite R.
  destruct (link_stmts (Z.to_nat (n - 1)) e (start, m)) as [p m'] eqn:L.
  cbn [snd]. f_equal. f_equal.
  change p with (fst (p, m')). rewrite <- L, link_stmts_fst. lia.
Qed.

Lemma link_stmts_snoc k e pm :
  link_stmts (S k) e pm = link_stmt e (link_stmts k e pm).
Proof.
  replace (S k) with (k + 1)%nat by lia. now rewrite link_stmts_app.
Qed.

(** The straightforward loop runs one statement per block but the last. *)
Lemma plain_for_links fuel k e start m j :
  1 <= e -> (k <= fuel)%nat ->
  plain_for fuel e (start + Z.of_nat (j + k) * e)
            (link_stmts j e (start, m))
  = Some (link_stmts (j + k) e (start, m)).
Proof.
  intros He. revert k j. induction fuel as [|fuel IH]; intros k j Hk.
  - assert (k = 0)%nat by lia. subst k. cbn [plain_for].
    rewrite link_stmts_fst. rewrite Nat.add_0_r.
    destruct (Z.ltb_spec (start + Z.of_nat j * e) (start + Z.of_nat j * e));
      [lia|reflexivity].
  - cbn [plain_for]. rewrite link_stmts_fst.
    destruct (Z.ltb_spec (start + Z.of_nat j * e)
                          (start + Z.of_nat (j + k) * e)) as [L|L].
    + destruct k as [|k]; [rewrite Nat.add_0_r in L; lia|].
      rewrite <- link_stmts_snoc.
      replace (j + S k)%nat with (S j + k)%nat by lia.
      apply IH. lia.
    + assert (k = 0)%nat by nia. subst k. now rewrite Nat.add_0_r.
Qed.

Lemma plain_links n e start m :
  1 <= n < uint_mod -> 1 <= e -> (n - 1) * e < size_mod ->
  set_links_plain n e start m =
  Some (store_ptr (snd (link_stmts (Z.to_nat (n - 1)) e (start, m)))
                  (start + (n - 1) * e) 0).
Proof.
  intros Hn He Hfit. unfold set_links_plain.
  assert (U1 : wrap_uint (n - 1) = n - 1).
  { unfold wrap_uint. apply Z.mod_small. lia. }
  rewrite U1, wrap_size_small by nia.
  pose proof (plain_for_links (Z.to_nat n) (Z.to_nat (n - 1)) e start m 0 He
                              ltac:(lia)) as P.
  cbn [Nat.add link_stmts] in P.
  replace (Z.of_nat (Z.to_nat (n - 1))) with (n - 1) in P by lia.
  rewrite P. now destruct (link_stmts (Z.to_nat (n - 1)) e (start, m)).
Qed.

(** From two blocks per chunk on, the unrolled loop of [grow] writes the
    same memory as the straightforward loop it replaces. *)
Lemma set_links_refines_plain n e start m :
  2 <= n -> n + 6 < uint_mod -> 1 <= e -> (n - 1) * e < size_mod ->
  set_links n e start m = set_links_plain n e start m.
Proof.
  intros Hn Hmax He Hfit.
  rewrite duff_links, plain_links by lia. reflexivity.
Qed.

Lemma link_stmts_chain k e start m :
  ptr_size <= e ->
  (forall i, 0 <= i < Z.of_nat k ->
     load_ptr (snd (link_stmts k e (start, m))) (start + i * e)
     = wrap_size (start + (i + 1) * e)) /\
  (forall x, x < start \/ start + Z.of_nat k * e <= x ->
     snd (link_stmts k e (start, m)) x = m x).
Proof.
  intros He. unfold ptr_size in He. induction k as [|k [IH1 IH2]].
  - split; [intros i Hi; lia|reflexivity].
  - rewrite link_stmts_snoc. unfold link_stmt. cbn [snd].
    rewrite link_stmts_fst. split.
    + intros i Hi. destruct (Z.eq_dec i (Z.of_nat k)) as [->|N].
      * rewrite load_store_same. f_equal. lia.
      * rewrite load_store_other by (unfold ptr_size; nia).
        apply IH1. lia.
    + intros x Hx. rewrite store_ptr_out by (unfold ptr_size; nia).
      apply IH2. nia.
Qed.

(** With [2 <= nof_elmts_] and blocks that hold a pointer, the memory that
    [grow] leaves is the one the straightforward loop gives: each block but
    the last points to the next, the last holds null, and nothing is
    written outside the blocks of the chunk. *)
Lemma set_links_chain n e start m :
  2 <= n -> n + 6 < uint_mod -> ptr_size <= e -> (n - 1) * e < size_mod ->
  exists m',
    set_links n e start m = Some m' /\
    set_links_plain n e start m = Some m' /\
    (forall i, 0 <= i < n - 1 ->
       load_ptr m' (start + i * e) = wrap_size (start + (i + 1) * e)) /\
    load_ptr m' (start + (n - 1) * e) = 0 /\
    (forall x, x < start \/ start + n * e <= x -> m' x = m x).
Proof.
  intros Hn Hmax He Hfit. pose proof He as He'. unfold ptr_size in He'.
  eexists. split; [apply duff_links; assumption|].
  split; [apply plain_links; lia|].
  destruct (link_stmts_chain (Z.to_nat (n - 1)) e start m He) as [C1 C2].
  split; [|split].
  - intros i Hi. rewrite load_store_other by (unfold ptr_size; nia).
    apply C1. lia.
  - now rewrite load_store_same.
  - intros x Hx. rewrite store_ptr_out by (unfold ptr_size; nia).
    apply C2. rewrite Z2Nat.id by lia. nia.
Qed.

(** [grow] on a handle with at least two blocks per chunk, blocks that hold
    a pointer and a chunk size that fits [size_t]: it returns; both heads
    are the new chunk [start]; the chunk's back link is the former registry
    head; the blocks are chained in address order, the last one ending the
    list; and no byte outside the chunk is written. *)
Lemma grow_links_chunk heap h st start st1 :
  allocate_chunk heap h st = Ok (start, st1) ->
  refcount_ h <> 0 -> nof_allocs_ h <> 0 ->
  2 <= nof_elmts_ h -> nof_elmts_ h + 6 < uint_mod ->
  ptr_size <= elsize_ h ->
  elsize_ h * nof_elmts_ h < size_mod ->
  exists h' st',
    grow heap h st = Ok (h', st') /\
    pool_head_ h' = start /\ chunk_head_ h' = start /\
    load_ptr (mem st') (start + elsize_ h * nof_elmts_ h) = wrap_size (chunk_head_ h) /\
    (forall i, 0 <= i < nof_elmts_ h - 1 ->
       load_ptr (mem st') (start + i * elsize_ h)
       = wrap_size (start + (i + 1) * elsize_ h)) /\
    load_ptr (mem st') (start + (nof_elmts_ h - 1) * elsize_ h) = 0 /\
    (forall x, x < start \/ start + elsize_ h * nof_elmts_ h + ptr_size <= x ->
       mem st' x = mem st1 x).
Proof.
  intros A Hrc Hna Hn Hmax He Hfit. pose proof He as He'. unfold ptr_size in He'.
  assert (BB : blocks_bytes h = elsize_ h * nof_elmts_ h).
  { unfold blocks_bytes. apply wrap_size_small. nia. }
  set (m1 := store_ptr (mem st1) (start + blocks_bytes h) (chunk_head_ h)).
  destruct (set_links_chain (nof_elmts_ h) (elsize_ h) start m1 Hn Hmax He
                            ltac:(nia)) as (m' & L & _ & C1 & C2 & C3).
  exists (set_pool_head (set_chunk_head h start) start), (set_mem (set_mem st1 m1) m').
  split.
  { unfold grow. destruct (Z.eqb_spec (refcount_ h) 0); [contradiction|].
    destruct (Z.eqb_spec (nof_allocs_ h) 0); [contradiction|]. cbn [orb].
    rewrite A. cbn [mbind result_bind set_chunk_head nof_elmts_ elsize_ mem set_mem].
    fold m1. rewrite L. reflexivity. }
  cbn [pool_head_ chunk_head_ set_pool_head set_chunk_head mem set_mem].
  split; [reflexivity|]. split; [reflexivity|]. split; [|split; [|split]].
  - rewrite (load_agree m1).
    + subst m1. rewrite BB. apply load_store_same.
    + intros x Hx. apply C3. unfold ptr_size in *. nia.
  - exact C1.
  - exact C2.
  - intros x Hx. rewrite C3 by (unfold ptr_size in *; nia).
    subst m1. apply store_ptr_out. rewrite BB. unfold ptr_size in *. lia.
Qed.

(** C1 fails on the code for one block per chunk ([nof_elements = 1], which
    the constructor's [assert( nof_elmts_ > 0 )] admits): the [switch] enters
    [case 0] with [nn = 0], so the unrolled loop runs eight link statements
    where the straightforward loop runs none. After [grow] on
    [fb_alloc<T,1,8>] with [sizeof(T) = 8] and the chunk at 4096 (16 bytes:
    one block and the back link), the link word of the only block, which is
    the last one, is 4104 and not null; the chunk's back link at 4104 is
    overwritten with 4112; and the byte at 4112, past the end of the chunk,
    is changed. The straightforward loop on the same input stores null in
    the block and leaves 4112 alone. *)
Theorem grow_one_block_chunk :
  match one_block_handle, one_block_grown with
  | Ok (h0, st0), Ok (h, st) =>
      nof_elmts h = 1 /\ chunksize h = 16 /\
      pool_head_ h = 4096 /\
      load_ptr (mem st) 4096 = 4104 /\
      load_ptr (mem st) 4104 = 4112 /\
      mem st0 4112 = 0 /\ mem st 4112 = 24 /\
      match set_links_plain 1 8 4096 (mem st0) with
      | Some m => load_ptr m 4096 = 0 /\ m 4112 = 0
      | None => False
      end
  | _, _ => False
  end.
Proof. vm_compute. repeat split; reflexivity. Qed.

(** ** Requests for more than one element ([allocate] with [n != 1]) *)

(** C9, as stated, fails: the size asked from the heap is [n * sizeof(T)],
    not [n] times the padded block size. With [sizeof(T) = 4] and alignment 8
    the block size is 8, and [allocate(2)] asks for 8 bytes, not 16. *)
Lemma bulk_request_not_block_size :
  elsize (fst padded_ctor) = 8 /\
  match allocate 4 (Some 4096) (fst padded_ctor) 2 (snd padded_ctor) with
  | Ok (_, _, st) =>
      heap_log st = 8 :: heap_log (snd padded_ctor) /\
      8 <> 2 * elsize (fst padded_ctor)
  | _ => False
  end.
Proof. vm_compute. repeat split; discriminate. Qed.

(** C9, amended: for every [n <> 1], [allocate(n)] asks the process heap for
    exactly [n * sizeof(T)] bytes (the native size of [T], the product taken
    in [size_t]) and returns what the heap gives, or throws when the heap
    fails; the handle (free-list head, chunk registry head, counters) and
    the state (memory, counter values, Global Chunk Cache) are unchanged but
    for the request being logged. *)
Theorem allocate_bulk sizeof_T heap h n st :
  n <> 1 ->
  allocate sizeof_T heap h n st =
  match heap with
  | Some p => Ok (p, h, log_request st (wrap_size (n * sizeof_T)))
  | None => Throw (log_request st (wrap_size (n * sizeof_T)))
  end /\
  let st' := log_request st (wrap_size (n * sizeof_T)) in
  heap_log st' = wrap_size (n * sizeof_T) :: heap_log st /\
  mem st' = mem st /\ ints st' = ints st /\
  global_chunk_head_ st' = global_chunk_head_ st /\
  nof_free_chunks_ st' = nof_free_chunks_ st /\
  nof_allocated_chunks_ st' = nof_allocated_chunks_ st.
Proof.
  intros Hn. split; [|cbn; auto 10].
  unfold allocate. destruct (Z.eqb_spec n 1); [contradiction|reflexivity].
Qed.

Lemma allocate_bulk_witness :
  allocate 4 (Some 4096) (fst padded_ctor) 2 (snd padded_ctor) =
  Ok (4096, fst padded_ctor, log_request (snd padded_ctor) (wrap_size (2 * 4))) /\
  let st' := log_request (snd padded_ctor) (wrap_size (2 * 4)) in
  heap_log st' = wrap_size (2 * 4) :: heap_log (snd padded_ctor) /\
  mem st' = mem (snd padded_ctor) /\ ints st' = ints (snd padded_ctor) /\
  global_chunk_head_ st' = global_chunk_head_ (snd padded_ctor) /\
  nof_free_chunks_ st' = nof_free_chunks_ (snd padded_ctor) /\
  nof_allocated_chunks_ st' = nof_allocated_chunks_ (snd padded_ctor).
Proof.
  apply (allocate_bulk 4 (Some 4096) (fst padded_ctor) 2 (snd padded_ctor)). lia.
Defined.

(** ** Handles without counters *)

Lemma fb_alloc_init_heads sizeof_T nof_elements alignment h0 :
  fb_alloc_init sizeof_T nof_elements alignment = Ok h0 ->
  pool_head_ h0 = 0 /\ chunk_head_ h0 = 0.
Proof.
  unfold fb_alloc_init. intros H. do 3 bind_case H.
  destruct (calc_elsize _ _); [|discriminate]. now inversion H.
Qed.

Lemma clean_loop_counters fuel h st h' st' :
  clean_loop fuel h st = Ok (h', st') ->
  refcount_ h' = refcount_ h /\ nof_allocs_ h' = nof_allocs_ h.
Proof.
  revert h st. induction fuel as [|fuel IH]; intros h st H; cbn [clean_loop] in H.
  - destruct (chunk_head_ h =? 0); [|discriminate]. now inversion H.
  - destruct (chunk_head_ h =? 0); [now inversion H|].
    bind_case H. apply IH in H. exact H.
Qed.

Lemma clean_counters fuel h st h' st' :
  clean fuel h st = Ok (h', st') ->
  refcount_ h' = refcount_ h /\ nof_allocs_ h' = nof_allocs_ h /\
  pool_head_ h' = 0 /\ chunk_head_ h' = 0.
Proof.
  unfold clean. intros H. bind_case H. destruct x as [h1 st1].
  apply clean_loop_counters in E. inversion H; subst. cbn. tauto.
Qed.

Lemma check_empty_registry fuel h st p :
  chunk_head_ h = 0 -> check fuel h st p = Ok false.
Proof. intros C. unfold check. rewrite C. now destruct fuel. Qed.

Lemma grow_null_counters heap h st :
  refcount_ h = 0 \/ nof_allocs_ h = 0 -> grow heap h st = Throw st.
Proof.
  intros N. unfold grow.
  replace ((refcount_ h =? 0) || (nof_allocs_ h =? 0)) with true; [reflexivity|].
  symmetry. apply orb_true_iff. rewrite !Z.eqb_eq. exact N.
Qed.

Lemma null_counters_inv sizeof_T nof_elements alignment h :
  null_counters sizeof_T nof_elements alignment h -> null_inv h.
Proof.
  induction 1 as [fba rc na st h st' H Hne Hfail
                 |fba rc na st h st' _ IH H Heq
                 |heap h n st p h' st' _ IH H
                 |fuel h p n st h' st' _ IH H
                 |fuel h st h' st' _ IH H].
  - unfold fb_alloc_copy in H. bind_case H.
    apply fb_alloc_init_heads in E as [P C].
    destruct (Z.eqb_spec (elsize_ x) (elsize_ fba)) as [Q|Q].
    + do 3 bind_case H. inversion H; subst. cbn in Hne. contradiction.
    + destruct (int_new st rc) as [r st1] eqn:R. bind_case H.
      destruct (int_new x0 na) as [n st3] eqn:N. bind_case H.
      inversion H; subst. unfold null_inv. cbn. repeat split; try assumption.
      destruct Hfail as [-> | ->]; cbn in R, N; inversion R; inversion N; auto.
  - unfold fb_alloc_copy in H. bind_case H.
    destruct (Z.eqb_spec (elsize_ x) (elsize_ fba)) as [Q|Q].
    + do 3 bind_case H. inversion H; subst. exact IH.
    + destruct (int_new st rc) as [r st1] eqn:R. bind_case H.
      destruct (int_new x0 na) as [n st3] eqn:N. bind_case H.
      inversion H; subst. cbn in Heq. contradiction.
  - destruct IH as (N & P & C). unfold allocate in H.
    destruct (n =? 1).
    + rewrite P in H. cbn in H. rewrite (grow_null_counters _ _ _ N) in H.
      discriminate.
    + destruct heap; inversion H; subst. repeat split; assumption.
  - destruct IH as (N & P & C). unfold deallocate in H.
    destruct (n =? 1).
    + rewrite (check_empty_registry _ _ _ _ C) in H. discriminate.
    + inversion H; subst. repeat split; assumption.
  - destruct IH as (N & P & C). unfold release in H.
    destruct (Z.eqb_spec (refcount_ h) 0) as [R|R].
    + inversion H; subst. repeat split; assumption.
    + destruct N as [N|N]; [contradiction|].
      do 3 bind_case H. destruct (x0 =? 0).
      * bind_case H. destruct x2 as [h1 st2].
        apply clean_counters in E2 as (_ & A & _).
        bind_case H. rewrite A, N in H. discriminate.
      * inversion H; subst. repeat split; auto.
Qed.

(** C10: on a handle that comes from a sharing construction whose counter
    allocation failed (one of the two counter pointers is null), the free
    list and the chunk registry are empty and stay so, and every call of
    [allocate(1)] throws [std::bad_alloc] out of [grow] before a chunk is
    asked for: the state in which the exception leaves the call is the
    state of the call (memory, Global Chunk Cache, heap requests). *)
Theorem null_counters_allocate_throws sizeof_T nof_elements alignment h :
  null_counters sizeof_T nof_elements alignment h ->
  (refcount_ h = 0 \/ nof_allocs_ h = 0) /\
  pool_head_ h = 0 /\ chunk_head_ h = 0 /\
  forall heap st, allocate sizeof_T heap h 1 st = Throw st.
Proof.
  intros R. destruct (null_counters_inv _ _ _ _ R) as (N & P & C).
  repeat split; try assumption.
  intros heap st. unfold allocate. cbn. rewrite P. cbn.
  now rewrite (grow_null_counters _ _ _ N).
Qed.

Lemma null_counters_allocate_throws_witness :
  null_counters 16 100 8 (fst starved_copy) /\
  (refcount_ (fst starved_copy) = 0 \/ nof_allocs_ (fst starved_copy) = 0) /\
  pool_head_ (fst starved_copy) = 0 /\ chunk_head_ (fst starved_copy) = 0 /\
  forall heap st, allocate 16 heap (fst starved_copy) 1 st = Throw st.
Proof.
  assert (R : null_counters 16 100 8 (fst starved_copy)).
  { apply (nc_construct 16 100 8 (fst padded_ctor) None None (snd padded_ctor)
                        (fst starved_copy) (snd starved_copy)).
    - vm_compute. reflexivity.
    - vm_compute. discriminate.
    - left. reflexivity. }
  split; [exact R|].
  exact (null_counters_allocate_throws 16 100 8 (fst starved_copy) R).
Defined.

(** ** Giving a block back and asking again *)

Lemma wrap_int_range x : INT_MIN <= wrap_int x <= INT_MAX.
Proof.
  unfold wrap_int, INT_MIN, INT_MAX, uint_mod.
  pose proof (Z.mod_pos_bound (x + 2 ^ 31) (2 ^ 32) ltac:(lia)). lia.
Qed.

Lemma allocate_chunk_nonnull heap h st start st' :
  allocate_chunk heap h st = Ok (start, st') -> heap <> Some 0 -> start <> 0.
Proof.
  unfold allocate_chunk. intros H Hheap.
  destruct (Z.eqb_spec (global_chunk_head_ st) 0) as [G|G].
  - destruct heap as [pp|]; [|discriminate]. inversion H; subst.
    intros ->. now apply Hheap.
  - bind_case H. inversion H; subst. exact G.
Qed.

Lemma grow_Ok heap h st h' st' :
  grow heap h st = Ok (h', st') ->
  exists start st1,
    allocate_chunk heap h st = Ok (start, st1) /\
    pool_head_ h' = start /\ chunk_head_ h' = start /\
    refcount_ h' = refcount_ h /\ nof_allocs_ h' = nof_allocs_ h /\
    refcount_ h <> 0 /\ nof_allocs_ h <> 0 /\
    ints st' = ints st1.
Proof.
  unfold grow. intros H.
  destruct ((refcount_ h =? 0) || (nof_allocs_ h =? 0)) eqn:N; [discriminate|].
  apply orb_false_iff in N as [N1 N2]. apply Z.eqb_neq in N1, N2.
  bind_case H. destruct x as [start st1].
  destruct (set_links _ _ _ _); [|discriminate]. inversion H; subst.
  exists start, st1. cbn. repeat split; auto.
Qed.

(** [allocate(1)] never returns the null pointer (the heap does not). *)
Lemma allocate_nonnull sizeof_T heap h st p h' st' :
  allocate sizeof_T heap h 1 st = Ok (p, h', st') -> heap <> Some 0 -> p <> 0.
Proof.
  unfold allocate. cbn. intros H Hheap. bind_case H. destruct x as [h1 st1].
  do 3 bind_case H. inversion H; subst. clear H.
  destruct (Z.eqb_spec (pool_head_ h) 0) as [P|P].
  - apply grow_Ok in E as (start & st0 & A & -> & _).
    eapply allocate_chunk_nonnull; eassumption.
  - now inversion E; subst.
Qed.

(** Where the free list works: once [deallocate(p, 1)] has returned on a
    handle (for a block [p] that came from [allocate(1)], the
    outstanding-allocation counter holding an [int] value that is not
    negative), the call of [allocate(1)] that follows on that handle
    returns, and returns the same address [p]. *)
Theorem deallocate_allocate_lifo
    sizeof_T heap0 h0 st0 p h0' st0' fuel h st v h1 st1 heap :
  allocate sizeof_T heap0 h0 1 st0 = Ok (p, h0', st0') ->
  heap0 <> Some 0 ->
  nof_allocs h st = Ok v ->
  0 <= v <= INT_MAX ->
  deallocate fuel h p 1 st = Ok (h1, st1) ->
  exists h2 st2, allocate sizeof_T heap h1 1 st1 = Ok (p, h2, st2).
Proof.
  intros A Hheap V Hv D.
  pose proof (allocate_nonnull _ _ _ _ _ _ _ A Hheap) as Hp.
  unfold deallocate in D. cbn [Z.eqb Pos.eqb] in D.
  do 2 bind_case D. bind_case D. rename x1 into st2.
  apply int_incr_Ok in E1 as (v0 & Hna & Hl & ->).
  cbn [set_pool_head nof_allocs_ set_mem ints] in Hna, Hl.
  assert (v0 = v).
  { unfold nof_allocs in V. destruct (Z.eqb_spec (nof_allocs_ h) 0); [contradiction|].
    apply int_read_Ok in V as [_ V]. congruence. }
  subst v0.
  do 2 bind_case D. inversion D; subst. clear D.
  apply int_read_Ok in E1 as [_ R]. cbn in R. rewrite lookup_insert_eq in R.
  inversion R; subst. clear R.
  unfold assert in E2. destruct (Z.leb_spec 0 (wrap_int (v + -1))) as [W|W];
    [|discriminate].
  assert (1 <= v).
  { destruct (Z.eq_dec v 0) as [->|]; [|lia]. vm_compute in W. contradiction. }
  rewrite wrap_int_small in * by (unfold INT_MIN, INT_MAX in *; lia).
  unfold allocate. cbn [Z.eqb Pos.eqb set_pool_head pool_head_].
  destruct (Z.eqb_spec p 0); [contradiction|]. cbn [mbind result_bind].
  cbn [set_pool_head nof_allocs_ pool_head_].
  erewrite int_incr_live; [|exact Hna|cbn; apply lookup_insert_eq].
  cbn [mbind result_bind].
  erewrite int_read_live; [|exact Hna|cbn; apply lookup_insert_eq].
  cbn [mbind result_bind].
  replace (v + -1 + 1) with v by lia.
  rewrite wrap_int_small by (unfold INT_MIN, INT_MAX in *; lia).
  unfold assert. destruct (Z.ltb_spec 0 v); [|lia]. cbn. eauto.
Qed.

Lemma deallocate_allocate_lifo_witness :
  exists h2 st2,
    allocate 8 None (fst four_back) 1 (snd four_back)
    = Ok (fst (fst four_first), h2, st2).
Proof.
  apply (deallocate_allocate_lifo
           8 (Some 4096) (fst four_ctor) (snd four_ctor) (fst (fst four_first))
           (snd (fst four_first)) (snd four_first)
           1%nat (snd (fst four_first)) (snd four_first) 1
           (fst four_back) (snd four_back) None).
  - refine (returned_Ok3 (0, no_handle, st_init)
                          (allocate 8 (Some 4096) (fst four_ctor) 1 (snd four_ctor)) _).
    vm_compute. reflexivity.
  - discriminate.
  - vm_compute. reflexivity.
  - unfold INT_MAX. lia.
  - refine (returned_Ok2 (no_handle, st_init)
                          (deallocate 1 (snd (fst four_first)) (fst (fst four_first)) 1
                                      (snd four_first)) _).
    vm_compute. reflexivity.
Defined.

(** C4: with one block per chunk the round trip fails at its first step.
    [fb_alloc<T,1,8>] ([sizeof(T) = 8]) is built by the default constructor
    and [allocate(1)] is called twice; the calls return 4096 and 4104 and
    [nof_allocs()] is 2. The block at 4104 cannot be given back: [check]
    does not find it in the chunk registry, and [deallocate(4104, 1)] stops
    on [assert( check(p) )] instead of returning. The second address comes
    from the links that the unrolled loop of [grow] wrote past the only
    block of the chunk. *)
Theorem returned_block_refused :
  match one_block_two with
  | Ok (ps, h, st) =>
      ps = [4096; 4104] /\ nof_allocs h st = Ok 2 /\
      check 8 h st 4104 = Ok false /\
      deallocate 8 h 4104 1 st = Stopped
  | _ => False
  end.
Proof. vm_compute. repeat split; reflexivity. Qed.

(** ** The containment check *)

Lemma check_loop_registry fuel h m head cs p :
  registry m (blocks_bytes h) head cs -> (length cs <= fuel)%nat ->
  check_loop fuel h m head p = Ok (existsb (in_block_range h p) cs).
Proof.
  revert fuel head. induction cs as [|c cs IH]; intros fuel head R F.
  - cbn in R. subst head. now destruct fuel.
  - destruct R as (-> & Hc & R). cbn [length] in F.
    destruct fuel as [|fuel]; [lia|].
    cbn [check_loop existsb]. destruct (Z.eqb_spec c 0); [contradiction|].
    fold (in_block_range h p c).
    destruct (in_block_range h p c); [reflexivity|].
    cbn [orb]. apply IH; [exact R|lia].
Qed.

(** C8, as stated, fails: [check] only tests whether the address lies
    between the first and the last block of some chunk. After one
    [allocate(1)] on [fb_alloc<T,4,8>] ([sizeof(T) = 8], chunk at 4096) the
    only address ever returned is 4096, yet [check(4104)] is true. *)
Lemma check_accepts_unallocated_block :
  fst (fst four_first) = 4096 /\
  check 1 (snd (fst four_first)) (snd four_first) 4104 = Ok true.
Proof. vm_compute. split; reflexivity. Qed.

(** C8, amended: in a state whose chunk registry is the list [cs] of
    chunks, [check(p)] returns, and its value tells whether [p] lies in the
    range from the first to the last block, [c <= p <= c +
    (nof_elmts_-1)*elsize_], of some chunk [c] of the registry. So it returns
    false for every pointer outside all these ranges, and true for every
    pointer inside one of them, returned by [allocate(1)] or not. *)
Theorem check_is_range_containment fuel h st cs p :
  registry (mem st) (blocks_bytes h) (chunk_head_ h) cs ->
  (length cs <= fuel)%nat ->
  check fuel h st p = Ok (existsb (in_block_range h p) cs) /\
  ((forall c, In c cs ->
      p < c \/ c + wrap_size (wrap_uint (nof_elmts_ h - 1) * elsize_ h) < p) ->
   check fuel h st p = Ok false) /\
  ((exists c, In c cs /\
      c <= p <= c + wrap_size (wrap_uint (nof_elmts_ h - 1) * elsize_ h)) ->
   check fuel h st p = Ok true).
Proof.
  intros R F.
  assert (C : check fuel h st p = Ok (existsb (in_block_range h p) cs)).
  { unfold check. now apply check_loop_registry. }
  split; [exact C|]. split.
  - intros Hout. rewrite C. f_equal.
    destruct (existsb (in_block_range h p) cs) eqn:X; [|reflexivity].
    apply existsb_exists in X as (c & Hin & Hr).
    unfold in_block_range in Hr. apply andb_true_iff in Hr as [H1 H2].
    apply Z.leb_le in H1, H2. destruct (Hout c Hin); lia.
  - intros (c & Hin & H1 & H2). rewrite C. f_equal.
    apply existsb_exists. exists c. split; [exact Hin|].
    unfold in_block_range. apply andb_true_iff. now rewrite !Z.leb_le.
Qed.

Lemma check_is_range_containment_witness :
  check 1 (snd (fst four_first)) (snd four_first) 5000
  = Ok (existsb (in_block_range (snd (fst four_first)) 5000) [4096]) /\
  ((forall c, In c [4096] ->
      5000 < c \/
      c + wrap_size (wrap_uint (nof_elmts_ (snd (fst four_first)) - 1)
                     * elsize_ (snd (fst four_first))) < 5000) ->
   check 1 (snd (fst four_first)) (snd four_first) 5000 = Ok false) /\
  ((exists c, In c [4096] /\
      c <= 5000 <= c + wrap_size (wrap_uint (nof_elmts_ (snd (fst four_first)) - 1)
                                  * elsize_ (snd (fst four_first)))) ->
   check 1 (snd (fst four_first)) (snd four_first) 5000 = Ok true).
Proof.
  apply (check_is_range_containment 1 (snd (fst four_first)) (snd four_first)
                                    [4096] 5000).
  - vm_compute. repeat split. discriminate.
  - cbn. lia.
Defined.

(** ** Retiring the chunks of a registry ([clean]) *)

Lemma registry_frame m m' bb head cs :
  (forall c x, In c cs -> c + bb <= x < c + bb + ptr_size -> m' x = m x) ->
  registry m bb head cs -> registry m' bb head cs.
Proof.
  revert head. induction cs as [|c cs IH]; intros head Hf R; cbn in *.
  - exact R.
  - destruct R as (-> & Hc & R). repeat split; auto.
    rewrite (load_agree m m') by (intros x Hx; apply (Hf c); auto).
    apply IH; [|exact R]. intros c' x Hin Hx. apply (Hf c'); auto.
Qed.

Lemma cache_segment_frame m m' head cs tail :
  (forall c x, In c cs -> c <= x < c + ptr_size -> m' x = m x) ->
  cache_segment m head cs tail -> cache_segment m' head cs tail.
Proof.
  revert head. induction cs as [|c cs IH]; intros head Hf S; cbn in *.
  - exact S.
  - destruct S as (-> & S). split; [reflexivity|].
    rewrite (load_agree m m') by (intros x Hx; apply (Hf c); auto).
    apply IH; [|exact S]. intros c' x Hin Hx. apply (Hf c'); auto.
Qed.

Lemma cache_segment_snoc m head cs c tail :
  cache_segment m head cs c -> load_ptr m c = tail ->
  cache_segment m head (cs ++ [c]) tail.
Proof.
  revert head. induction cs as [|c' cs IH]; intros head S L; cbn in *.
  - subst head. auto.
  - destruct S as (-> & S). split; [reflexivity|]. now apply IH.
Qed.

Lemma last_cons_default (l : list Z) : forall c d,
  List.last (c :: l) d = List.last l c.
Proof.
  induction l as [|a l IH]; intros c d; [reflexivity|].
  change (List.last (c :: a :: l) d) with (List.last (a :: l) d).
  rewrite (IH a d). symmetry. apply (IH a c).
Qed.

Lemma clean_loop_registry fuel cs : forall h st,
  registry (mem st) (blocks_bytes h) (chunk_head_ h) cs ->
  chunks_apart (blocks_bytes h) cs ->
  Forall is_size cs ->
  0 <= blocks_bytes h ->
  (length cs <= fuel)%nat ->
  is_size (global_chunk_head_ st) ->
  0 <= nof_free_chunks_ st ->
  nof_free_chunks_ st + Z.of_nat (length cs) <= nof_allocated_chunks_ st ->
  nof_allocated_chunks_ st <= INT_MAX ->
  exists st',
    clean_loop fuel h st = Ok (set_chunk_head h 0, st') /\
    ints st' = ints st /\ heap_log st' = heap_log st /\
    nof_allocated_chunks_ st' = nof_allocated_chunks_ st /\
    nof_free_chunks_ st' = nof_free_chunks_ st + Z.of_nat (length cs) /\
    global_chunk_head_ st' = List.last cs (global_chunk_head_ st) /\
    cache_segment (mem st') (global_chunk_head_ st') (rev cs) (global_chunk_head_ st) /\
    (forall x, (forall c, In c cs -> x < c \/ c + ptr_size <= x) ->
               mem st' x = mem st x).
Proof.
  revert fuel. induction cs as [|c cs IH]; intros fuel h st R A HZ Hbb F G NF NA NM.
  - cbn in R. exists st.
    assert (E : clean_loop fuel h st = Ok (set_chunk_head h 0, st)).
    { assert (Hh : h = set_chunk_head h 0).
      { destruct h. cbn [chunk_head_] in R. subst. reflexivity. }
      rewrite <- Hh. destruct fuel; cbn [clean_loop]; rewrite R; reflexivity. }
    rewrite E. cbn [length List.last rev cache_segment].
    repeat split; auto. lia.
  - destruct R as (Hhead & Hc & R). destruct A as (A1 & A2).
    apply Forall_cons in HZ as [Zc HZ]. rewrite List.Forall_forall in A1.
    cbn [length] in F, NA. destruct fuel as [|fuel]; [lia|].
    cbn [clean_loop]. rewrite Hhead. destruct (Z.eqb_spec c 0); [contradiction|].
    unfold deallocate_chunk.
    cbn [set_mem set_global_chunk_head set_nof_free_chunks nof_free_chunks_
         nof_allocated_chunks_ mem global_chunk_head_ ints heap_log].
    rewrite wrap_int_small by (unfold INT_MIN, INT_MAX in *; lia).
    unfold assert. destruct (Z.leb_spec (nof_free_chunks_ st + 1)
                                        (nof_allocated_chunks_ st)); [|lia].
    cbn [mbind result_bind].
    set (st1 := set_nof_free_chunks _ _).
    set (h1 := set_chunk_head h _).
    assert (R1 : registry (mem st1) (blocks_bytes h1) (chunk_head_ h1) cs).
    { subst h1 st1. cbn [chunk_head_ set_chunk_head mem].
      change (blocks_bytes (set_chunk_head h _)) with (blocks_bytes h).
      eapply registry_frame; [|exact R].
      intros c' x Hin Hx. apply store_ptr_out.
      specialize (A1 c' Hin). unfold ptr_size in *. lia. }
    destruct (IH fuel h1 st1 R1 A2 HZ Hbb ltac:(lia) Zc)
      as (st' & E & I & L & NA' & NF' & G' & S & Fr);
      try (subst st1; cbn; lia).
    exists st'. rewrite E.
    split; [reflexivity|]. split; [exact I|]. split; [exact L|].
    split; [exact NA'|]. split;
      [rewrite NF'; subst st1; cbn [nof_free_chunks_ set_nof_free_chunks length]; lia|].
    assert (G2 : global_chunk_head_ st' = List.last (c :: cs) (global_chunk_head_ st)).
    { rewrite G'. subst st1. symmetry. apply last_cons_default. }
    split; [exact G2|]. split.
    + cbn [rev]. apply cache_segment_snoc; [exact S|].
      rewrite (load_agree (mem st1)).
      * subst st1. cbn [mem set_nof_free_chunks set_global_chunk_head set_mem].
        rewrite load_store_same.
        now apply wrap_size_small.
      * intros x Hx. apply Fr. intros c' Hin. specialize (A1 c' Hin).
        unfold ptr_size in *. lia.
    + intros x Hx. rewrite Fr by (intros c' Hin; apply Hx; now right).
      subst st1. cbn [mem set_nof_free_chunks set_global_chunk_head set_mem].
      apply store_ptr_out.
      destruct (Hx c ltac:(now left)); lia.
Qed.

(** What [~fb_alloc] and [release] have in common: the reference count of
    the last handle drops to 0 and [clean] retires the registry. *)
Lemma drop_last_reference fuel h st cs :
  refcount h st = Ok 1 ->
  refcount_ h <> 0 ->
  registry (mem st) (blocks_bytes h) (chunk_head_ h) cs ->
  chunks_apart (blocks_bytes h) cs ->
  Forall is_size cs ->
  (length cs <= fuel)%nat ->
  is_size (global_chunk_head_ st) ->
  0 <= nof_free_chunks_ st ->
  nof_free_chunks_ st + Z.of_nat (length cs) <= nof_allocated_chunks_ st ->
  nof_allocated_chunks_ st <= INT_MAX ->
  exists st1 h' st2,
    int_incr st (refcount_ h) (-1) = Ok st1 /\
    int_read st1 (refcount_ h) = Ok 0 /\
    clean fuel h st1 = Ok (h', st2) /\
    pool_head_ h' = 0 /\ chunk_head_ h' = 0 /\
    refcount_ h' = refcount_ h /\ nof_allocs_ h' = nof_allocs_ h /\
    ints st2 = <[refcount_ h := 0]> (ints st) /\
    heap_log st2 = heap_log st /\
    nof_allocated_chunks_ st2 = nof_allocated_chunks_ st /\
    nof_free_chunks_ st2 = nof_free_chunks_ st + Z.of_nat (length cs) /\
    global_chunk_head_ st2 = List.last cs (global_chunk_head_ st) /\
    cache_segment (mem st2) (global_chunk_head_ st2) (rev cs) (global_chunk_head_ st) /\
    (forall x, (forall c, In c cs -> x < c \/ c + ptr_size <= x) ->
               mem st2 x = mem st x).
Proof.
  intros RC Hrc R A HZ F G NF NA NM.
  unfold refcount in RC. destruct (Z.eqb_spec (refcount_ h) 0); [contradiction|].
  apply int_read_Ok in RC as [_ RC].
  set (st1 := set_ints st (<[refcount_ h := wrap_int (1 + -1)]> (ints st))).
  assert (Hbb : 0 <= blocks_bytes h) by apply wrap_size_range.
  destruct (clean_loop_registry fuel cs h st1 R A HZ Hbb F G NF NA NM)
    as (st2 & E & I & L & NA' & NF' & G' & S & Fr).
  exists st1, (set_chunk_head (set_pool_head (set_chunk_head h 0) 0) 0), st2.
  split; [now apply int_incr_live|].
  split; [apply int_read_live; [assumption|apply lookup_insert_eq]|].
  split; [unfold clean; rewrite E; reflexivity|].
  repeat (split; [reflexivity || assumption|]). exact Fr.
Qed.

(** Where the chunk registry is well formed: on a handle whose two counters
    are live, distinct [int] objects,
    whose reference count is 1 and whose chunk registry is the list [cs] of
    chunks (pairwise disjoint, the counters of the Global Chunk Cache not
    overflowing), [release()] returns; every chunk of the registry is then
    in the Global Chunk Cache (the cache list starts with the chunks of
    [cs], last retired first, and goes on with the former cache; the free
    chunk count grows by their number); the free-list head and the registry
    head are null; [nof_allocs()] is 0 and [refcount()] is 1; the handle
    still points to the same two counters, which are still allocated, as is
    every other counter. *)
Theorem release_last_reference fuel h st cs :
  refcount h st = Ok 1 ->
  refcount_ h <> 0 -> nof_allocs_ h <> 0 -> refcount_ h <> nof_allocs_ h ->
  is_Some (ints st !! nof_allocs_ h) ->
  registry (mem st) (blocks_bytes h) (chunk_head_ h) cs ->
  chunks_apart (blocks_bytes h) cs ->
  Forall is_size cs ->
  (length cs <= fuel)%nat ->
  is_size (global_chunk_head_ st) ->
  0 <= nof_free_chunks_ st ->
  nof_free_chunks_ st + Z.of_nat (length cs) <= nof_allocated_chunks_ st ->
  nof_allocated_chunks_ st <= INT_MAX ->
  exists h' st',
    release fuel h st = Ok (h', st') /\
    pool_head_ h' = 0 /\ chunk_head_ h' = 0 /\
    refcount_ h' = refcount_ h /\ nof_allocs_ h' = nof_allocs_ h /\
    refcount h' st' = Ok 1 /\ nof_allocs h' st' = Ok 0 /\
    (forall p, is_Some (ints st' !! p) <-> is_Some (ints st !! p)) /\
    nof_free_chunks_ st' = nof_free_chunks_ st + Z.of_nat (length cs) /\
    nof_allocated_chunks_ st' = nof_allocated_chunks_ st /\
    global_chunk_head_ st' = List.last cs (global_chunk_head_ st) /\
    cache_segment (mem st') (global_chunk_head_ st') (rev cs) (global_chunk_head_ st) /\
    heap_log st' = heap_log st.
Proof.
  intros RC Hrc Hna Hne Lna R A HZ F G NF NA NM.
  destruct (drop_last_reference fuel h st cs RC Hrc R A HZ F G NF NA NM)
    as (st1 & h' & st2 & E1 & E2 & E3 & P & C & Prc & Pna & I & L & NA' & NF' & G'
        & S & Fr).
  assert (RC' : ints st !! refcount_ h = Some 1).
  { unfold refcount in RC. destruct (Z.eqb_spec (refcount_ h) 0); [contradiction|].
    now apply int_read_Ok in RC as [_ RC]. }
  destruct Lna as [w Lna].
  set (i3 := <[refcount_ h := 1]> (ints st2)).
  set (st3 := set_ints st2 i3).
  set (st4 := set_ints st3 (<[nof_allocs_ h := 0]> i3)).
  assert (W1 : int_write st2 (refcount_ h) 1 = Ok st3).
  { apply int_write_live with 0; [assumption|]. rewrite I. apply lookup_insert_eq. }
  assert (W2 : int_write st3 (nof_allocs_ h) 0 = Ok st4).
  { apply int_write_live with w; [assumption|]. subst st3 i3. cbn [ints set_ints].
    rewrite lookup_insert_ne by assumption. rewrite I.
    rewrite lookup_insert_ne by assumption. exact Lna. }
  exists h', st4. split.
  { unfold release. destruct (Z.eqb_spec (refcount_ h) 0); [contradiction|].
    rewrite E1. cbn [mbind result_bind]. rewrite E2. cbn [mbind result_bind assert].
    cbn [Z.leb Z.compare Z.eqb]. cbn [mbind result_bind]. rewrite E3.
    cbn [mbind result_bind]. rewrite Prc, W1. cbn [mbind result_bind].
    rewrite Pna, W2. reflexivity. }
  split; [exact P|]. split; [exact C|]. split; [exact Prc|]. split; [exact Pna|].
  split.
  { unfold refcount. rewrite Prc. destruct (Z.eqb_spec (refcount_ h) 0); [contradiction|].
    apply int_read_live; [assumption|]. subst st4 st3 i3. cbn [ints set_ints].
    rewrite lookup_insert_ne by (intros Q; now apply Hne).
    apply lookup_insert_eq. }
  split.
  { unfold nof_allocs. rewrite Pna.
    destruct (Z.eqb_spec (nof_allocs_ h) 0); [contradiction|].
    apply int_read_live; [assumption|]. subst st4. cbn [ints set_ints].
    apply lookup_insert_eq. }
  split.
  { intros p. subst st4 st3 i3. cbn [ints set_ints]. rewrite I.
    destruct (Z.eq_dec p (nof_allocs_ h)) as [->|N1].
    - rewrite lookup_insert_eq. split; eauto.
    - rewrite lookup_insert_ne by congruence.
      destruct (Z.eq_dec p (refcount_ h)) as [->|N2].
      + rewrite lookup_insert_eq. split; eauto.
      + rewrite !lookup_insert_ne by congruence. reflexivity. }
  subst st4 st3. cbn. repeat split; assumption.
Qed.

Lemma release_last_reference_witness :
  exists h' st',
    release 1 (snd (fst four_first)) (snd four_first) = Ok (h', st') /\
    pool_head_ h' = 0 /\ chunk_head_ h' = 0 /\
    refcount_ h' = refcount_ (snd (fst four_first)) /\
    nof_allocs_ h' = nof_allocs_ (snd (fst four_first)) /\
    refcount h' st' = Ok 1 /\ nof_allocs h' st' = Ok 0 /\
    (forall p, is_Some (ints st' !! p) <-> is_Some (ints (snd four_first) !! p)) /\
    nof_free_chunks_ st' = nof_free_chunks_ (snd four_first) + Z.of_nat (length [4096]) /\
    nof_allocated_chunks_ st' = nof_allocated_chunks_ (snd four_first) /\
    global_chunk_head_ st' = List.last [4096] (global_chunk_head_ (snd four_first)) /\
    cache_segment (mem st') (global_chunk_head_ st') (rev [4096])
                  (global_chunk_head_ (snd four_first)) /\
    heap_log st' = heap_log (snd four_first).
Proof.
  apply (release_last_reference 1 (snd (fst four_first)) (snd four_first) [4096]).
  - vm_compute. reflexivity.
  - vm_compute. discriminate.
  - vm_compute. discriminate.
  - vm_compute. discriminate.
  - vm_compute. eauto.
  - vm_compute. repeat split. discriminate.
  - vm_compute. auto.
  - repeat constructor; vm_compute; congruence.
  - cbn. lia.
  - vm_compute. split; congruence.
  - vm_compute. discriminate.
  - vm_compute. discriminate.
  - vm_compute. discriminate.
Defined.

(** C7: with one block per chunk [release()] does not return.
    [fb_alloc<T,1,8>] ([sizeof(T) = 8]) is built by the default constructor
    and [allocate(1)] is called once; it returns 4096, both counters are
    live and [refcount()] is 1. The unrolled loop of [grow] has overwritten
    the back link of the chunk at 4096 (it holds 4112 instead of null), so
    [clean] retires the chunk, follows the link to 4112 and retires that
    too; the free count becomes 2 with 1 chunk created, and
    [assert( nof_free_chunks_ <= nof_allocated_chunks_ )] stops the
    program. *)
Theorem release_one_block_stops :
  match one_block_first with
  | Ok (p, h, st) =>
      p = 4096 /\ refcount h st = Ok 1 /\ nof_allocs h st = Ok 1 /\
      chunk_head_ h = 4096 /\ load_ptr (mem st) (4096 + blocks_bytes h) = 4112 /\
      dump st = (1, 0) /\
      release 8 h st = Stopped
  | _ => False
  end.
Proof. vm_compute. repeat split; reflexivity. Qed.

(** ** The Global Chunk Cache ([allocate_chunk], [deallocate_chunk]) *)

Lemma allocate_chunk_cached heap h st :
  global_chunk_head_ st <> 0 -> 1 <= nof_free_chunks_ st <= INT_MAX ->
  allocate_chunk heap h st =
  Ok (global_chunk_head_ st,
      set_global_chunk_head (set_nof_free_chunks st (nof_free_chunks_ st - 1))
                            (load_ptr (mem st) (global_chunk_head_ st))).
Proof.
  intros G N. unfold allocate_chunk.
  destruct (Z.eqb_spec (global_chunk_head_ st) 0); [contradiction|].
  rewrite wrap_int_small by (unfold INT_MIN, INT_MAX in *; lia).
  cbn [nof_free_chunks_ set_nof_free_chunks]. unfold assert.
  destruct (Z.leb_spec 0 (nof_free_chunks_ st - 1)); [reflexivity|lia].
Qed.

Lemma allocate_chunk_fresh pp h st :
  global_chunk_head_ st = 0 ->
  allocate_chunk (Some pp) h st =
  Ok (pp, set_mem (log_request
                     (set_nof_allocated_chunks st (wrap_int (nof_allocated_chunks_ st + 1)))
                     (chunksize h))
                  (memset0 (mem st) pp (chunksize h))).
Proof.
  intros G. unfold allocate_chunk. rewrite G. reflexivity.
Qed.

Lemma memset0_in m a len x : a <= x < a + len -> memset0 m a len x = 0.
Proof.
  intros H. unfold memset0.
  destruct (Z.leb_spec a x), (Z.ltb_spec x (a + len)); simpl; lia || reflexivity.
Qed.

Lemma memset0_out m a len x : x < a \/ a + len <= x -> memset0 m a len x = m x.
Proof.
  intros H. unfold memset0.
  destruct (Z.leb_spec a x), (Z.ltb_spec x (a + len)); simpl; lia || reflexivity.
Qed.

Lemma last_nonzero (cs : list Z) d :
  cs <> [] -> Forall (fun c => c <> 0) cs -> List.last cs d <> 0.
Proof.
  induction cs as [|c cs IH]; intros Hne Hall; [contradiction|].
  apply Forall_cons in Hall as [Hc Hall].
  destruct cs as [|c2 cs2]; [exact Hc|].
  change (List.last (c :: c2 :: cs2) d) with (List.last (c2 :: cs2) d).
  apply IH; [discriminate|exact Hall].
Qed.

Lemma registry_nonzero m bb head cs :
  registry m bb head cs -> Forall (fun c => c <> 0) cs.
Proof.
  revert head. induction cs as [|c cs IH]; intros head R; [constructor|].
  destruct R as (_ & Hc & R). constructor; [exact Hc|]. eapply IH, R.
Qed.

(** The destructor of the last handle of a group. *)
Lemma fb_alloc_dtor_last fuel h st cs :
  refcount h st = Ok 1 ->
  refcount_ h <> 0 -> nof_allocs_ h <> 0 -> refcount_ h <> nof_allocs_ h ->
  is_Some (ints st !! nof_allocs_ h) ->
  registry (mem st) (blocks_bytes h) (chunk_head_ h) cs ->
  chunks_apart (blocks_bytes h) cs ->
  Forall is_size cs ->
  (length cs <= fuel)%nat ->
  is_size (global_chunk_head_ st) ->
  0 <= nof_free_chunks_ st ->
  nof_free_chunks_ st + Z.of_nat (length cs) <= nof_allocated_chunks_ st ->
  nof_allocated_chunks_ st <= INT_MAX ->
  exists st',
    fb_alloc_dtor fuel h st = Ok st' /\
    ints st' = delete (nof_allocs_ h) (delete (refcount_ h) (ints st)) /\
    nof_free_chunks_ st' = nof_free_chunks_ st + Z.of_nat (length cs) /\
    nof_allocated_chunks_ st' = nof_allocated_chunks_ st /\
    global_chunk_head_ st' = List.last cs (global_chunk_head_ st) /\
    cache_segment (mem st') (global_chunk_head_ st') (rev cs) (global_chunk_head_ st) /\
    heap_log st' = heap_log st.
Proof.
  intros RC Hrc Hna Hne Lna R A HZ F G NF NA NM.
  destruct (drop_last_reference fuel h st cs RC Hrc R A HZ F G NF NA NM)
    as (st1 & h' & st2 & E1 & E2 & E3 & P & C & Prc & Pna & I & L & NA' & NF' & G'
        & S & Fr).
  destruct Lna as [w Lna].
  set (st3 := set_ints st2 (delete (refcount_ h) (ints st2))).
  set (st4 := set_ints st3 (delete (nof_allocs_ h) (ints st3))).
  assert (D1 : int_delete st2 (refcount_ h) = Ok st3).
  { unfold int_delete. destruct (Z.eqb_spec (refcount_ h) 0); [contradiction|].
    assert (Q : ints st2 !! refcount_ h = Some 0)
      by (rewrite I; apply lookup_insert_eq).
    rewrite Q. reflexivity. }
  assert (D2 : int_delete st3 (nof_allocs_ h) = Ok st4).
  { unfold int_delete. destruct (Z.eqb_spec (nof_allocs_ h) 0); [contradiction|].
    assert (Q : ints st3 !! nof_allocs_ h = Some w).
    { subst st3. cbn [ints set_ints]. rewrite lookup_delete_ne by assumption.
      rewrite I, lookup_insert_ne by assumption. exact Lna. }
    rewrite Q. reflexivity. }
  exists st4. split.
  { unfold fb_alloc_dtor. destruct (Z.eqb_spec (refcount_ h) 0); [contradiction|].
    rewrite E1. cbn [mbind result_bind]. rewrite E2. cbn [mbind result_bind assert].
    cbn [Z.leb Z.compare Z.eqb]. cbn [mbind result_bind]. rewrite E3.
    cbn [mbind result_bind]. rewrite Prc, D1. cbn [mbind result_bind].
    rewrite Pna, D2. reflexivity. }
  split.
  { subst st4 st3. cbn [ints set_ints]. rewrite I.
    now rewrite delete_insert_eq. }
  subst st4 st3. cbn. repeat split; assumption.
Qed.

(** C6, as stated, fails in its last part: a group that never grew has no
    chunk to retire. [fb_alloc<T,4,8>] ([sizeof(T) = 8]) is constructed in the
    initial state and destroyed at once; the cache is still empty, and the
    growth of the next handle of the same instantiation asks the heap for a
    chunk of 40 bytes ([dump] then shows 1 chunk created, 0 cached). *)
Lemma chunkless_group_leaves_cache_empty :
  match fb_alloc_dtor 0 (fst four_ctor) (snd four_ctor) with
  | Ok st =>
      global_chunk_head_ st = 0 /\
      match fb_alloc_ctor 8 4 8 (Some 64) (Some 68) st with
      | Ok (h, st1) =>
          match grow (Some 4096) h st1 with
          | Ok (h2, st2) =>
              heap_log st2 = 40 :: heap_log st1 /\ dump st2 = (1, 0)
          | _ => False
          end
      | _ => False
      end
  | _ => False
  end.
Proof. vm_compute. repeat split; reflexivity. Qed.

(** C6, amended: [allocate_chunk()] pops and returns the top buffer of the
    Global Chunk Cache when the cache is not empty and the free-chunk count
    is between 1 and [INT_MAX] (the count goes down by one, memory is not
    touched, the heap is not asked); when the cache is empty and the heap
    answers, it has asked the heap for [elsize_*nof_elmts_ + sizeof(char* )]
    bytes (in [size_t]), zero-fills them and counts one more created chunk.
    So, when the last handle of a group is destroyed (both counters live and
    distinct, [refcount()] 1), its chunk registry being a null-terminated
    list [cs], not empty, of pairwise disjoint chunks at [size_t] addresses,
    and the counts of the instantiation being consistent ([0 <=
    nof_free_chunks_], [nof_free_chunks_ + length cs <=
    nof_allocated_chunks_ <= INT_MAX], the cache head a [size_t] address),
    the destructor returns, the cache is not empty, and the next
    [allocate_chunk()] of the instantiation returns a cached chunk without
    asking the heap. *)
Theorem chunk_cache_reuse fuel h st cs :
  refcount h st = Ok 1 ->
  refcount_ h <> 0 -> nof_allocs_ h <> 0 -> refcount_ h <> nof_allocs_ h ->
  is_Some (ints st !! nof_allocs_ h) ->
  registry (mem st) (blocks_bytes h) (chunk_head_ h) cs ->
  cs <> [] ->
  chunks_apart (blocks_bytes h) cs ->
  Forall is_size cs ->
  (length cs <= fuel)%nat ->
  is_size (global_chunk_head_ st) ->
  0 <= nof_free_chunks_ st ->
  nof_free_chunks_ st + Z.of_nat (length cs) <= nof_allocated_chunks_ st ->
  nof_allocated_chunks_ st <= INT_MAX ->
  (forall heap h0 s,
     global_chunk_head_ s <> 0 -> 1 <= nof_free_chunks_ s <= INT_MAX ->
     exists s',
       allocate_chunk heap h0 s = Ok (global_chunk_head_ s, s') /\
       global_chunk_head_ s' = load_ptr (mem s) (global_chunk_head_ s) /\
       nof_free_chunks_ s' = nof_free_chunks_ s - 1 /\
       nof_allocated_chunks_ s' = nof_allocated_chunks_ s /\
       mem s' = mem s /\ heap_log s' = heap_log s) /\
  (forall pp h0 s,
     global_chunk_head_ s = 0 ->
     exists s',
       allocate_chunk (Some pp) h0 s = Ok (pp, s') /\
       heap_log s' = chunksize h0 :: heap_log s /\
       chunksize h0 = wrap_size (wrap_size (elsize_ h0 * nof_elmts_ h0) + ptr_size) /\
       (forall x, pp <= x < pp + chunksize h0 -> mem s' x = 0) /\
       (forall x, x < pp \/ pp + chunksize h0 <= x -> mem s' x = mem s x) /\
       nof_allocated_chunks_ s' = wrap_int (nof_allocated_chunks_ s + 1) /\
       nof_free_chunks_ s' = nof_free_chunks_ s /\
       global_chunk_head_ s' = 0) /\
  exists st',
    fb_alloc_dtor fuel h st = Ok st' /\
    global_chunk_head_ st' <> 0 /\
    forall heap h0,
    exists st'',
      allocate_chunk heap h0 st' = Ok (global_chunk_head_ st', st'') /\
      heap_log st'' = heap_log st /\
      nof_allocated_chunks_ st'' = nof_allocated_chunks_ st /\
      nof_free_chunks_ st'' = nof_free_chunks_ st + Z.of_nat (length cs) - 1.
Proof.
  intros RC Hrc Hna Hne Lna R Hcs A HZ F G NF NA NM.
  split; [|split].
  - intros heap h0 s Gs Ns. eexists. split; [now apply allocate_chunk_cached|].
    cbn. repeat split; reflexivity.
  - intros pp h0 s Gs. eexists. split; [now apply allocate_chunk_fresh|].
    cbn [heap_log mem set_mem log_request set_nof_allocated_chunks
         nof_allocated_chunks_ nof_free_chunks_ global_chunk_head_ ints].
    split; [reflexivity|]. split; [reflexivity|].
    split; [intros x Hx; now apply memset0_in|].
    split; [intros x Hx; now apply memset0_out|].
    split; [reflexivity|]. split; [reflexivity|exact Gs].
  - destruct (fb_alloc_dtor_last fuel h st cs RC Hrc Hna Hne Lna R A HZ F G NF NA NM)
      as (st' & D & I & NF' & NA' & G' & S & L).
    assert (Gnz : global_chunk_head_ st' <> 0).
    { rewrite G'. apply last_nonzero; [exact Hcs|]. eapply registry_nonzero, R. }
    assert (Hlen : 1 <= Z.of_nat (length cs)) by (destruct cs; [contradiction|cbn; lia]).
    exists st'. split; [exact D|]. split; [exact Gnz|].
    intros heap h0. eexists. split.
    + apply allocate_chunk_cached; [exact Gnz|lia].
    + cbn. repeat split; lia || assumption.
Qed.

Lemma chunk_cache_reuse_witness :
  exists st',
    fb_alloc_dtor 1 (snd (fst four_first)) (snd four_first) = Ok st' /\
    global_chunk_head_ st' <> 0 /\
    forall heap h0,
    exists st'',
      allocate_chunk heap h0 st' = Ok (global_chunk_head_ st', st'') /\
      heap_log st'' = heap_log (snd four_first) /\
      nof_allocated_chunks_ st'' = nof_allocated_chunks_ (snd four_first) /\
      nof_free_chunks_ st'' =
        nof_free_chunks_ (snd four_first) + Z.of_nat (length [4096]) - 1.
Proof.
  apply (chunk_cache_reuse 1 (snd (fst four_first)) (snd four_first) [4096]).
  - vm_compute. reflexivity.
  - vm_compute. discriminate.
  - vm_compute. discriminate.
  - vm_compute. discriminate.
  - vm_compute. eauto.
  - vm_compute. repeat split. discriminate.
  - discriminate.
  - vm_compute. auto.
  - repeat constructor; vm_compute; congruence.
  - cbn. lia.
  - vm_compute. split; congruence.
  - vm_compute. discriminate.
  - vm_compute. discriminate.
  - vm_compute. discriminate.
Defined.

(** ** Distinct addresses from repeated allocation *)

(** With four blocks per chunk the pool behaves as described: five calls of
    [allocate(1)] on a new [fb_alloc<T,4,8>] ([sizeof(T) = 8], chunks at
    4096 and 8192) return five distinct addresses and leave
    [nof_allocs() = 5], two chunks having been created. *)
Example four_block_chunks_distinct :
  match allocate_each 8 [Some 4096; None; None; None; Some 8192]
                      (fst four_ctor) (snd four_ctor) with
  | Ok (ps, h, st) =>
      ps = [4096; 4104; 4112; 4120; 8192] /\
      nof_allocs h st = Ok 5 /\ dump st = (2, 0)
  | _ => False
  end.
Proof. vm_compute. repeat split; reflexivity. Qed.

(** C3 fails on the code for one block per chunk, through the defect of the
    unrolled loop of [grow]. On a new [fb_alloc<T,1,8>]
    ([sizeof(T) = 8]) the first [allocate(1)] grows the pool with the
    16-byte chunk at 4096..4111; the eight links written by the unrolled
    loop make the next eight calls return 4104, 4112, ..., 4160, addresses
    that are not blocks (4104 is the chunk's back link, the others lie past
    its end). The tenth call grows again; the heap answers with 4128, which
    does not overlap the first chunk, and [allocate(1)] returns 4128 a
    second time. All ten calls return and [nof_allocs()] is 10, but the
    addresses are not pairwise distinct. *)
Theorem one_block_chunks_repeat_address :
  match one_block_handle with
  | Ok (h0, st0) =>
      chunksize h0 = 16 /\
      match allocate_each 8 [Some 4096; None; None; None; None;
                             None; None; None; None; Some 4128] h0 st0 with
      | Ok (ps, h, st) =>
          ps = [4096; 4104; 4112; 4120; 4128; 4136; 4144; 4152; 4160; 4128] /\
          ~ List.NoDup ps /\
          nof_allocs h st = Ok 10
      | _ => False
      end
  | _ => False
  end.
Proof.
  vm_compute. split; [reflexivity|]. split; [reflexivity|]. split; [|reflexivity].
  intros H.
  do 4 (apply List.NoDup_cons_iff in H; destruct H as [_ H]).
  apply List.NoDup_cons_iff in H. destruct H as [H _]. apply H.
  cbn. auto 10.
Qed.

(** ** What each call does to the counters *)

Lemma allocate_chunk_ints heap h st start st' :
  allocate_chunk heap h st = Ok (start, st') -> ints st' = ints st.
Proof.
  unfold allocate_chunk. intros H. destruct (global_chunk_head_ st =? 0).
  - destruct heap; inversion H; subst. reflexivity.
  - bind_case H. inversion H; subst. reflexivity.
Qed.

Lemma clean_loop_ints fuel h st h' st' :
  clean_loop fuel h st = Ok (h', st') -> ints st' = ints st.
Proof.
  revert h st. induction fuel as [|fuel IH]; intros h st H; cbn [clean_loop] in H.
  - destruct (chunk_head_ h =? 0); [|discriminate]. now inversion H.
  - destruct (chunk_head_ h =? 0); [now inversion H|].
    bind_case H. apply IH in H. rewrite H.
    unfold deallocate_chunk in E. bind_case E. inversion E; subst. reflexivity.
Qed.

Lemma clean_ints fuel h st h' st' :
  clean fuel h st = Ok (h', st') -> ints st' = ints st.
Proof.
  unfold clean. intros H. bind_case H. destruct x as [h1 st1].
  inversion H; subst. eapply clean_loop_ints, E.
Qed.

Lemma counters_kept_refl h m : counters_kept h h m m.
Proof. unfold counters_kept. auto. Qed.

Lemma counters_kept_incr h st d st' :
  int_incr st (nof_allocs_ h) d = Ok st' ->
  (forall q, q <> nof_allocs_ h -> ints st' !! q = ints st !! q) /\
  (is_Some (ints st !! nof_allocs_ h) -> is_Some (ints st' !! nof_allocs_ h)).
Proof.
  intros H. apply int_incr_Ok in H as (v & Hp & Hl & ->). cbn [ints set_ints].
  split.
  - intros q Hq. now rewrite lookup_insert_ne.
  - intros _. rewrite lookup_insert_eq. eauto.
Qed.

Lemma allocate_counters sizeof_T heap h n st p h' st' :
  allocate sizeof_T heap h n st = Ok (p, h', st') ->
  counters_kept h h' (ints st) (ints st').
Proof.
  unfold allocate. intros H. destruct (n =? 1).
  - bind_case H. destruct x as [h1 st1]. bind_case H. do 2 bind_case H.
    inversion H; subst. clear H.
    assert (K : refcount_ h1 = refcount_ h /\ nof_allocs_ h1 = nof_allocs_ h /\
                ints st1 = ints st).
    { destruct (pool_head_ h =? 0).
      - apply grow_Ok in E as (start & st0 & A & _ & _ & R & N & _ & _ & I).
        apply allocate_chunk_ints in A. repeat split; congruence.
      - inversion E; subst. auto. }
    destruct K as (K1 & K2 & K3).
    cbn [set_pool_head nof_allocs_] in E0. rewrite K2 in E0.
    apply counters_kept_incr in E0 as [F1 F2]. rewrite K3 in F1, F2.
    unfold counters_kept. cbn [set_pool_head refcount_ nof_allocs_]. auto.
  - destruct heap; inversion H; subst. apply counters_kept_refl.
Qed.

Lemma deallocate_counters fuel h p n st h' st' :
  deallocate fuel h p n st = Ok (h', st') ->
  counters_kept h h' (ints st) (ints st').
Proof.
  unfold deallocate. intros H. destruct (n =? 1).
  - do 2 bind_case H. bind_case H. do 2 bind_case H. inversion H; subst. clear H.
    cbn [set_pool_head nof_allocs_] in E1.
    apply counters_kept_incr in E1 as [F1 F2]. cbn [ints set_mem] in F1, F2.
    unfold counters_kept. cbn [set_pool_head refcount_ nof_allocs_]. auto.
  - inversion H; subst. apply counters_kept_refl.
Qed.

Lemma release_counters fuel h st h' st' :
  refcount h st = Ok 1 ->
  (nof_allocs_ h <> 0 -> refcount_ h <> nof_allocs_ h) ->
  release fuel h st = Ok (h', st') ->
  counters_kept h h' (ints st) (ints st').
Proof.
  intros RC Hne H. unfold release in H. unfold refcount in RC.
  destruct (Z.eqb_spec (refcount_ h) 0) as [Z0|Z0].
  { inversion H; subst. apply counters_kept_refl. }
  apply int_read_Ok in RC as [_ RC].
  bind_as H st1 E1. apply int_incr_Ok in E1 as (v & _ & Hl & ->).
  assert (v = 1) by congruence. subst v.
  bind_as H v2 E2. apply int_read_Ok in E2 as [_ E2]. cbn [ints set_ints] in E2.
  rewrite lookup_insert_eq in E2. inversion E2; subst v2. clear E2.
  bind_as H u E3. change (wrap_int (1 + -1) =? 0) with true in H. cbn iota in H.
  bind_as H [h1 st2] E4.
  pose proof (clean_ints _ _ _ _ _ E4) as I. cbn [ints set_ints] in I.
  apply clean_counters in E4 as (K1 & K2 & _ & _).
  bind_as H st3 E5. apply int_write_Ok in E5 as (_ & _ & ->).
  bind_as H st4 E6. apply int_write_Ok in E6 as (Hna & _ & ->).
  inversion H; subst. clear H.
  rewrite K2 in Hna. specialize (Hne Hna).
  unfold counters_kept. rewrite K1, K2 in *. cbn [ints set_ints]. rewrite I.
  repeat split.
  - intros q Hq. rewrite lookup_insert_ne by congruence.
    destruct (Z.eq_dec q (refcount_ h)) as [->|Q].
    + rewrite lookup_insert_eq. now rewrite RC.
    + now rewrite !lookup_insert_ne by congruence.
  - intros _. rewrite lookup_insert_eq. eauto.
Qed.

(** ** A handle copied to its own type *)

(** C5: a copy of a handle to its own type is not counted.
    [fb_alloc<T,4,8> a; fb_alloc<T,4,8> b( a );] runs the default
    constructor and then the implicitly defined copy constructor: two
    handles are alive and share the group (same [refcount_], same
    [nof_allocs_]), and [refcount()] is 1, not 2. Destroying [b] brings the
    count to 0 and deletes both counters while [a] is alive: [a] is left
    with dangling counter pointers. *)
Theorem same_type_copy_not_counted :
  match four_twin with
  | Ok (b, st) =>
      refcount_ b = refcount_ (fst four_ctor) /\
      nof_allocs_ b = nof_allocs_ (fst four_ctor) /\
      refcount_ b <> 0 /\
      sharers (refcount_ b) [b; fst four_ctor] = 2%nat /\
      refcount (fst four_ctor) st = Ok 1 /\ refcount b st = Ok 1 /\
      match fb_alloc_dtor 0 b st with
      | Ok st' =>
          ints st' !! refcount_ (fst four_ctor) = None /\
          ints st' !! nof_allocs_ (fst four_ctor) = None /\
          refcount (fst four_ctor) st' = Stopped
      | _ => False
      end
  | _ => False
  end.
Proof. vm_compute. repeat split; reflexivity || discriminate. Qed.

(** ** Runs of [allocate(1)] with at least two blocks per chunk *)

(** [allocate(1)] on an empty free list, the cache being empty: the pool
    grows by the chunk [s] that the heap gives, and the first block of [s]
    is returned. *)
Lemma allocate_grows sizeof_T h st s v :
  config_ok h -> chunk_fits h s ->
  refcount_ h <> 0 -> nof_allocs_ h <> 0 ->
  ints st !! nof_allocs_ h = Some v -> 0 <= v < INT_MAX ->
  global_chunk_head_ st = 0 ->
  pool_head_ h = 0 ->
  exists h' st',
    allocate sizeof_T (Some s) h 1 st = Ok (s, h', st') /\
    nof_elmts_ h' = nof_elmts_ h /\ elsize_ h' = elsize_ h /\
    refcount_ h' = refcount_ h /\ nof_allocs_ h' = nof_allocs_ h /\
    ints st' !! nof_allocs_ h = Some (v + 1) /\
    global_chunk_head_ st' = 0 /\
    chunk_pool h' (mem st') s 1.
Proof.
  intros (Hn & Hmax & He & Hfit) (Hs & Hsf) Hrc Hna Hl Hv G P.
  pose proof He as He'. unfold ptr_size in He', Hfit, Hsf.
  pose proof (allocate_chunk_fresh s h st G) as A.
  destruct (grow_links_chunk _ _ _ _ _ A Hrc Hna Hn Hmax He ltac:(unfold ptr_size in *; lia))
    as (h1 & st1 & Gr & P1 & C1 & _ & L1 & L2 & _).
  pose proof Gr as Gr'. apply grow_Ok in Gr' as (s0 & st0 & A0 & _ & _ & R1 & N1 & _ & _ & I1).
  rewrite A in A0. inversion A0; subst s0 st0. clear A0.
  cbn [ints set_mem log_request set_nof_allocated_chunks] in I1.
  assert (F : nof_elmts_ h1 = nof_elmts_ h /\ elsize_ h1 = elsize_ h /\
              global_chunk_head_ st1 = 0).
  { unfold grow in Gr.
    destruct ((refcount_ h =? 0) || (nof_allocs_ h =? 0)); [discriminate|].
    rewrite A in Gr. cbn [mbind result_bind] in Gr.
    destruct (set_links _ _ _ _); [|discriminate]. inversion Gr; subst.
    cbn. auto. }
  destruct F as (F1 & F2 & F3).
  set (h2 := set_pool_head h1 (load_ptr (mem st1) (pool_head_ h1))).
  set (st2 := set_ints st1 (<[nof_allocs_ h := wrap_int (v + 1)]> (ints st1))).
  exists h2, st2. split.
  { unfold allocate. cbn [Z.eqb Pos.eqb]. rewrite P. cbn [Z.eqb]. rewrite Gr.
    cbn [mbind result_bind]. fold h2. cbn [nof_allocs_ set_pool_head h2].
    change (nof_allocs_ h2) with (nof_allocs_ h1). rewrite N1.
    rewrite (int_incr_live st1 (nof_allocs_ h) 1 v) by (rewrite ?I1; assumption).
    cbn [mbind result_bind]. fold st2.
    rewrite (int_read_live st2 (nof_allocs_ h) (wrap_int (v + 1)))
      by (try assumption; apply lookup_insert_eq).
    cbn [mbind result_bind].
    rewrite wrap_int_small by (unfold INT_MIN, INT_MAX in *; lia).
    unfold assert. destruct (Z.ltb_spec 0 (v + 1)); [|lia].
    cbn [mbind result_bind]. now rewrite P1. }
  subst h2 st2. cbn [nof_elmts_ elsize_ refcount_ nof_allocs_ set_pool_head ints
                     set_ints global_chunk_head_ mem].
  repeat (split; [assumption|]).
  split.
  { rewrite lookup_insert_eq, wrap_int_small by (unfold INT_MIN, INT_MAX in *; lia).
    reflexivity. }
  split; [exact F3|].
  unfold chunk_pool.
  cbn [nof_elmts_ elsize_ pool_head_ set_pool_head]. rewrite F1, F2, P1.
  assert (W : forall i, 0 <= i < nof_elmts_ h - 1 ->
                wrap_size (s + (i + 1) * elsize_ h) = s + (i + 1) * elsize_ h).
  { intros i Hi. apply wrap_size_small. unfold size_mod in *. nia. }
  split; [lia|]. split.
  - destruct (Z.ltb_spec 1 (nof_elmts_ h)); [|lia].
    replace s with (s + 0 * elsize_ h) at 1 by lia.
    rewrite L1 by lia. rewrite W by lia. lia.
  - split.
    + intros i Hi. rewrite L1 by lia. apply W. lia.
    + intros _. exact L2.
Qed.

(** [allocate(1)] on a free list that is not empty: the next block of the
    current chunk is returned, and memory is not touched. *)
Lemma allocate_pops sizeof_T heap h st c j v :
  config_ok h -> chunk_fits h c ->
  nof_allocs_ h <> 0 ->
  ints st !! nof_allocs_ h = Some v -> 0 <= v < INT_MAX ->
  chunk_pool h (mem st) c j -> j < nof_elmts_ h ->
  exists h' st',
    allocate sizeof_T heap h 1 st = Ok (c + j * elsize_ h, h', st') /\
    nof_elmts_ h' = nof_elmts_ h /\ elsize_ h' = elsize_ h /\
    refcount_ h' = refcount_ h /\ nof_allocs_ h' = nof_allocs_ h /\
    ints st' !! nof_allocs_ h = Some (v + 1) /\
    global_chunk_head_ st' = global_chunk_head_ st /\
    chunk_pool h' (mem st') c (j + 1).
Proof.
  intros (Hn & Hmax & He & Hfit) (Hc & Hcf) Hna Hl Hv (Hj & P & L1 & L2) Hjn.
  pose proof He as He'. unfold ptr_size in He'.
  destruct (Z.ltb_spec j (nof_elmts_ h)) as [_|]; [|lia].
  set (h2 := set_pool_head h (load_ptr (mem st) (pool_head_ h))).
  set (st2 := set_ints st (<[nof_allocs_ h := wrap_int (v + 1)]> (ints st))).
  exists h2, st2. split.
  { unfold allocate. cbn [Z.eqb Pos.eqb].
    destruct (Z.eqb_spec (pool_head_ h) 0) as [Q|Q]; [nia|].
    cbn [mbind result_bind]. fold h2.
    change (nof_allocs_ h2) with (nof_allocs_ h).
    rewrite (int_incr_live st (nof_allocs_ h) 1 v) by assumption.
    cbn [mbind result_bind]. fold st2.
    rewrite (int_read_live st2 (nof_allocs_ h) (wrap_int (v + 1)))
      by (try assumption; apply lookup_insert_eq).
    cbn [mbind result_bind].
    rewrite wrap_int_small by (unfold INT_MIN, INT_MAX in *; lia).
    unfold assert. destruct (Z.ltb_spec 0 (v + 1)); [|lia].
    cbn [mbind result_bind]. now rewrite P. }
  subst h2 st2. cbn [nof_elmts_ elsize_ refcount_ nof_allocs_ set_pool_head ints
                     set_ints global_chunk_head_ mem].
  repeat (split; [reflexivity|]).
  split.
  { rewrite lookup_insert_eq, wrap_int_small by (unfold INT_MIN, INT_MAX in *; lia).
    reflexivity. }
  split; [reflexivity|].
  unfold chunk_pool. cbn [nof_elmts_ elsize_ pool_head_ set_pool_head]. rewrite P.
  split; [lia|]. split.
  - destruct (Z.ltb_spec (j + 1) (nof_elmts_ h)) as [Q|Q].
    + apply L1. lia.
    + replace j with (nof_elmts_ h - 1) by lia. apply L2. lia.
  - split.
    + intros i Hi. apply L1. lia.
    + intros Q. apply L2. lia.
Qed.

(** One call in a run: it returns an address not given out before, and the
    invariant of the run goes on. The heap's answer [s] is used only if the
    free list is empty. *)
Lemma allocate_run_step sizeof_T h st cs j ret s v :
  config_ok h -> refcount_ h <> 0 -> nof_allocs_ h <> 0 ->
  ints st !! nof_allocs_ h = Some v -> 0 <= v < INT_MAX ->
  global_chunk_head_ st = 0 ->
  pool_inv h (mem st) cs j ret ->
  chunk_fits h s ->
  Forall (fun c => s + elsize_ h * nof_elmts_ h + ptr_size <= c \/
                   c + elsize_ h * nof_elmts_ h + ptr_size <= s) cs ->
  exists p h' st' cs' j',
    allocate sizeof_T (Some s) h 1 st = Ok (p, h', st') /\
    ~ In p ret /\
    nof_elmts_ h' = nof_elmts_ h /\ elsize_ h' = elsize_ h /\
    refcount_ h' = refcount_ h /\ nof_allocs_ h' = nof_allocs_ h /\
    ints st' !! nof_allocs_ h = Some (v + 1) /\
    global_chunk_head_ st' = 0 /\
    pool_inv h' (mem st') cs' j' (p :: ret) /\
    (cs' = cs \/ cs' = s :: cs).
Proof.
  intros Cfg Hrc Hna Hl Hv G (Fits & Apart & Pool & Ret) Hs Fresh.
  pose proof Cfg as (Hn & Hmax & He & Hfit). unfold ptr_size in He, Hfit.
  assert (Grow : pool_head_ h = 0 ->
            (forall r, In r ret ->
               exists c', In c' cs /\ c' <= r < c' + nof_elmts_ h * elsize_ h) ->
            exists p h' st' cs' j',
              allocate sizeof_T (Some s) h 1 st = Ok (p, h', st') /\
              ~ In p ret /\
              nof_elmts_ h' = nof_elmts_ h /\ elsize_ h' = elsize_ h /\
              refcount_ h' = refcount_ h /\ nof_allocs_ h' = nof_allocs_ h /\
              ints st' !! nof_allocs_ h = Some (v + 1) /\
              global_chunk_head_ st' = 0 /\
              pool_inv h' (mem st') cs' j' (p :: ret) /\
              (cs' = cs \/ cs' = s :: cs)).
  { intros P Old.
    destruct (allocate_grows sizeof_T h st s v Cfg Hs Hrc Hna Hl Hv G P)
      as (h' & st' & A & F1 & F2 & F3 & F4 & I & G' & CP).
    exists s, h', st', (s :: cs), 1. split; [exact A|].
    split.
    { intros Hin. destruct (Old s Hin) as (c' & Hc' & R).
      rewrite List.Forall_forall in Fresh. specialize (Fresh c' Hc').
      unfold ptr_size in Fresh. nia. }
    repeat (split; [assumption|]). split; [|now right].
    unfold pool_inv, chunk_fits. rewrite F1, F2.
    split; [constructor; [exact Hs|exact Fits]|].
    split; [cbn [chunks_apart]; split; assumption|].
    split; [exact CP|].
    intros r [<-|Hr]; cbn [given_out]; rewrite ?F1, ?F2.
    - left. lia.
    - right. now apply Old. }
  destruct cs as [|c older].
  - apply Grow; [exact Pool|]. intros r Hr. destruct (Ret r Hr).
  - pose proof Pool as (Hj & P & L1 & L2).
    apply Forall_cons in Fits as [Hc Fits']. pose proof Hc as (Hc0 & Hcf).
    unfold ptr_size in Hcf.
    destruct (Z.ltb_spec j (nof_elmts_ h)) as [Q|Q].
    + destruct (allocate_pops sizeof_T (Some s) h st c j v Cfg Hc Hna Hl Hv Pool Q)
        as (h' & st' & A & F1 & F2 & F3 & F4 & I & G' & CP).
      exists (c + j * elsize_ h), h', st', (c :: older), (j + 1).
      split; [exact A|]. split.
      { intros Hin. destruct (Ret _ Hin) as [R|(c' & Hc' & R)]; [lia|].
        destruct Apart as [A1 _]. rewrite List.Forall_forall in A1.
        specialize (A1 c' Hc'). unfold ptr_size in A1. nia. }
      repeat (split; [assumption|]). split; [congruence|].
      split; [|now left].
      unfold pool_inv, chunk_fits. rewrite F1, F2.
      split; [constructor; assumption|]. split; [exact Apart|].
      split; [exact CP|].
      intros r [<-|Hr]; cbn [given_out]; rewrite ?F1, ?F2.
      * left. nia.
      * destruct (Ret r Hr) as [R|R]; [left; nia|now right].
    + apply Grow; [exact P|].
      intros r Hr. destruct (Ret r Hr) as [R|(c' & Hc' & R)].
      * exists c. split; [now left|]. nia.
      * exists c'. split; [now right|exact R].
Qed.

(** A run of calls of [allocate(1)], the heap having the chunks [ss] ready
    (pairwise disjoint, and disjoint from the chunks of the registry): all
    calls return, and the addresses are pairwise distinct and new. *)
Lemma allocate_each_run sizeof_T ss : forall h st cs j ret v,
  config_ok h -> refcount_ h <> 0 -> nof_allocs_ h <> 0 ->
  ints st !! nof_allocs_ h = Some v ->
  0 <= v -> v + Z.of_nat (length ss) <= INT_MAX ->
  global_chunk_head_ st = 0 ->
  pool_inv h (mem st) cs j ret ->
  Forall (chunk_fits h) ss ->
  chunks_apart (elsize_ h * nof_elmts_ h) ss ->
  Forall (fun s =>
            Forall (fun c => s + elsize_ h * nof_elmts_ h + ptr_size <= c \/
                             c + elsize_ h * nof_elmts_ h + ptr_size <= s) cs) ss ->
  exists ps h' st',
    allocate_each sizeof_T (map Some ss) h st = Ok (ps, h', st') /\
    length ps = length ss /\ List.NoDup ps /\
    (forall p, In p ps -> ~ In p ret) /\
    nof_allocs_ h' = nof_allocs_ h /\
    ints st' !! nof_allocs_ h = Some (v + Z.of_nat (length ss)).
Proof.
  induction ss as [|s ss IH]; intros h st cs j ret v Cfg Hrc Hna Hl Hv Hmax G Inv Fits
                                     Apart Fresh.
  - exists [], h, st. cbn. repeat split; auto.
    + constructor.
    + rewrite Hl. f_equal. lia.
  - apply Forall_cons in Fits as [Hs Fits]. destruct Apart as [As Apart].
    apply Forall_cons in Fresh as [Fs Fresh]. cbn [length] in Hmax.
    destruct (allocate_run_step sizeof_T h st cs j ret s v Cfg Hrc Hna Hl
                                ltac:(lia) G Inv Hs Fs)
      as (p & h' & st' & cs' & j' & A & Hp & F1 & F2 & F3 & F4 & I & G' & Inv' & Hcs).
    destruct (IH h' st' cs' j' (p :: ret) (v + 1)) as
        (ps & h'' & st'' & E & Len & ND & New & N' & I').
    + unfold config_ok. now rewrite F1, F2.
    + congruence.
    + congruence.
    + now rewrite F4.
    + lia.
    + lia.
    + exact G'.
    + exact Inv'.
    + unfold chunk_fits. rewrite F1, F2. exact Fits.
    + rewrite F1, F2. exact Apart.
    + rewrite F1, F2. destruct Hcs as [->| ->]; [exact Fresh|].
      rewrite List.Forall_forall in *. intros s' Hs'.
      apply List.Forall_forall. intros c [<-|Hc].
      * specialize (As s' Hs'). tauto.
      * specialize (Fresh s' Hs'). rewrite List.Forall_forall in Fresh.
        now apply Fresh.
    + exists (p :: ps), h'', st''. split.
      { cbn [map allocate_each]. rewrite A. cbn [mbind result_bind].
        rewrite E. reflexivity. }
      split; [cbn [length]; lia|]. split.
      { constructor; [|exact ND]. intros Hin. apply (New p Hin). now left. }
      split.
      { intros q [<-|Hq]; [exact Hp|]. intros Hr. apply (New q Hq). now right. }
      split; [congruence|].
      rewrite F4 in I'. rewrite I'. f_equal. cbn [length]. lia.
Qed.

Lemma fb_alloc_ctor_fresh sizeof_T nof_elements alignment r c st h st0 :
  fb_alloc_ctor sizeof_T nof_elements alignment (Some r) (Some c) st = Ok (h, st0) ->
  pool_head_ h = 0 /\ chunk_head_ h = 0 /\
  refcount_ h = r /\ nof_allocs_ h = c /\ r <> 0 /\ c <> 0 /\
  ints st0 !! c = Some 0 /\
  global_chunk_head_ st0 = global_chunk_head_ st /\ mem st0 = mem st.
Proof.
  intros H. unfold fb_alloc_ctor in H. bind_as H h0 E0.
  apply fb_alloc_init_heads in E0 as [P C]. cbn [int_new] in H.
  destruct (Z.eqb_spec r 0) as [|Hr]; [discriminate|].
  bind_as H st2 E1. apply int_write_Ok in E1 as (_ & _ & ->). cbn [int_new] in H.
  destruct (Z.eqb_spec c 0) as [|Hc]; [discriminate|].
  bind_as H st4 E2. apply int_write_Ok in E2 as (_ & _ & ->).
  inversion H; subst. cbn. rewrite lookup_insert_eq. auto 10.
Qed.

(** From a handle just built by the default constructor, with a
    configuration as in [config_ok] and the Global Chunk Cache empty, any
    number of calls of [allocate(1)] (the heap giving pairwise disjoint
    chunks) return pairwise distinct addresses, and [nof_allocs()] is their
    number afterwards. *)
Theorem new_handle_allocations_distinct
    sizeof_T nof_elements alignment r c st h st0 ss :
  fb_alloc_ctor sizeof_T nof_elements alignment (Some r) (Some c) st = Ok (h, st0) ->
  config_ok h ->
  global_chunk_head_ st = 0 ->
  Forall (chunk_fits h) ss ->
  chunks_apart (elsize_ h * nof_elmts_ h) ss ->
  Z.of_nat (length ss) <= INT_MAX ->
  exists ps h' st',
    allocate_each sizeof_T (map Some ss) h st0 = Ok (ps, h', st') /\
    length ps = length ss /\ List.NoDup ps /\
    nof_allocs h' st' = Ok (Z.of_nat (length ss)).
Proof.
  intros C Cfg G Fits Apart Hmax.
  apply fb_alloc_ctor_fresh in C as (P & _ & R & N & Hr & Hc & I & G0 & _).
  destruct (allocate_each_run sizeof_T ss h st0 [] 0 [] 0) as
      (ps & h' & st' & E & Len & ND & _ & N' & I'); try assumption; try congruence;
    try lia.
  - unfold pool_inv. repeat split; try constructor; try assumption.
    intros r0 [].
  - apply List.Forall_forall. intros s _. constructor.
  - exists ps, h', st'. repeat split; try assumption.
    unfold nof_allocs. rewrite N'.
    destruct (Z.eqb_spec (nof_allocs_ h) 0); [congruence|].
    apply int_read_live; [congruence|]. rewrite I'. f_equal.
Qed.

(** * Further properties of the code *)

(** ** The element size, for every native size and alignment *)

(** X1: whatever the native size and the alignment, the element size loop
    of the constructors ends on a value [e] with
    [sizeof(T) <= e < sizeof(T) + alignment]; no value from [sizeof(T)] up to
    [e] (excluded) is a multiple of the alignment; and [e] is a multiple of
    the alignment unless the loop guard wrapped around at [e]. *)
Theorem elsize_bounds sizeof_T nof_elements alignment :
  1 <= nof_elements ->
  1 <= sizeof_T < size_mod ->
  1 <= alignment < size_mod ->
  exists e,
    fb_alloc_init sizeof_T nof_elements alignment
      = Ok (mkHandle nof_elements e alignment 0 0 0 0) /\
    sizeof_T <= e < sizeof_T + alignment /\
    e < size_mod /\
    (forall x, sizeof_T <= x < e -> x mod alignment <> 0) /\
    (e mod alignment = 0 \/ size_mod <= e + alignment).
Proof.
  intros Hn Hs Ha.
  pose proof (Z.div_mod sizeof_T alignment ltac:(lia)) as D.
  pose proof (Z.mod_pos_bound sizeof_T alignment ltac:(lia)) as B.
  set (m := alignment * (sizeof_T / alignment + 1)).
  assert (Hm : m mod alignment = 0).
  { subst m. rewrite Z.mul_comm. apply Z.mod_mul. lia. }
  destruct (elsize_loop_spec alignment ltac:(lia) ltac:(lia)
              (Z.to_nat alignment) sizeof_T m ltac:(lia) ltac:(subst m; nia) Hm
              ltac:(subst m; nia))
    as (e & He & Hr & Hstop & Hbefore).
  exists e. split; [now apply fb_alloc_init_calc|].
  assert (Hlt : e < sizeof_T + alignment).
  { destruct (Z.eq_dec e sizeof_T) as [->|N]; [lia|].
    destruct (Hbefore sizeof_T ltac:(lia)) as [Hs0 _]. subst m. nia. }
  split; [lia|]. split.
  - destruct (Z.eq_dec e sizeof_T) as [->|N]; [lia|].
    destruct (Hbefore (e - 1) ltac:(lia)) as [_ Hfit]. lia.
  - split.
    + intros x Hx. now apply Hbefore.
    + destruct Hstop as [[M _]|W]; auto.
Qed.

Lemma elsize_bounds_witness :
  exists e,
    fb_alloc_init 12 100 8 = Ok (mkHandle 100 e 8 0 0 0 0) /\
    12 <= e < 12 + 8 /\ e < size_mod /\
    (forall x, 12 <= x < e -> x mod 8 <> 0) /\
    (e mod 8 = 0 \/ size_mod <= e + 8).
Proof.
  apply (elsize_bounds 12 100 8); unfold size_mod; lia.
Defined.

(** X2: when the alignment is a power of two, the element size computed by
    the constructors is the least multiple of the alignment that is not
    below the native size, whenever that multiple fits [size_t]; the
    wrap-around of the loop guard does no harm then. *)
Theorem elsize_power_of_two sizeof_T nof_elements k e :
  1 <= nof_elements ->
  1 <= sizeof_T ->
  0 <= k < 64 ->
  sizeof_T <= e < size_mod ->
  e mod 2 ^ k = 0 ->
  (forall e', sizeof_T <= e' -> e' mod 2 ^ k = 0 -> e <= e') ->
  fb_alloc_init sizeof_T nof_elements (2 ^ k)
    = Ok (mkHandle nof_elements e (2 ^ k) 0 0 0 0).
Proof.
  intros Hn Hs Hk He Hmul Hmin.
  assert (Hpos : 1 <= 2 ^ k) by (pose proof (Z.pow_pos_nonneg 2 k); lia).
  assert (Hsplit : size_mod = 2 ^ k * 2 ^ (64 - k)).
  { unfold size_mod. rewrite <- Z.pow_add_r by lia. f_equal. lia. }
  assert (Hq : 1 <= 2 ^ (64 - k)) by (pose proof (Z.pow_pos_nonneg 2 (64 - k)); lia).
  assert (Ha : 2 ^ k < size_mod).
  { unfold size_mod. apply Z.pow_lt_mono_r; lia. }
  assert (Hd : e - sizeof_T <= Z.of_nat (Z.to_nat (2 ^ k))).
  { destruct (next_multiple (2 ^ k) Hpos Ha sizeof_T ltac:(lia)) as (M1 & M2 & M3).
    specialize (Hmin _ M1 M2). lia. }
  destruct (elsize_loop_spec (2 ^ k) Hpos Ha (Z.to_nat (2 ^ k)) sizeof_T e
                             ltac:(lia) ltac:(lia) Hmul Hd)
    as (r & Hr & Hrange & Hstop & Hbefore).
  apply fb_alloc_init_calc; try lia. unfold calc_elsize. rewrite Hr. f_equal.
  destruct Hstop as [[M _]|W].
  - specialize (Hmin r ltac:(lia) M). lia.
  - apply Z.mod_divide in Hmul; [|lia]. destruct Hmul as [q Hq'].
    subst e. rewrite Hsplit in *.
    generalize dependent (2 ^ (64 - k)). generalize dependent (2 ^ k).
    intros a _ Hpos _ _ Hrange Q He _ _ _ W _.
    assert (q < Q) by nia. assert (a * q <= a * (Q - 1)) by nia. lia.
Qed.

Lemma elsize_power_of_two_witness :
  fb_alloc_init 12 100 (2 ^ 3) = Ok (mkHandle 100 16 (2 ^ 3) 0 0 0 0).
Proof.
  apply (elsize_power_of_two 12 100 3 16); unfold size_mod; try lia.
  - reflexivity.
  - intros e' H1 H2.
    destruct (Z_lt_ge_dec e' 16) as [L|]; [|lia]. exfalso.
    assert (C : e' = 12 \/ e' = 13 \/ e' = 14 \/ e' = 15) by lia.
    destruct C as [-> | [-> | [-> | ->]]]; discriminate H2.
Defined.

(** ** What the two constructors build *)

Lemma fb_alloc_ctor_state sizeof_T nof_elements alignment r c st h st0 :
  fb_alloc_ctor sizeof_T nof_elements alignment (Some r) (Some c) st = Ok (h, st0) ->
  r <> c ->
  refcount h st0 = Ok 1 /\ nof_allocs h st0 = Ok 0 /\
  pool_head_ h = 0 /\ chunk_head_ h = 0 /\
  nof_elmts h = nof_elements /\ alignmnt h = alignment /\
  heap_log st0 = 4 :: 4 :: heap_log st /\
  mem st0 = mem st /\
  dump st0 = dump st /\ global_chunk_head_ st0 = global_chunk_head_ st /\
  (forall q, q <> r -> q <> c -> ints st0 !! q = ints st !! q).
Proof.
  intros H Hne. unfold fb_alloc_ctor in H. bind_as H h0 E0.
  assert (F : nof_elmts_ h0 = nof_elements /\ alignment_ h0 = alignment /\
              pool_head_ h0 = 0 /\ chunk_head_ h0 = 0).
  { unfold fb_alloc_init in E0. do 3 bind_case E0.
    destruct (calc_elsize _ _); [|discriminate]. inversion E0; subst. cbn. auto. }
  destruct F as (F1 & F2 & F3 & F4). cbn [int_new] in H.
  destruct (Z.eqb_spec r 0) as [|Hr]; [discriminate|].
  bind_as H st2 E1. apply int_write_Ok in E1 as (_ & _ & ->). cbn [int_new] in H.
  destruct (Z.eqb_spec c 0) as [|Hc]; [discriminate|].
  bind_as H st4 E2. apply int_write_Ok in E2 as (_ & _ & ->).
  inversion H; subst. clear H.
  unfold refcount, nof_allocs, nof_elmts, alignmnt, dump.
  cbn [set_counters refcount_ nof_allocs_ nof_elmts_ alignment_ pool_head_
       chunk_head_ set_ints log_request ints heap_log mem global_chunk_head_
       nof_allocated_chunks_ nof_free_chunks_].
  destruct (Z.eqb_spec r 0); [contradiction|].
  destruct (Z.eqb_spec c 0); [contradiction|].
  split.
  { apply int_read_live; [assumption|]. cbn [ints set_ints log_request].
    rewrite !lookup_insert_ne by congruence. apply lookup_insert_eq. }
  split.
  { apply int_read_live; [assumption|]. cbn [ints set_ints log_request]. apply lookup_insert_eq. }
  repeat (split; [reflexivity || assumption|]).
  intros q Q1 Q2. now rewrite !lookup_insert_ne by congruence.
Qed.

(** X3: a handle built by the default constructor (the heap having given
    two distinct counters) has [refcount() = 1], [nof_allocs() = 0], an
    empty free list and an empty chunk registry, and reports the template
    parameters; the construction asked the heap for two [int]s and for no
    chunk, and touched neither memory, nor the Global Chunk Cache, nor any
    other counter. *)
Theorem new_handle_is_empty sizeof_T nof_elements alignment r c st h st0 :
  fb_alloc_ctor sizeof_T nof_elements alignment (Some r) (Some c) st = Ok (h, st0) ->
  r <> c ->
  refcount h st0 = Ok 1 /\ nof_allocs h st0 = Ok 0 /\
  pool_head_ h = 0 /\ chunk_head_ h = 0 /\
  nof_elmts h = nof_elements /\ alignmnt h = alignment /\
  heap_log st0 = 4 :: 4 :: heap_log st /\
  mem st0 = mem st /\
  dump st0 = dump st /\ global_chunk_head_ st0 = global_chunk_head_ st /\
  (forall q, q <> r -> q <> c -> ints st0 !! q = ints st !! q).
Proof. exact (fb_alloc_ctor_state sizeof_T nof_elements alignment r c st h st0). Qed.

Lemma new_handle_is_empty_witness :
  refcount (fst four_ctor) (snd four_ctor) = Ok 1 /\
  nof_allocs (fst four_ctor) (snd four_ctor) = Ok 0 /\
  pool_head_ (fst four_ctor) = 0 /\ chunk_head_ (fst four_ctor) = 0 /\
  nof_elmts (fst four_ctor) = 4 /\ alignmnt (fst four_ctor) = 8 /\
  heap_log (snd four_ctor) = 4 :: 4 :: heap_log st_init /\
  mem (snd four_ctor) = mem st_init /\
  dump (snd four_ctor) = dump st_init /\
  global_chunk_head_ (snd four_ctor) = global_chunk_head_ st_init /\
  (forall q, q <> 64 -> q <> 68 -> ints (snd four_ctor) !! q = ints st_init !! q).
Proof.
  apply (new_handle_is_empty 8 4 8 64 68 st_init (fst four_ctor) (snd four_ctor)).
  - refine (returned_Ok2 (no_handle, st_init)
              (fb_alloc_ctor 8 4 8 (Some 64) (Some 68) st_init) _).
    vm_compute. reflexivity.
  - discriminate.
Defined.

(** X4: a sharing construction whose block size differs from the source's
    (the heap giving two new, distinct counters) builds an independent
    group: the new handle has [refcount() = 1], [nof_allocs() = 0] and empty
    free list and registry, whatever the source holds, and the counters of
    the source read as before. *)
Theorem copy_of_other_size_is_independent
    sizeof_T nof_elements alignment fba r c st h st' :
  fb_alloc_copy sizeof_T nof_elements alignment fba (Some r) (Some c) st = Ok (h, st') ->
  elsize_ h <> elsize_ fba ->
  r <> 0 -> c <> 0 -> r <> c ->
  ints st !! r = None -> ints st !! c = None ->
  refcount h st' = Ok 1 /\ nof_allocs h st' = Ok 0 /\
  pool_head_ h = 0 /\ chunk_head_ h = 0 /\
  (forall v, refcount fba st = Ok v -> refcount fba st' = Ok v) /\
  (forall v, nof_allocs fba st = Ok v -> nof_allocs fba st' = Ok v) /\
  mem st' = mem st /\ global_chunk_head_ st' = global_chunk_head_ st.
Proof.
  intros H Hsz Hr Hc Hne Fr Fc. unfold fb_alloc_copy in H. bind_as H h0 E0.
  apply fb_alloc_init_heads in E0 as [P0 C0].
  destruct (Z.eqb_spec (elsize_ h0) (elsize_ fba)) as [Q|Q].
  { do 3 bind_case H. inversion H; subst. cbn [elsize_] in Hsz. contradiction. }
  cbn [int_new] in H.
  destruct (Z.eqb_spec r 0); [contradiction|].
  bind_as H st2 E1. apply int_write_Ok in E1 as (_ & _ & ->). cbn [int_new] in H.
  destruct (Z.eqb_spec c 0); [contradiction|].
  bind_as H st4 E2. apply int_write_Ok in E2 as (_ & _ & ->).
  inversion H; subst. clear H.
  assert (Frame : forall q, q <> r -> q <> c ->
            <[c:=0]> (<[c:=0]> (<[r:=1]> (<[r:=0]> (ints st)))) !! q = ints st !! q).
  { intros q Q1 Q2. now rewrite !lookup_insert_ne by congruence. }
  assert (Live : forall p v, int_read st p = Ok v -> p <> r /\ p <> c).
  { intros p v R. apply int_read_Ok in R as [_ R]. split; intros ->; congruence. }
  unfold refcount, nof_allocs.
  cbn [set_counters refcount_ nof_allocs_ pool_head_ chunk_head_ set_ints
       log_request ints mem global_chunk_head_].
  destruct (Z.eqb_spec r 0); [contradiction|].
  destruct (Z.eqb_spec c 0); [contradiction|].
  split.
  { apply int_read_live; [assumption|]. cbn [ints set_ints log_request].
    rewrite !lookup_insert_ne by congruence. apply lookup_insert_eq. }
  split.
  { apply int_read_live; [assumption|]. cbn [ints set_ints log_request]. apply lookup_insert_eq. }
  split; [exact P0|]. split; [exact C0|]. split; [|split; [|split; reflexivity]].
  - intros v R. destruct (Z.eqb_spec (refcount_ fba) 0); [exact R|].
    destruct (Live _ _ R) as [L1 L2]. apply int_read_Ok in R as [_ R].
    apply int_read_live; [assumption|]. cbn [ints set_ints log_request]. now rewrite Frame.
  - intros v R. destruct (Z.eqb_spec (nof_allocs_ fba) 0); [exact R|].
    destruct (Live _ _ R) as [L1 L2]. apply int_read_Ok in R as [_ R].
    apply int_read_live; [assumption|]. cbn [ints set_ints log_request]. now rewrite Frame.
Qed.

Lemma copy_of_other_size_is_independent_witness :
  refcount (fst other_size_copy) (snd other_size_copy) = Ok 1 /\
  nof_allocs (fst other_size_copy) (snd other_size_copy) = Ok 0 /\
  pool_head_ (fst other_size_copy) = 0 /\ chunk_head_ (fst other_size_copy) = 0 /\
  (forall v, refcount (fst padded_ctor) (snd padded_ctor) = Ok v ->
             refcount (fst padded_ctor) (snd other_size_copy) = Ok v) /\
  (forall v, nof_allocs (fst padded_ctor) (snd padded_ctor) = Ok v ->
             nof_allocs (fst padded_ctor) (snd other_size_copy) = Ok v) /\
  mem (snd other_size_copy) = mem (snd padded_ctor) /\
  global_chunk_head_ (snd other_size_copy) = global_chunk_head_ (snd padded_ctor).
Proof.
  apply (copy_of_other_size_is_independent 16 100 8 (fst padded_ctor) 72 76
           (snd padded_ctor) (fst other_size_copy) (snd other_size_copy)).
  - refine (returned_Ok2 (no_handle, st_init)
              (fb_alloc_copy 16 100 8 (fst padded_ctor) (Some 72) (Some 76)
                             (snd padded_ctor)) _).
    vm_compute. reflexivity.
  - vm_compute. discriminate.
  - discriminate.
  - discriminate.
  - discriminate.
  - vm_compute. reflexivity.
  - vm_compute. reflexivity.
Defined.

(** ** [allocate(1)]: from the free list, or by growing *)

Lemma allocate_chunk_frame heap h st start st1 :
  allocate_chunk heap h st = Ok (start, st1) ->
  (forall x, x < start \/ start + chunksize h <= x -> mem st1 x = mem st x) /\
  ints st1 = ints st.
Proof.
  unfold allocate_chunk. intros H. destruct (global_chunk_head_ st =? 0).
  - destruct heap as [pp|]; inversion H; subst. cbn. split; [|reflexivity].
    intros x Hx. now apply memset0_out.
  - bind_case H. inversion H; subst. cbn. auto.
Qed.

Lemma allocate_pop_Ok sizeof_T heap h st p h' st' :
  allocate sizeof_T heap h 1 st = Ok (p, h', st') ->
  pool_head_ h <> 0 ->
  p = pool_head_ h /\
  pool_head_ h' = load_ptr (mem st) (pool_head_ h) /\
  chunk_head_ h' = chunk_head_ h /\
  refcount_ h' = refcount_ h /\ nof_allocs_ h' = nof_allocs_ h /\
  mem st' = mem st /\ heap_log st' = heap_log st /\
  global_chunk_head_ st' = global_chunk_head_ st /\ dump st' = dump st /\
  (exists v, ints st !! nof_allocs_ h = Some v /\
             ints st' = <[nof_allocs_ h := wrap_int (v + 1)]> (ints st) /\
             0 < wrap_int (v + 1) /\
             (INT_MIN <= v <= INT_MAX -> wrap_int (v + 1) = v + 1 /\ 0 <= v)) /\
  (forall q, q <> nof_allocs_ h -> ints st' !! q = ints st !! q).
Proof.
  intros H P. unfold allocate in H. cbn [Z.eqb Pos.eqb] in H.
  destruct (Z.eqb_spec (pool_head_ h) 0); [contradiction|].
  cbn [mbind result_bind] in H.
  bind_as H st2 E1. cbn [set_pool_head nof_allocs_] in E1.
  apply int_incr_Ok in E1 as (v & Hna & Hl & ->).
  bind_as H v2 E2. apply int_read_Ok in E2 as [_ E2].
  cbn [ints set_ints set_pool_head nof_allocs_] in E2.
  rewrite lookup_insert_eq in E2. inversion E2; subst v2. clear E2.
  bind_as H u E3. unfold assert in E3.
  destruct (Z.ltb_spec 0 (wrap_int (v + 1))) as [W|W]; [|discriminate].
  inversion H; subst. clear H.
  cbn [pool_head_ chunk_head_ refcount_ nof_allocs_ set_pool_head mem heap_log
       global_chunk_head_ set_ints ints dump nof_allocated_chunks_ nof_free_chunks_].
  repeat (split; [reflexivity|]).
  split.
  - exists v. repeat split; try assumption; try reflexivity.
    + destruct (Z.eq_dec v INT_MAX) as [->|N]; [vm_compute in W; discriminate|].
      apply wrap_int_small. unfold INT_MIN, INT_MAX in *. lia.
    + destruct (Z.eq_dec v INT_MAX) as [->|N]; [unfold INT_MAX; lia|].
      rewrite wrap_int_small in W by (unfold INT_MIN, INT_MAX in *; lia). lia.
  - intros q Q. now rewrite lookup_insert_ne by congruence.
Qed.

(** X5: while the free list is not empty, [allocate(1)] is a pop and
    nothing else: it returns the head of the free list, makes the link
    stored there the new head, and adds one to the handle's [nof_allocs_]
    counter; memory, the chunk registry, the Global Chunk Cache and its
    counts are untouched, the heap is not asked, and no other counter
    changes. *)
Theorem allocate_from_free_list sizeof_T heap h st p h' st' :
  allocate sizeof_T heap h 1 st = Ok (p, h', st') ->
  pool_head_ h <> 0 ->
  p = pool_head_ h /\
  pool_head_ h' = load_ptr (mem st) (pool_head_ h) /\
  chunk_head_ h' = chunk_head_ h /\
  refcount_ h' = refcount_ h /\ nof_allocs_ h' = nof_allocs_ h /\
  mem st' = mem st /\ heap_log st' = heap_log st /\
  global_chunk_head_ st' = global_chunk_head_ st /\ dump st' = dump st /\
  (exists v, ints st !! nof_allocs_ h = Some v /\
             ints st' = <[nof_allocs_ h := wrap_int (v + 1)]> (ints st) /\
             0 < wrap_int (v + 1) /\
             (INT_MIN <= v <= INT_MAX -> wrap_int (v + 1) = v + 1 /\ 0 <= v)) /\
  (forall q, q <> nof_allocs_ h -> ints st' !! q = ints st !! q).
Proof. exact (allocate_pop_Ok sizeof_T heap h st p h' st'). Qed.

Lemma allocate_from_free_list_witness :
  fst (fst four_second) = pool_head_ (snd (fst four_first)) /\
  pool_head_ (snd (fst four_second))
    = load_ptr (mem (snd four_first)) (pool_head_ (snd (fst four_first))) /\
  chunk_head_ (snd (fst four_second)) = chunk_head_ (snd (fst four_first)) /\
  refcount_ (snd (fst four_second)) = refcount_ (snd (fst four_first)) /\
  nof_allocs_ (snd (fst four_second)) = nof_allocs_ (snd (fst four_first)) /\
  mem (snd four_second) = mem (snd four_first) /\
  heap_log (snd four_second) = heap_log (snd four_first) /\
  global_chunk_head_ (snd four_second) = global_chunk_head_ (snd four_first) /\
  dump (snd four_second) = dump (snd four_first) /\
  (exists v, ints (snd four_first) !! nof_allocs_ (snd (fst four_first)) = Some v /\
             ints (snd four_second)
               = <[nof_allocs_ (snd (fst four_first)) := wrap_int (v + 1)]>
                   (ints (snd four_first)) /\
             0 < wrap_int (v + 1) /\
             (INT_MIN <= v <= INT_MAX -> wrap_int (v + 1) = v + 1 /\ 0 <= v)) /\
  (forall q, q <> nof_allocs_ (snd (fst four_first)) ->
             ints (snd four_second) !! q = ints (snd four_first) !! q).
Proof.
  apply (allocate_from_free_list 8 None (snd (fst four_first)) (snd four_first)
           (fst (fst four_second)) (snd (fst four_second)) (snd four_second)).
  - refine (returned_Ok3 (0, no_handle, st_init)
              (allocate 8 None (snd (fst four_first)) 1 (snd four_first)) _).
    vm_compute. reflexivity.
  - vm_compute. discriminate.
Defined.

(** X6: when [allocate(1)] has to grow the pool, the cache is empty and the
    heap fails, [std::bad_alloc] leaves the call with the handle as it was
    (nothing was stored in it), memory, counters and cache untouched; but
    the count of created chunks has already gone up by one, for a chunk
    that does not exist. *)
Theorem allocate_growth_failure sizeof_T h st :
  pool_head_ h = 0 ->
  refcount_ h <> 0 -> nof_allocs_ h <> 0 ->
  global_chunk_head_ st = 0 ->
  exists st',
    allocate sizeof_T None h 1 st = Throw st' /\
    nof_allocated_chunks_ st' = wrap_int (nof_allocated_chunks_ st + 1) /\
    heap_log st' = chunksize h :: heap_log st /\
    mem st' = mem st /\ ints st' = ints st /\
    global_chunk_head_ st' = 0 /\
    nof_free_chunks_ st' = nof_free_chunks_ st.
Proof.
  intros P Hrc Hna G. eexists. split.
  - unfold allocate. cbn [Z.eqb Pos.eqb]. rewrite P. cbn [Z.eqb].
    unfold grow. destruct (Z.eqb_spec (refcount_ h) 0); [contradiction|].
    destruct (Z.eqb_spec (nof_allocs_ h) 0); [contradiction|]. cbn [orb].
    unfold allocate_chunk. rewrite G. cbn [Z.eqb mbind result_bind]. reflexivity.
  - cbn. auto 10.
Qed.

Lemma allocate_growth_failure_witness :
  exists st',
    allocate 8 None (fst four_ctor) 1 (snd four_ctor) = Throw st' /\
    nof_allocated_chunks_ st' = wrap_int (nof_allocated_chunks_ (snd four_ctor) + 1) /\
    heap_log st' = chunksize (fst four_ctor) :: heap_log (snd four_ctor) /\
    mem st' = mem (snd four_ctor) /\ ints st' = ints (snd four_ctor) /\
    global_chunk_head_ st' = 0 /\
    nof_free_chunks_ st' = nof_free_chunks_ (snd four_ctor).
Proof.
  apply (allocate_growth_failure 8 (fst four_ctor) (snd four_ctor)).
  - vm_compute. reflexivity.
  - vm_compute. discriminate.
  - vm_compute. discriminate.
  - vm_compute. reflexivity.
Defined.

(** ** [grow] with at least two blocks per chunk *)

(** X7: for a handle with both counters, at least two blocks per chunk,
    [nof_elmts_ + 6 < 2^32] (so that [(nof_elmts_-1)+7] does not wrap in
    [unsigned int]), blocks of at least pointer size and [elsize_*nof_elmts_
    + sizeof(char* ) < 2^64], [grow] returns whenever [allocate_chunk] gives
    a chunk [start], from the heap or from the cache and whatever bytes it
    holds: both heads become [start], the back link of the chunk holds the
    former registry head, block [i] holds the address of block [i+1] (as a
    [size_t]) for [i < nof_elmts_ - 1] and the last block holds null; the
    memory left is the one the straightforward loop gives; outside the chunk
    no byte changes, and no counter does. *)
Theorem grow_builds_free_list heap h st start st1 :
  allocate_chunk heap h st = Ok (start, st1) ->
  refcount_ h <> 0 -> nof_allocs_ h <> 0 ->
  config_ok h ->
  exists h' st',
    grow heap h st = Ok (h', st') /\
    pool_head_ h' = start /\ chunk_head_ h' = start /\
    load_ptr (mem st') (start + elsize_ h * nof_elmts_ h) = wrap_size (chunk_head_ h) /\
    (forall i, 0 <= i < nof_elmts_ h - 1 ->
       load_ptr (mem st') (start + i * elsize_ h)
       = wrap_size (start + (i + 1) * elsize_ h)) /\
    load_ptr (mem st') (start + (nof_elmts_ h - 1) * elsize_ h) = 0 /\
    set_links_plain (nof_elmts_ h) (elsize_ h) start
      (store_ptr (mem st1) (start + elsize_ h * nof_elmts_ h) (chunk_head_ h))
      = Some (mem st') /\
    (forall x, x < start \/ start + elsize_ h * nof_elmts_ h + ptr_size <= x ->
       mem st' x = mem st x) /\
    ints st' = ints st /\ heap_log st' = heap_log st1 /\
    global_chunk_head_ st' = global_chunk_head_ st1.
Proof.
  intros A Hrc Hna (Hn & Hmax & He & Hfit).
  pose proof He as He'. unfold ptr_size in He', Hfit.
  assert (BB : blocks_bytes h = elsize_ h * nof_elmts_ h).
  { unfold blocks_bytes. apply wrap_size_small. nia. }
  assert (CS : chunksize h = elsize_ h * nof_elmts_ h + ptr_size).
  { unfold chunksize. rewrite BB. apply wrap_size_small. unfold ptr_size. nia. }
  destruct (grow_links_chunk _ _ _ _ _ A Hrc Hna Hn Hmax He ltac:(lia))
    as (h' & st' & Gr & P1 & C1 & B1 & L1 & L2 & Fr).
  exists h', st'. split; [exact Gr|].
  repeat (split; [assumption|]).
  destruct (allocate_chunk_frame _ _ _ _ _ A) as [Fr1 I1].
  unfold grow in Gr.
  destruct ((refcount_ h =? 0) || (nof_allocs_ h =? 0)); [discriminate|].
  rewrite A in Gr. cbn [mbind result_bind] in Gr.
  cbn [set_chunk_head nof_elmts_ elsize_ mem set_mem] in Gr. rewrite BB in Gr.
  destruct (set_links _ _ _ _) as [m|] eqn:SL; [|discriminate].
  inversion Gr; subst h' st'. cbn [mem set_mem ints heap_log global_chunk_head_].
  split.
  { rewrite <- SL. symmetry. apply set_links_refines_plain; lia || nia. }
  split.
  { intros x Hx. cbn [mem set_mem] in Fr. rewrite Fr by exact Hx.
    apply Fr1. rewrite CS. lia. }
  auto.
Qed.

Lemma grow_builds_free_list_witness :
  exists h' st',
    grow (Some 4096) (fst four_ctor) (snd four_ctor) = Ok (h', st') /\
    pool_head_ h' = fst four_chunk /\ chunk_head_ h' = fst four_chunk /\
    load_ptr (mem st')
      (fst four_chunk + elsize_ (fst four_ctor) * nof_elmts_ (fst four_ctor))
    = wrap_size (chunk_head_ (fst four_ctor)) /\
    (forall i, 0 <= i < nof_elmts_ (fst four_ctor) - 1 ->
       load_ptr (mem st') (fst four_chunk + i * elsize_ (fst four_ctor))
       = wrap_size (fst four_chunk + (i + 1) * elsize_ (fst four_ctor))) /\
    load_ptr (mem st')
      (fst four_chunk + (nof_elmts_ (fst four_ctor) - 1) * elsize_ (fst four_ctor))
    = 0 /\
    set_links_plain (nof_elmts_ (fst four_ctor)) (elsize_ (fst four_ctor))
      (fst four_chunk)
      (store_ptr (mem (snd four_chunk))
         (fst four_chunk + elsize_ (fst four_ctor) * nof_elmts_ (fst four_ctor))
         (chunk_head_ (fst four_ctor)))
      = Some (mem st') /\
    (forall x, x < fst four_chunk \/
               fst four_chunk + elsize_ (fst four_ctor) * nof_elmts_ (fst four_ctor)
               + ptr_size <= x ->
       mem st' x = mem (snd four_ctor) x) /\
    ints st' = ints (snd four_ctor) /\ heap_log st' = heap_log (snd four_chunk) /\
    global_chunk_head_ st' = global_chunk_head_ (snd four_chunk).
Proof.
  apply (grow_builds_free_list (Some 4096) (fst four_ctor) (snd four_ctor)
                               (fst four_chunk) (snd four_chunk)).
  - refine (returned_Ok2 (0, st_init)
              (allocate_chunk (Some 4096) (fst four_ctor) (snd four_ctor)) _).
    vm_compute. reflexivity.
  - vm_compute. discriminate.
  - vm_compute. discriminate.
  - vm_compute. repeat split; discriminate || reflexivity.
Defined.

Lemma in_block_range_spec h p c :
  2 <= nof_elmts_ h -> nof_elmts_ h + 6 < uint_mod -> 0 <= elsize_ h ->
  elsize_ h * nof_elmts_ h < size_mod ->
  in_block_range h p c = true <-> c <= p <= c + (nof_elmts_ h - 1) * elsize_ h.
Proof.
  intros Hn Hmax He Hfit. unfold in_block_range.
  assert (U : wrap_uint (nof_elmts_ h - 1) = nof_elmts_ h - 1).
  { unfold wrap_uint. apply Z.mod_small. lia. }
  rewrite U, wrap_size_small by nia.
  rewrite andb_true_iff, !Z.leb_le. reflexivity.
Qed.

Lemma grow_registry heap h st start st1 cs :
  allocate_chunk heap h st = Ok (start, st1) ->
  refcount_ h <> 0 -> nof_allocs_ h <> 0 ->
  config_ok h -> chunk_fits h start ->
  Forall (fun c => start + elsize_ h * nof_elmts_ h + ptr_size <= c \/
                   c + elsize_ h * nof_elmts_ h + ptr_size <= start) cs ->
  registry (mem st) (blocks_bytes h) (chunk_head_ h) cs ->
  is_size (chunk_head_ h) ->
  exists h' st',
    grow heap h st = Ok (h', st') /\
    registry (mem st') (blocks_bytes h') (chunk_head_ h') (start :: cs) /\
    (forall fuel p b,
       (length cs <= fuel)%nat ->
       check fuel h st p = Ok b ->
       check (S fuel) h' st' p = Ok (in_block_range h p start || b)) /\
    (forall i, 0 <= i < nof_elmts_ h ->
       check 0 h' st' (start + i * elsize_ h) = Ok true).
Proof.
  intros A Hrc Hna Cfg (Hs & Hsf) Fresh R Hsz.
  pose proof Cfg as (Hn & Hmax & He & Hfit).
  pose proof He as He'. unfold ptr_size in He', Hfit, Hsf.
  assert (BB : blocks_bytes h = elsize_ h * nof_elmts_ h).
  { unfold blocks_bytes. apply wrap_size_small. nia. }
  assert (CS : chunksize h = elsize_ h * nof_elmts_ h + 8).
  { unfold chunksize. rewrite BB. apply wrap_size_small. unfold ptr_size. nia. }
  destruct (grow_links_chunk _ _ _ _ _ A Hrc Hna Hn Hmax He ltac:(lia))
    as (h' & st' & Gr & P1 & C1 & B1 & L1 & L2 & Fr).
  destruct (allocate_chunk_frame _ _ _ _ _ A) as [Fr1 _].
  assert (F : nof_elmts_ h' = nof_elmts_ h /\ elsize_ h' = elsize_ h).
  { pose proof Gr as Gr'. unfold grow in Gr'.
    destruct ((refcount_ h =? 0) || (nof_allocs_ h =? 0)); [discriminate|].
    rewrite A in Gr'. cbn [mbind result_bind] in Gr'.
    destruct (set_links _ _ _ _); [|discriminate]. inversion Gr'; subst. cbn. auto. }
  destruct F as [F1 F2].
  assert (BB' : blocks_bytes h' = blocks_bytes h).
  { unfold blocks_bytes. now rewrite F1, F2. }
  assert (R' : registry (mem st') (blocks_bytes h') (chunk_head_ h') (start :: cs)).
  { rewrite BB', C1. cbn [registry]. split; [reflexivity|]. split; [lia|].
    rewrite BB, B1, wrap_size_small by exact Hsz. rewrite <- BB.
    eapply registry_frame; [|exact R].
    intros c x Hin Hx. rewrite List.Forall_forall in Fresh.
    specialize (Fresh c Hin). rewrite BB in Hx. unfold ptr_size in *.
    rewrite Fr by nia. apply Fr1. rewrite CS. nia. }
  exists h', st'. split; [exact Gr|]. split; [exact R'|]. split.
  - intros fuel p b Hf C. unfold check in *.
    rewrite (check_loop_registry fuel h (mem st) (chunk_head_ h) cs p R Hf) in C.
    inversion C; subst b.
    rewrite (check_loop_registry (S fuel) h' (mem st') (chunk_head_ h') (start :: cs) p
                                 R' ltac:(cbn [length]; lia)).
    cbn [existsb]. unfold in_block_range. now rewrite F1, F2.
  - intros i Hi. unfold check. rewrite C1. cbn [check_loop].
    destruct (Z.eqb_spec start 0); [lia|].
    fold (in_block_range h' (start + i * elsize_ h) start).
    assert (T : in_block_range h' (start + i * elsize_ h) start = true).
    { apply in_block_range_spec; rewrite ?F1, ?F2; try lia; nia. }
    now rewrite T.
Qed.

(** X8: for a handle with both counters and the configuration of X7 (at
    least two blocks per chunk, [nof_elmts_ + 6 < 2^32], blocks of at least
    pointer size, [elsize_*nof_elmts_ + sizeof(char* ) < 2^64]), whose chunk
    registry is a null-terminated list [cs] of chunks with a head that is a
    [size_t] address, and for a chunk [start] given by [allocate_chunk] that
    is not null, ends within the address space and is disjoint from the
    chunks of [cs]: [grow] returns, the registry is [start] followed by
    [cs], [check] afterwards accepts a pointer exactly if it lies in the
    block range of the new chunk or was accepted before, and every block of
    the new chunk is accepted. *)
Theorem grow_extends_registry heap h st start st1 cs :
  allocate_chunk heap h st = Ok (start, st1) ->
  refcount_ h <> 0 -> nof_allocs_ h <> 0 ->
  config_ok h -> chunk_fits h start ->
  Forall (fun c => start + elsize_ h * nof_elmts_ h + ptr_size <= c \/
                   c + elsize_ h * nof_elmts_ h + ptr_size <= start) cs ->
  registry (mem st) (blocks_bytes h) (chunk_head_ h) cs ->
  is_size (chunk_head_ h) ->
  exists h' st',
    grow heap h st = Ok (h', st') /\
    registry (mem st') (blocks_bytes h') (chunk_head_ h') (start :: cs) /\
    (forall fuel p b,
       (length cs <= fuel)%nat ->
       check fuel h st p = Ok b ->
       check (S fuel) h' st' p = Ok (in_block_range h p start || b)) /\
    (forall i, 0 <= i < nof_elmts_ h ->
       check 0 h' st' (start + i * elsize_ h) = Ok true).
Proof. exact (grow_registry heap h st start st1 cs). Qed.

Lemma grow_extends_registry_witness :
  exists h' st',
    grow (Some 4096) (fst four_ctor) (snd four_ctor) = Ok (h', st') /\
    registry (mem st') (blocks_bytes h') (chunk_head_ h') [fst four_chunk] /\
    (forall fuel p b,
       (length (@nil Z) <= fuel)%nat ->
       check fuel (fst four_ctor) (snd four_ctor) p = Ok b ->
       check (S fuel) h' st' p
       = Ok (in_block_range (fst four_ctor) p (fst four_chunk) || b)) /\
    (forall i, 0 <= i < nof_elmts_ (fst four_ctor) ->
       check 0 h' st' (fst four_chunk + i * elsize_ (fst four_ctor)) = Ok true).
Proof.
  apply (grow_extends_registry (Some 4096) (fst four_ctor) (snd four_ctor)
                               (fst four_chunk) (snd four_chunk) []).
  - refine (returned_Ok2 (0, st_init)
              (allocate_chunk (Some 4096) (fst four_ctor) (snd four_ctor)) _).
    vm_compute. reflexivity.
  - vm_compute. discriminate.
  - vm_compute. discriminate.
  - vm_compute. repeat split; discriminate || reflexivity.
  - vm_compute. split; [reflexivity|discriminate].
  - constructor.
  - vm_compute. reflexivity.
  - vm_compute. split; [discriminate|reflexivity].
Defined.

(** ** [deallocate(p, 1)]: what is accepted and what is stopped *)

Lemma chunks_apart_In bb cs c c' :
  chunks_apart bb cs -> In c cs -> In c' cs -> c <> c' ->
  c + bb + ptr_size <= c' \/ c' + bb + ptr_size <= c.
Proof.
  induction cs as [|x cs IH]; intros A Hc Hc' Hne; [contradiction|].
  destruct A as [A1 A2]. rewrite List.Forall_forall in A1.
  destruct Hc as [->|Hc], Hc' as [->|Hc'].
  - contradiction.
  - now apply A1.
  - specialize (A1 c Hc). tauto.
  - now apply IH.
Qed.

Lemma check_loop_agree h m m' q fuel : forall cs head,
  registry m (blocks_bytes h) head cs ->
  (forall c x, In c cs ->
     c + blocks_bytes h <= x < c + blocks_bytes h + ptr_size -> m' x = m x) ->
  check_loop fuel h m' head q = check_loop fuel h m head q.
Proof.
  induction fuel as [|fuel IH]; intros cs head R Fr.
  - destruct cs as [|c cs]; cbn in R.
    + subst head. reflexivity.
    + destruct R as (-> & Hc & _). reflexivity.
  - destruct cs as [|c cs]; cbn [registry] in R.
    + subst head. reflexivity.
    + destruct R as (-> & Hc & R). cbn [check_loop].
      destruct (c =? 0); [reflexivity|].
      destruct ((c <=? q) && _); [reflexivity|].
      rewrite (load_agree m m') by (intros x Hx; apply (Fr c); [now left|exact Hx]).
      apply (IH cs); [exact R|].
      intros c' x Hin Hx. apply (Fr c'); [now right|exact Hx].
Qed.

(** X9: a pointer that lies in the block range of no chunk of the registry
    is refused: [deallocate(p, 1)] stops on [assert( check(p) )] before
    anything is written. *)
Theorem deallocate_foreign_pointer fuel h p st cs :
  registry (mem st) (blocks_bytes h) (chunk_head_ h) cs ->
  (length cs <= fuel)%nat ->
  (forall c, In c cs ->
     p < c \/ c + wrap_size (wrap_uint (nof_elmts_ h - 1) * elsize_ h) < p) ->
  deallocate fuel h p 1 st = Stopped.
Proof.
  intros R F Hout. unfold deallocate. cbn [Z.eqb Pos.eqb]. unfold check.
  rewrite (check_loop_registry fuel h (mem st) (chunk_head_ h) cs p R F).
  assert (X : existsb (in_block_range h p) cs = false).
  { destruct (existsb (in_block_range h p) cs) eqn:X; [|reflexivity].
    apply existsb_exists in X as (c & Hin & Hr).
    unfold in_block_range in Hr. apply andb_true_iff in Hr as [H1 H2].
    apply Z.leb_le in H1, H2. destruct (Hout c Hin); lia. }
  rewrite X. reflexivity.
Qed.

Lemma deallocate_foreign_pointer_witness :
  deallocate 1 (snd (fst four_first)) 5000 1 (snd four_first) = Stopped.
Proof.
  apply (deallocate_foreign_pointer 1 (snd (fst four_first)) 5000 (snd four_first)
                                    [4096]).
  - vm_compute. repeat split. discriminate.
  - cbn. lia.
  - intros c [<-|[]]. right. vm_compute. reflexivity.
Defined.

(** X10: with no block outstanding ([nof_allocs()] is 0),
    [deallocate(p, 1)] never returns, whatever [p] is: either [check]
    refuses the pointer, or the counter would become negative and
    [assert( *nof_allocs_ >= 0 )] stops the call. *)
Theorem deallocate_nothing_outstanding fuel h p st cs :
  registry (mem st) (blocks_bytes h) (chunk_head_ h) cs ->
  (length cs <= fuel)%nat ->
  nof_allocs_ h <> 0 ->
  nof_allocs h st = Ok 0 ->
  deallocate fuel h p 1 st = Stopped.
Proof.
  intros R F Hna N. unfold deallocate. cbn [Z.eqb Pos.eqb]. unfold check.
  rewrite (check_loop_registry fuel h (mem st) (chunk_head_ h) cs p R F).
  cbn [mbind result_bind].
  destruct (existsb (in_block_range h p) cs); [|reflexivity].
  cbn [assert mbind result_bind set_pool_head nof_allocs_].
  unfold nof_allocs in N. destruct (Z.eqb_spec (nof_allocs_ h) 0); [contradiction|].
  apply int_read_Ok in N as [_ N].
  rewrite (int_incr_live _ (nof_allocs_ h) (-1) 0) by assumption.
  cbn [mbind result_bind].
  rewrite (int_read_live _ (nof_allocs_ h) (wrap_int (0 + -1)))
    by (try assumption; apply lookup_insert_eq).
  reflexivity.
Qed.

Lemma deallocate_nothing_outstanding_witness :
  deallocate 1 (fst four_back) 4096 1 (snd four_back) = Stopped.
Proof.
  apply (deallocate_nothing_outstanding 1 (fst four_back) 4096 (snd four_back) [4096]).
  - vm_compute. repeat split. discriminate.
  - cbn. lia.
  - vm_compute. discriminate.
  - vm_compute. reflexivity.
Defined.

Lemma check_loop_set_pool_head h p m q fuel : forall ptr,
  check_loop fuel (set_pool_head h p) m ptr q = check_loop fuel h m ptr q.
Proof.
  induction fuel as [|fuel IH]; intros ptr; cbn [check_loop]; unfold blocks_bytes;
    cbn [nof_elmts_ elsize_ set_pool_head].
  - reflexivity.
  - destruct (ptr =? 0); [reflexivity|].
    destruct ((ptr <=? q) && _); [reflexivity|]. apply IH.
Qed.

Lemma deallocate_in_range fuel h p st cs v :
  config_ok h ->
  registry (mem st) (blocks_bytes h) (chunk_head_ h) cs ->
  chunks_apart (elsize_ h * nof_elmts_ h) cs ->
  (length cs <= fuel)%nat ->
  (exists c, In c cs /\ c <= p <= c + (nof_elmts_ h - 1) * elsize_ h) ->
  nof_allocs_ h <> 0 ->
  ints st !! nof_allocs_ h = Some v -> 1 <= v <= INT_MAX ->
  is_size (pool_head_ h) ->
  exists h' st',
    deallocate fuel h p 1 st = Ok (h', st') /\
    pool_head_ h' = p /\ load_ptr (mem st') p = pool_head_ h /\
    chunk_head_ h' = chunk_head_ h /\
    nof_elmts_ h' = nof_elmts_ h /\ elsize_ h' = elsize_ h /\
    refcount_ h' = refcount_ h /\ nof_allocs_ h' = nof_allocs_ h /\
    ints st' = <[nof_allocs_ h := v - 1]> (ints st) /\
    nof_allocs h' st' = Ok (v - 1) /\
    registry (mem st') (blocks_bytes h') (chunk_head_ h') cs /\
    (forall fuel' q, check fuel' h' st' q = check fuel' h st q) /\
    global_chunk_head_ st' = global_chunk_head_ st /\ dump st' = dump st /\
    heap_log st' = heap_log st.
Proof.
  intros (Hn & Hmax & He & Hfit) R A F (c & Hc & Hp) Hna Hl Hv Hsz.
  pose proof He as He'. unfold ptr_size in He', Hfit.
  assert (BB : blocks_bytes h = elsize_ h * nof_elmts_ h).
  { unfold blocks_bytes. apply wrap_size_small. nia. }
  set (m1 := store_ptr (mem st) p (pool_head_ h)).
  set (h1 := set_pool_head h p).
  set (st2 := set_ints (set_mem st m1) (<[nof_allocs_ h := wrap_int (v + -1)]> (ints st))).
  assert (Fr : forall c' x, In c' cs ->
             c' + blocks_bytes h <= x < c' + blocks_bytes h + ptr_size -> m1 x = mem st x).
  { intros c' x Hin Hx. subst m1. apply store_ptr_out. rewrite BB in Hx.
    unfold ptr_size in *. destruct (Z.eq_dec c c') as [<-|N]; [nia|].
    pose proof (chunks_apart_In _ _ _ _ A Hc Hin N) as D. unfold ptr_size in D. nia. }
  assert (X : existsb (in_block_range h p) cs = true).
  { apply existsb_exists. exists c. split; [exact Hc|].
    apply in_block_range_spec; lia || nia. }
  exists h1, st2. split.
  { unfold deallocate. cbn [Z.eqb Pos.eqb]. unfold check.
    rewrite (check_loop_registry fuel h (mem st) (chunk_head_ h) cs p R F), X.
    cbn [mbind result_bind assert]. fold m1. fold h1.
    change (nof_allocs_ h1) with (nof_allocs_ h).
    rewrite (int_incr_live (set_mem st m1) (nof_allocs_ h) (-1) v) by assumption.
    cbn [mbind result_bind]. cbn [ints set_mem]. fold st2.
    rewrite (int_read_live st2 (nof_allocs_ h) (wrap_int (v + -1)))
      by (try assumption; apply lookup_insert_eq).
    cbn [mbind result_bind].
    rewrite wrap_int_small by (unfold INT_MIN, INT_MAX in *; lia).
    unfold assert. destruct (Z.leb_spec 0 (v + -1)); [reflexivity|lia]. }
  subst h1 st2.
  cbn [pool_head_ chunk_head_ nof_elmts_ elsize_ refcount_ nof_allocs_ set_pool_head
       mem set_mem set_ints ints global_chunk_head_ heap_log dump
       nof_allocated_chunks_ nof_free_chunks_].
  rewrite wrap_int_small by (unfold INT_MIN, INT_MAX in *; lia).
  split; [reflexivity|]. split.
  { subst m1. rewrite load_store_same. now apply wrap_size_small. }
  repeat (split; [reflexivity|]).
  split.
  { unfold nof_allocs. cbn [nof_allocs_ set_pool_head].
    destruct (Z.eqb_spec (nof_allocs_ h) 0); [contradiction|].
    apply int_read_live; [assumption|]. cbn [ints set_ints].
    apply lookup_insert_eq. }
  split.
  { change (blocks_bytes (mkHandle _ _ _ _ _ _ _)) with (blocks_bytes h).
    eapply registry_frame; [|exact R]. exact Fr. }
  split; [|auto].
  intros fuel' q. unfold check.
  cbn [mem set_mem set_ints chunk_head_ set_pool_head].
  rewrite check_loop_set_pool_head.
  apply (check_loop_agree h (mem st) m1 q fuel' cs); assumption.
Qed.

(** X11: for a handle with the configuration of X7 (at least two blocks per
    chunk, [nof_elmts_ + 6 < 2^32], blocks of at least pointer size,
    [elsize_*nof_elmts_ + sizeof(char* ) < 2^64]), whose chunk registry is a
    null-terminated list of pairwise disjoint chunks, whose free-list head
    is a [size_t] address and whose [nof_allocs_] counter is live with a
    value from 1 to [INT_MAX]: for a pointer [p] in the block range of a
    chunk of the registry, [deallocate(p, 1)] returns, [p] becomes the head
    of the free list and its first word points to the former head,
    [nof_allocs()] goes down by one; the chunk registry is not damaged
    ([check] answers as before for every pointer), and the Global Chunk
    Cache, its counts and the heap are untouched. *)
Theorem deallocate_accepted fuel h p st cs v :
  config_ok h ->
  registry (mem st) (blocks_bytes h) (chunk_head_ h) cs ->
  chunks_apart (elsize_ h * nof_elmts_ h) cs ->
  (length cs <= fuel)%nat ->
  (exists c, In c cs /\ c <= p <= c + (nof_elmts_ h - 1) * elsize_ h) ->
  nof_allocs_ h <> 0 ->
  ints st !! nof_allocs_ h = Some v -> 1 <= v <= INT_MAX ->
  is_size (pool_head_ h) ->
  exists h' st',
    deallocate fuel h p 1 st = Ok (h', st') /\
    pool_head_ h' = p /\ load_ptr (mem st') p = pool_head_ h /\
    chunk_head_ h' = chunk_head_ h /\
    nof_elmts_ h' = nof_elmts_ h /\ elsize_ h' = elsize_ h /\
    refcount_ h' = refcount_ h /\ nof_allocs_ h' = nof_allocs_ h /\
    ints st' = <[nof_allocs_ h := v - 1]> (ints st) /\
    nof_allocs h' st' = Ok (v - 1) /\
    registry (mem st') (blocks_bytes h') (chunk_head_ h') cs /\
    (forall fuel' q, check fuel' h' st' q = check fuel' h st q) /\
    global_chunk_head_ st' = global_chunk_head_ st /\ dump st' = dump st /\
    heap_log st' = heap_log st.
Proof. exact (deallocate_in_range fuel h p st cs v). Qed.

Lemma deallocate_accepted_witness :
  exists h' st',
    deallocate 1 (snd (fst four_first)) 4096 1 (snd four_first) = Ok (h', st') /\
    pool_head_ h' = 4096 /\
    load_ptr (mem st') 4096 = pool_head_ (snd (fst four_first)) /\
    chunk_head_ h' = chunk_head_ (snd (fst four_first)) /\
    nof_elmts_ h' = nof_elmts_ (snd (fst four_first)) /\
    elsize_ h' = elsize_ (snd (fst four_first)) /\
    refcount_ h' = refcount_ (snd (fst four_first)) /\
    nof_allocs_ h' = nof_allocs_ (snd (fst four_first)) /\
    ints st' = <[nof_allocs_ (snd (fst four_first)) := 1 - 1]> (ints (snd four_first)) /\
    nof_allocs h' st' = Ok (1 - 1) /\
    registry (mem st') (blocks_bytes h') (chunk_head_ h') [4096] /\
    (forall fuel' q, check fuel' h' st' q
                     = check fuel' (snd (fst four_first)) (snd four_first) q) /\
    global_chunk_head_ st' = global_chunk_head_ (snd four_first) /\
    dump st' = dump (snd four_first) /\
    heap_log st' = heap_log (snd four_first).
Proof.
  apply (deallocate_accepted 1 (snd (fst four_first)) 4096 (snd four_first) [4096] 1).
  - vm_compute. repeat split; discriminate || reflexivity.
  - vm_compute. repeat split. discriminate.
  - vm_compute. auto.
  - cbn. lia.
  - exists 4096. split; [now left|]. vm_compute. split; discriminate.
  - vm_compute. discriminate.
  - vm_compute. reflexivity.
  - unfold INT_MAX. lia.
  - vm_compute. split; [discriminate|reflexivity].
Defined.

(** ** Runs of [allocate(1)] followed by [deallocate(p, 1)] *)

Lemma grow_inv heap h st h' st' :
  grow heap h st = Ok (h', st') ->
  exists start st1,
    allocate_chunk heap h st = Ok (start, st1) /\
    nof_elmts_ h' = nof_elmts_ h /\ elsize_ h' = elsize_ h /\
    refcount_ h' = refcount_ h /\ nof_allocs_ h' = nof_allocs_ h /\
    ints st' = ints st1 /\ dump st' = dump st1 /\
    global_chunk_head_ st' = global_chunk_head_ st1 /\
    heap_log st' = heap_log st1.
Proof.
  unfold grow. intros H.
  destruct ((refcount_ h =? 0) || (nof_allocs_ h =? 0)); [discriminate|].
  bind_case H. destruct x as [start st1].
  destruct (set_links _ _ _ _); [|discriminate]. inversion H; subst.
  exists start, st1. cbn. auto 10.
Qed.

Lemma allocate_grow_Ok sizeof_T heap h st p h' st' :
  allocate sizeof_T heap h 1 st = Ok (p, h', st') ->
  pool_head_ h = 0 ->
  exists h1 st1,
    grow heap h st = Ok (h1, st1) /\ p = pool_head_ h1 /\
    chunk_head_ h' = chunk_head_ h1 /\
    nof_elmts_ h' = nof_elmts_ h1 /\ elsize_ h' = elsize_ h1 /\
    mem st' = mem st1 /\
    (forall q, q <> nof_allocs_ h1 -> ints st' !! q = ints st1 !! q) /\
    dump st' = dump st1 /\ global_chunk_head_ st' = global_chunk_head_ st1 /\
    heap_log st' = heap_log st1.
Proof.
  intros H P. unfold allocate in H. cbn [Z.eqb Pos.eqb] in H.
  rewrite P in H. cbn [Z.eqb] in H.
  bind_as H [h1 st1] G.
  bind_as H st2 E1. cbn [set_pool_head nof_allocs_] in E1.
  apply int_incr_Ok in E1 as (v & Hna & Hl & ->).
  bind_as H v2 E2. bind_as H u E3. inversion H; subst. clear H.
  exists h1, st1. split; [reflexivity|].
  cbn [pool_head_ chunk_head_ nof_elmts_ elsize_ set_pool_head mem heap_log
       global_chunk_head_ set_ints ints dump nof_allocated_chunks_ nof_free_chunks_].
  repeat (split; [reflexivity|]).
  split; [|auto].
  intros q Q. now rewrite lookup_insert_ne by congruence.
Qed.

Lemma chunk_pool_is_size h m c j :
  config_ok h -> chunk_fits h c -> chunk_pool h m c j -> is_size (pool_head_ h).
Proof.
  intros (Hn & Hmax & He & Hfit) (Hc & Hcf) (Hj & P & _).
  unfold ptr_size in *. unfold is_size. rewrite P.
  destruct (Z.ltb_spec j (nof_elmts_ h)); [nia|unfold size_mod; lia].
Qed.

(** One call of [allocate(1)] in a run, the chunk registry being followed
    as well: the address returned lies in a chunk of the registry, and the
    count of created chunks goes up exactly when the pool grows. *)
Lemma allocate_checked_step sizeof_T h st cs j ret s v :
  config_ok h -> refcount_ h <> 0 -> nof_allocs_ h <> 0 ->
  ints st !! nof_allocs_ h = Some v -> 0 <= v < INT_MAX ->
  global_chunk_head_ st = 0 ->
  pool_inv h (mem st) cs j ret ->
  chunk_fits h s ->
  Forall (fun c => s + elsize_ h * nof_elmts_ h + ptr_size <= c \/
                   c + elsize_ h * nof_elmts_ h + ptr_size <= s) cs ->
  registry (mem st) (blocks_bytes h) (chunk_head_ h) cs ->
  is_size (chunk_head_ h) ->
  exists p h' st' cs' j',
    allocate sizeof_T (Some s) h 1 st = Ok (p, h', st') /\
    ~ In p ret /\
    nof_elmts_ h' = nof_elmts_ h /\ elsize_ h' = elsize_ h /\
    refcount_ h' = refcount_ h /\ nof_allocs_ h' = nof_allocs_ h /\
    ints st' !! nof_allocs_ h = Some (v + 1) /\
    (forall q, q <> nof_allocs_ h -> ints st' !! q = ints st !! q) /\
    global_chunk_head_ st' = 0 /\
    nof_free_chunks_ st' = nof_free_chunks_ st /\
    pool_inv h' (mem st') cs' j' (p :: ret) /\
    ((cs' = cs /\ nof_allocated_chunks_ st' = nof_allocated_chunks_ st) \/
     (cs' = s :: cs /\
      nof_allocated_chunks_ st' = wrap_int (nof_allocated_chunks_ st + 1))) /\
    registry (mem st') (blocks_bytes h') (chunk_head_ h') cs' /\
    is_size (chunk_head_ h') /\ is_size (pool_head_ h') /\
    (exists c i, In c cs' /\ 0 <= i < nof_elmts_ h /\ p = c + i * elsize_ h).
Proof.
  intros Cfg Hrc Hna Hl Hv G (Fits & Apart & Pool & Ret) Hs Fresh R Hsz.
  pose proof Cfg as (Hn & Hmax & He & Hfit). unfold ptr_size in He, Hfit.
  assert (Grow : pool_head_ h = 0 ->
            (forall r, In r ret ->
               exists c', In c' cs /\ c' <= r < c' + nof_elmts_ h * elsize_ h) ->
            exists p h' st' cs' j',
              allocate sizeof_T (Some s) h 1 st = Ok (p, h', st') /\
              ~ In p ret /\
              nof_elmts_ h' = nof_elmts_ h /\ elsize_ h' = elsize_ h /\
              refcount_ h' = refcount_ h /\ nof_allocs_ h' = nof_allocs_ h /\
              ints st' !! nof_allocs_ h = Some (v + 1) /\
              (forall q, q <> nof_allocs_ h -> ints st' !! q = ints st !! q) /\
              global_chunk_head_ st' = 0 /\
              nof_free_chunks_ st' = nof_free_chunks_ st /\
              pool_inv h' (mem st') cs' j' (p :: ret) /\
              ((cs' = cs /\ nof_allocated_chunks_ st' = nof_allocated_chunks_ st) \/
               (cs' = s :: cs /\
                nof_allocated_chunks_ st' = wrap_int (nof_allocated_chunks_ st + 1))) /\
              registry (mem st') (blocks_bytes h') (chunk_head_ h') cs' /\
              is_size (chunk_head_ h') /\ is_size (pool_head_ h') /\
              (exists c i, In c cs' /\ 0 <= i < nof_elmts_ h /\ p = c + i * elsize_ h)).
  { intros P Old.
    destruct (allocate_grows sizeof_T h st s v Cfg Hs Hrc Hna Hl Hv G P)
      as (h' & st' & A & F1 & F2 & F3 & F4 & I & G' & CP).
    pose proof (allocate_chunk_fresh s h st G) as AC.
    destruct (grow_registry _ _ _ _ _ cs AC Hrc Hna Cfg Hs Fresh R Hsz)
      as (h1 & st1 & Gr & R1 & _ & _).
    destruct (allocate_grow_Ok _ _ _ _ _ _ _ A P)
      as (h1' & st1' & Gr' & _ & C' & N' & E' & M' & I' & D' & _ & _).
    rewrite Gr in Gr'. inversion Gr'; subst h1' st1'. clear Gr'.
    destruct (grow_inv _ _ _ _ _ Gr)
      as (s0 & st0 & AC0 & _ & _ & _ & N1 & I0 & D0 & _ & _).
    rewrite AC in AC0. inversion AC0; subst s0 st0. clear AC0.
    cbn [ints set_mem log_request set_nof_allocated_chunks] in I0.
    rewrite D0 in D'. unfold dump in D'.
    cbn [nof_allocated_chunks_ nof_free_chunks_ set_mem log_request
         set_nof_allocated_chunks] in D'.
    injection D' as DA DF.
    assert (CF : Forall (chunk_fits h') (s :: cs)).
    { unfold chunk_fits. rewrite F1, F2. constructor; [exact Hs|exact Fits]. }
    exists s, h', st', (s :: cs), 1. split; [exact A|].
    split.
    { intros Hin. destruct (Old s Hin) as (c' & Hc' & Rg).
      rewrite List.Forall_forall in Fresh. specialize (Fresh c' Hc').
      unfold ptr_size in Fresh. nia. }
    repeat (split; [assumption|]).
    split.
    { intros q Q. rewrite I' by (rewrite N1; exact Q). now rewrite I0. }
    split; [exact G'|]. split; [exact DF|].
    split.
    { unfold pool_inv. split; [exact CF|]. rewrite F1, F2.
      split; [cbn [chunks_apart]; split; assumption|].
      split; [exact CP|].
      intros r [<-|Hr]; cbn [given_out]; rewrite ?F1, ?F2.
      - left. lia.
      - right. now apply Old. }
    split; [right; split; [reflexivity|exact DA]|].
    assert (BB' : blocks_bytes h' = blocks_bytes h1).
    { unfold blocks_bytes. now rewrite N', E'. }
    split; [rewrite BB', C', M'; exact R1|].
    destruct R1 as (C1 & _ & _).
    destruct Hs as (Hs0 & Hsf). unfold ptr_size in Hsf.
    split; [rewrite C', C1; unfold is_size; nia|].
    split.
    { apply (chunk_pool_is_size h' (mem st') s 1); [|now inversion CF|exact CP].
      unfold config_ok. now rewrite F1, F2. }
    exists s, 0. split; [now left|]. lia. }
  destruct cs as [|c older].
  - apply Grow; [exact Pool|]. intros r Hr. destruct (Ret r Hr).
  - pose proof Pool as (Hj & P & L1 & L2).
    pose proof Fits as Fits0.
    apply Forall_cons in Fits as [Hc Fits']. pose proof Hc as (Hc0 & Hcf).
    unfold ptr_size in Hcf.
    destruct (Z.ltb_spec j (nof_elmts_ h)) as [Q|Q].
    + destruct (allocate_pops sizeof_T (Some s) h st c j v Cfg Hc Hna Hl Hv Pool Q)
        as (h' & st' & A & F1 & F2 & F3 & F4 & I & G' & CP).
      assert (P0 : pool_head_ h <> 0) by (rewrite P; nia).
      destruct (allocate_pop_Ok _ _ _ _ _ _ _ A P0)
        as (_ & _ & C' & _ & _ & M' & _ & _ & D' & _ & I').
      unfold dump in D'. injection D' as DA DF.
      assert (CF : Forall (chunk_fits h') (c :: older)).
      { unfold chunk_fits. rewrite F1, F2. exact Fits0. }
      exists (c + j * elsize_ h), h', st', (c :: older), (j + 1).
      split; [exact A|]. split.
      { intros Hin. destruct (Ret _ Hin) as [Rg|(c' & Hc' & Rg)]; [lia|].
        destruct Apart as [A1 _]. rewrite List.Forall_forall in A1.
        specialize (A1 c' Hc'). unfold ptr_size in A1. nia. }
      repeat (split; [assumption|]).
      split; [congruence|]. split; [exact DF|].
      split.
      { unfold pool_inv. split; [exact CF|]. rewrite F1, F2.
        split; [exact Apart|]. split; [exact CP|].
        intros r [<-|Hr]; cbn [given_out]; rewrite ?F1, ?F2.
        * left. nia.
        * destruct (Ret r Hr) as [Rg|Rg]; [left; nia|now right]. }
      split; [left; split; [reflexivity|exact DA]|].
      assert (BB' : blocks_bytes h' = blocks_bytes h).
      { unfold blocks_bytes. now rewrite F1, F2. }
      split; [rewrite BB', C', M'; exact R|].
      split; [rewrite C'; exact Hsz|].
      split.
      { apply (chunk_pool_is_size h' (mem st') c (j + 1)); [|now inversion CF|exact CP].
        unfold config_ok. now rewrite F1, F2. }
      exists c, j. split; [now left|]. lia.
    + apply Grow; [exact P|].
      intros r Hr. destruct (Ret r Hr) as [Rg|(c' & Hc' & Rg)].
      * exists c. split; [now left|]. nia.
      * exists c'. split; [now right|exact Rg].
Qed.

(** A run of calls of [allocate(1)], as in [allocate_each_run], the chunk
    registry being followed: every address returned lies in a chunk of the
    final registry [cs'], which extends the one at the start by chunks of
    [ss]. *)
Lemma allocate_each_checked sizeof_T ss : forall h st cs j ret v,
  config_ok h -> refcount_ h <> 0 -> nof_allocs_ h <> 0 ->
  ints st !! nof_allocs_ h = Some v ->
  0 <= v -> v + Z.of_nat (length ss) <= INT_MAX ->
  global_chunk_head_ st = 0 ->
  pool_inv h (mem st) cs j ret ->
  Forall (chunk_fits h) ss ->
  chunks_apart (elsize_ h * nof_elmts_ h) ss ->
  Forall (fun s =>
            Forall (fun c => s + elsize_ h * nof_elmts_ h + ptr_size <= c \/
                             c + elsize_ h * nof_elmts_ h + ptr_size <= s) cs) ss ->
  registry (mem st) (blocks_bytes h) (chunk_head_ h) cs ->
  is_size (chunk_head_ h) -> is_size (pool_head_ h) ->
  exists ps h' st' cs',
    allocate_each sizeof_T (map Some ss) h st = Ok (ps, h', st') /\
    length ps = length ss /\
    nof_elmts_ h' = nof_elmts_ h /\ elsize_ h' = elsize_ h /\
    refcount_ h' = refcount_ h /\ nof_allocs_ h' = nof_allocs_ h /\
    ints st' !! nof_allocs_ h = Some (v + Z.of_nat (length ss)) /\
    (forall q, q <> nof_allocs_ h -> ints st' !! q = ints st !! q) /\
    global_chunk_head_ st' = 0 /\
    nof_free_chunks_ st' = nof_free_chunks_ st /\
    (INT_MIN <= nof_allocated_chunks_ st ->
     nof_allocated_chunks_ st + Z.of_nat (length ss) <= INT_MAX ->
     nof_allocated_chunks_ st'
     = nof_allocated_chunks_ st + Z.of_nat (length cs') - Z.of_nat (length cs)) /\
    (length cs <= length cs' <= length cs + length ss)%nat /\
    (forall c, In c cs -> In c cs') /\
    (forall c, In c cs' -> In c cs \/ In c ss) /\
    Forall (chunk_fits h) cs' /\
    chunks_apart (elsize_ h * nof_elmts_ h) cs' /\
    registry (mem st') (blocks_bytes h') (chunk_head_ h') cs' /\
    is_size (chunk_head_ h') /\ is_size (pool_head_ h') /\
    (forall p, In p ps ->
       exists c i, In c cs' /\ 0 <= i < nof_elmts_ h /\ p = c + i * elsize_ h) /\
    List.NoDup ps /\ (forall p, In p ps -> ~ In p ret).
Proof.
  induction ss as [|s ss IH]; intros h st cs j ret v Cfg Hrc Hna Hl Hv Hmax G Inv Fits
                                     Apart Fresh R Hsz Hpz.
  - exists [], h, st, cs. cbn [map allocate_each length].
    destruct Inv as (F & A & _ & _).
    split; [reflexivity|]. split; [reflexivity|].
    repeat (split; [reflexivity|]).
    split; [rewrite Hl; f_equal; lia|].
    split; [reflexivity|]. split; [exact G|]. split; [reflexivity|].
    split; [lia|]. split; [lia|]. split; [auto|]. split; [auto|].
    split; [exact F|]. split; [exact A|]. split; [exact R|].
    split; [exact Hsz|]. split; [exact Hpz|]. split; [intros p []|].
    split; [constructor|]. intros p [].
  - apply Forall_cons in Fits as [Hs Fits]. destruct Apart as [As Apart].
    apply Forall_cons in Fresh as [Fs Fresh]. cbn [length] in Hmax.
    destruct (allocate_checked_step sizeof_T h st cs j ret s v Cfg Hrc Hna Hl
                                    ltac:(lia) G Inv Hs Fs R Hsz)
      as (p & h' & st' & cs' & j' & A & Hp & F1 & F2 & F3 & F4 & I & Ifr & G' & NF & Inv'
          & Hcs & R' & Hsz' & Hpz' & Rg).
    assert (Fresh' : Forall (fun s0 =>
              Forall (fun c => s0 + elsize_ h' * nof_elmts_ h' + ptr_size <= c \/
                               c + elsize_ h' * nof_elmts_ h' + ptr_size <= s0) cs') ss).
    { rewrite F1, F2. destruct Hcs as [[-> _]|[-> _]]; [exact Fresh|].
      rewrite List.Forall_forall in *. intros s' Hs'.
      apply List.Forall_forall. intros c [<-|Hc].
      * specialize (As s' Hs'). tauto.
      * specialize (Fresh s' Hs'). rewrite List.Forall_forall in Fresh.
        now apply Fresh. }
    destruct (IH h' st' cs' j' (p :: ret) (v + 1)) as
        (ps & h'' & st'' & cs'' & E & Len & N1 & N2 & N3 & N4 & I' & Ifr' & G'' & NF'
         & NA' & Lcs & Mono & Orig & CF & CA & R'' & Hsz'' & Hpz'' & Rg' & ND & New).
    + unfold config_ok. now rewrite F1, F2.
    + congruence.
    + congruence.
    + now rewrite F4.
    + lia.
    + lia.
    + exact G'.
    + exact Inv'.
    + unfold chunk_fits. rewrite F1, F2. exact Fits.
    + rewrite F1, F2. exact Apart.
    + exact Fresh'.
    + exact R'.
    + exact Hsz'.
    + exact Hpz'.
    + assert (Sub : forall c, In c cs -> In c cs').
      { intros c Hc. destruct Hcs as [[-> _]|[-> _]]; [exact Hc|now right]. }
      assert (Lcs' : (length cs <= length cs' <= length cs + 1)%nat).
      { destruct Hcs as [[-> _]|[-> _]]; cbn [length]; lia. }
      exists (p :: ps), h'', st'', cs''. split.
      { cbn [map allocate_each]. rewrite A. cbn [mbind result_bind].
        rewrite E. reflexivity. }
      split; [cbn [length]; lia|].
      split; [congruence|]. split; [congruence|]. split; [congruence|].
      split; [congruence|].
      split; [rewrite F4 in I'; rewrite I'; f_equal; cbn [length]; lia|].
      split.
      { intros q Q. rewrite Ifr' by (rewrite F4; exact Q). now apply Ifr. }
      split; [exact G''|]. split; [congruence|].
      split.
      { intros HA1 HA2. cbn [length] in HA2.
        assert (HA' : nof_allocated_chunks_ st'
                      = nof_allocated_chunks_ st + Z.of_nat (length cs')
                        - Z.of_nat (length cs)).
        { destruct Hcs as [[-> ->]|[-> ->]]; [lia|].
          rewrite wrap_int_small by (unfold INT_MIN, INT_MAX in *; lia).
          cbn [length]. lia. }
        rewrite NA' by lia. lia. }
      split; [cbn [length]; lia|].
      split; [auto|].
      split.
      { intros c Hc. destruct (Orig c Hc) as [Hc'|Hc']; [|right; now right].
        destruct Hcs as [[-> _]|[-> _]]; [now left|].
        destruct Hc' as [<-|Hc']; [right; now left|now left]. }
      split; [unfold chunk_fits in *; rewrite F1, F2 in CF; exact CF|].
      split; [rewrite F1, F2 in CA; exact CA|].
      split; [exact R''|]. split; [exact Hsz''|]. split; [exact Hpz''|].
      split.
      { intros q [<-|Hq].
        * destruct Rg as (c & i & Hc & Hi & Hr). exists c, i.
          split; [now apply Mono|]. split; assumption.
        * destruct (Rg' q Hq) as (c & i & Hc & Hi & Hr). exists c, i.
          rewrite F1 in Hi. rewrite F2 in Hr. split; [exact Hc|]. split; assumption. }
      split.
      { constructor; [|exact ND]. intros Hin. apply (New p Hin). now left. }
      intros q [<-|Hq]; [exact Hp|]. intros Hr. apply (New q Hq). now right.
Qed.

(** A run of [deallocate(p, 1)] on addresses that lie in chunks of the
    registry, at least as many blocks being outstanding: all calls return,
    the chunk registry is kept, and the Global Chunk Cache is not
    touched. *)
Lemma deallocate_each_run fuel cs ps : forall h st v,
  config_ok h ->
  registry (mem st) (blocks_bytes h) (chunk_head_ h) cs ->
  chunks_apart (elsize_ h * nof_elmts_ h) cs ->
  Forall (chunk_fits h) cs ->
  (length cs <= fuel)%nat ->
  (forall p, In p ps ->
     exists c, In c cs /\ c <= p <= c + (nof_elmts_ h - 1) * elsize_ h) ->
  nof_allocs_ h <> 0 ->
  ints st !! nof_allocs_ h = Some v ->
  Z.of_nat (length ps) <= v <= INT_MAX ->
  is_size (pool_head_ h) ->
  exists h' st',
    deallocate_each fuel ps h st = Ok (h', st') /\
    pool_head_ h' = List.last ps (pool_head_ h) /\
    chunk_head_ h' = chunk_head_ h /\
    nof_elmts_ h' = nof_elmts_ h /\ elsize_ h' = elsize_ h /\
    refcount_ h' = refcount_ h /\ nof_allocs_ h' = nof_allocs_ h /\
    ints st' !! nof_allocs_ h = Some (v - Z.of_nat (length ps)) /\
    (forall q, q <> nof_allocs_ h -> ints st' !! q = ints st !! q) /\
    registry (mem st') (blocks_bytes h') (chunk_head_ h') cs /\
    (forall fuel' q, check fuel' h' st' q = check fuel' h st q) /\
    global_chunk_head_ st' = global_chunk_head_ st /\ dump st' = dump st /\
    heap_log st' = heap_log st.
Proof.
  induction ps as [|p ps IH]; intros h st v Cfg R A CF F Rg Hna Hl Hv Hpz.
  - exists h, st. cbn [deallocate_each length List.last].
    repeat (split; [reflexivity|]).
    split; [rewrite Hl; f_equal; lia|].
    split; [reflexivity|]. split; [exact R|]. repeat split; reflexivity.
  - cbn [length] in Hv.
    destruct (deallocate_in_range fuel h p st cs v Cfg R A F
                (Rg p ltac:(now left)) Hna Hl ltac:(lia) Hpz)
      as (h1 & st1 & D & P1 & _ & C1 & N1 & E1 & Rc1 & Na1 & I1 & _ & R1 & Ch1 & G1 & D1
          & L1).
    assert (Hp : is_size p).
    { destruct (Rg p ltac:(now left)) as (c & Hc & Hr).
      rewrite List.Forall_forall in CF. destruct (CF c Hc) as (Hc0 & Hcf).
      destruct Cfg as (Hn & _ & He & _). unfold ptr_size in *. unfold is_size. nia. }
    destruct (IH h1 st1 (v - 1)) as
        (h2 & st2 & E & P2 & C2 & N2 & E2 & Rc2 & Na2 & I2 & Ifr2 & R2 & Ch2 & G2 & D2
         & L2).
    + unfold config_ok. now rewrite N1, E1.
    + exact R1.
    + now rewrite N1, E1.
    + unfold chunk_fits. now rewrite N1, E1.
    + exact F.
    + intros q Hq. rewrite N1, E1. apply Rg. now right.
    + congruence.
    + rewrite Na1, I1. apply lookup_insert_eq.
    + lia.
    + now rewrite P1.
    + exists h2, st2. split.
      { cbn [deallocate_each]. rewrite D. cbn [mbind result_bind]. exact E. }
      split; [rewrite P2, P1; symmetry; apply last_cons_default|].
      split; [congruence|]. split; [congruence|]. split; [congruence|].
      split; [congruence|]. split; [congruence|].
      split; [rewrite Na1 in I2; rewrite I2; f_equal; cbn [length]; lia|].
      split.
      { intros q Q. rewrite Ifr2 by (rewrite Na1; exact Q).
        rewrite I1. now apply lookup_insert_ne. }
      split; [exact R2|].
      split; [intros fuel' q; now rewrite Ch2, Ch1|].
      split; [congruence|]. split; congruence.
Qed.

(** X12: from a handle just built by the default constructor (blocks that
    hold a pointer, at least two per chunk, the Global Chunk Cache empty,
    the heap giving pairwise disjoint chunks), any number of calls of
    [allocate(1)] return addresses that [check] accepts, and giving all of
    them back with [deallocate(p, 1)], in the order they were given out,
    returns as well: [nof_allocs()] is 0 again, the block given back last is
    the head of the free list, the chunk registry is as it was ([check]
    answers the same for every pointer), and no chunk went to the Global
    Chunk Cache or back to the heap. *)
Theorem allocated_blocks_given_back
    sizeof_T nof_elements alignment r c st h st0 ss fuel :
  fb_alloc_ctor sizeof_T nof_elements alignment (Some r) (Some c) st = Ok (h, st0) ->
  config_ok h ->
  global_chunk_head_ st = 0 ->
  Forall (chunk_fits h) ss ->
  chunks_apart (elsize_ h * nof_elmts_ h) ss ->
  Z.of_nat (length ss) <= INT_MAX ->
  (length ss <= fuel)%nat ->
  exists ps h1 st1 h2 st2,
    allocate_each sizeof_T (map Some ss) h st0 = Ok (ps, h1, st1) /\
    length ps = length ss /\
    nof_allocs h1 st1 = Ok (Z.of_nat (length ss)) /\
    (forall p, In p ps -> check fuel h1 st1 p = Ok true) /\
    deallocate_each fuel ps h1 st1 = Ok (h2, st2) /\
    nof_allocs h2 st2 = Ok 0 /\
    pool_head_ h2 = List.last ps (pool_head_ h1) /\
    chunk_head_ h2 = chunk_head_ h1 /\
    (forall fuel' q, check fuel' h2 st2 q = check fuel' h1 st1 q) /\
    dump st2 = dump st1 /\ global_chunk_head_ st2 = 0 /\
    heap_log st2 = heap_log st1.
Proof.
  intros C Cfg G Fits Apart Hmax F.
  apply fb_alloc_ctor_fresh in C as (P & CH & Rr & N & Hr & Hc & I & G0 & _).
  pose proof Cfg as (Hn & Hu & He & Hfit).
  destruct (allocate_each_checked sizeof_T ss h st0 [] 0 [] 0) as
      (ps & h1 & st1 & cs & E & Len & N1 & E1 & Rc1 & Na1 & I1 & _ & G1 & _ & _ & Lcs & _
       & _ & CF & CA & R1 & _ & Hpz & Rg & _ & _); try assumption; try congruence; try lia.
  - unfold pool_inv. repeat split; try constructor; try assumption.
    intros r0 [].
  - apply List.Forall_forall. intros s _. constructor.
  - rewrite CH. unfold is_size, size_mod. lia.
  - rewrite P. unfold is_size, size_mod. lia.
  - cbn [length] in Lcs.
    assert (Cfg1 : config_ok h1) by (unfold config_ok; now rewrite N1, E1).
    assert (Hna1 : nof_allocs_ h1 <> 0) by congruence.
    destruct (deallocate_each_run fuel cs ps h1 st1 (Z.of_nat (length ss))) as
        (h2 & st2 & D & P2 & C2 & N2 & E2 & Rc2 & Na2 & I2 & _ & R2 & Ch2 & G2 & D2 & L2);
      try assumption; try lia.
    + now rewrite N1, E1.
    + unfold chunk_fits. now rewrite N1, E1.
    + intros p Hp. destruct (Rg p Hp) as (c0 & i & Hc0 & Hi & ->).
      exists c0. split; [exact Hc0|]. rewrite N1, E1. unfold ptr_size in *. nia.
    + rewrite Na1, I1. f_equal.
    + exists ps, h1, st1, h2, st2.
      split; [exact E|]. split; [exact Len|]. split.
      { unfold nof_allocs. destruct (Z.eqb_spec (nof_allocs_ h1) 0); [contradiction|].
        apply int_read_live; [assumption|]. rewrite Na1, I1. f_equal. }
      split.
      { intros p Hp. unfold check.
        rewrite (check_loop_registry fuel h1 (mem st1) (chunk_head_ h1) cs p R1
                                     ltac:(lia)).
        f_equal. apply existsb_exists. destruct (Rg p Hp) as (c0 & i & Hc0 & Hi & ->).
        exists c0. split; [exact Hc0|].
        apply in_block_range_spec; rewrite ?N1, ?E1; unfold ptr_size in *; lia || nia. }
      split; [exact D|]. split.
      { unfold nof_allocs. destruct (Z.eqb_spec (nof_allocs_ h2) 0); [congruence|].
        apply int_read_live; [assumption|]. rewrite Na2, I2. f_equal. lia. }
      split; [exact P2|]. split; [exact C2|]. split; [exact Ch2|].
      split; [exact D2|]. split; [congruence|exact L2].
Qed.

Lemma allocated_blocks_given_back_witness :
  exists ps h1 st1 h2 st2,
    allocate_each 8 (map Some [4096; 8192; 12288; 16384; 20480])
                  (fst four_ctor) (snd four_ctor) = Ok (ps, h1, st1) /\
    length ps = length [4096; 8192; 12288; 16384; 20480] /\
    nof_allocs h1 st1 = Ok (Z.of_nat (length [4096; 8192; 12288; 16384; 20480])) /\
    (forall p, In p ps -> check 5 h1 st1 p = Ok true) /\
    deallocate_each 5 ps h1 st1 = Ok (h2, st2) /\
    nof_allocs h2 st2 = Ok 0 /\
    pool_head_ h2 = List.last ps (pool_head_ h1) /\
    chunk_head_ h2 = chunk_head_ h1 /\
    (forall fuel' q, check fuel' h2 st2 q = check fuel' h1 st1 q) /\
    dump st2 = dump st1 /\ global_chunk_head_ st2 = 0 /\
    heap_log st2 = heap_log st1.
Proof.
  apply (allocated_blocks_given_back 8 4 8 64 68 st_init (fst four_ctor) (snd four_ctor)
                                     [4096; 8192; 12288; 16384; 20480] 5).
  - refine (returned_Ok2 (no_handle, st_init)
              (fb_alloc_ctor 8 4 8 (Some 64) (Some 68) st_init) _).
    vm_compute. reflexivity.
  - vm_compute. repeat split; discriminate || reflexivity.
  - reflexivity.
  - repeat constructor; vm_compute; discriminate.
  - cbn [chunks_apart].
    repeat split;
      repeat (apply List.Forall_cons; [left; vm_compute; discriminate|]);
      apply List.Forall_nil.
  - vm_compute. discriminate.
  - cbn. lia.
Defined.

(** X13: the whole life of a pool. A handle is built by the default
    constructor, the heap giving two distinct counters; the configuration is
    that of X7 (at least two blocks per chunk, [nof_elmts_ + 6 < 2^32],
    blocks of at least pointer size, [elsize_*nof_elmts_ + sizeof(char* ) <
    2^64]); the Global Chunk Cache is empty at the start, with [0 <=
    nof_free_chunks_ <= nof_allocated_chunks_] and [nof_allocated_chunks_ +
    N <= INT_MAX]; the heap answers chunk requests with chunks that are not
    null, end within the address space and are pairwise disjoint. Then [N]
    blocks are allocated with [allocate(1)], all of them are given back with
    [deallocate(p, 1)], and the handle is destroyed. Every call returns; the
    two counters are released and no other counter has changed; the chunks
    [cs] that the pool took from the heap are all in the Global Chunk Cache,
    the one created first on top; and the counts of created and of free
    chunks have both gone up by their number. *)
Theorem pool_lifecycle
    sizeof_T nof_elements alignment r c st h st0 ss fuel :
  fb_alloc_ctor sizeof_T nof_elements alignment (Some r) (Some c) st = Ok (h, st0) ->
  r <> c ->
  config_ok h ->
  global_chunk_head_ st = 0 ->
  0 <= nof_free_chunks_ st <= nof_allocated_chunks_ st ->
  nof_allocated_chunks_ st + Z.of_nat (length ss) <= INT_MAX ->
  Forall (chunk_fits h) ss ->
  chunks_apart (elsize_ h * nof_elmts_ h) ss ->
  (length ss <= fuel)%nat ->
  exists ps h1 st1 h2 st2 st3 cs,
    allocate_each sizeof_T (map Some ss) h st0 = Ok (ps, h1, st1) /\
    deallocate_each fuel ps h1 st1 = Ok (h2, st2) /\
    fb_alloc_dtor fuel h2 st2 = Ok st3 /\
    registry (mem st1) (blocks_bytes h1) (chunk_head_ h1) cs /\
    (forall c0, In c0 cs -> In c0 ss) /\
    ints st3 !! r = None /\ ints st3 !! c = None /\
    (forall q, q <> r -> q <> c -> ints st3 !! q = ints st !! q) /\
    nof_allocated_chunks_ st3 = nof_allocated_chunks_ st + Z.of_nat (length cs) /\
    nof_free_chunks_ st3 = nof_free_chunks_ st + Z.of_nat (length cs) /\
    global_chunk_head_ st3 = List.last cs 0 /\
    cache_segment (mem st3) (global_chunk_head_ st3) (rev cs) 0.
Proof.
  intros C Hne Cfg G HF HA Fits Apart F.
  pose proof (fb_alloc_ctor_state _ _ _ _ _ _ _ _ C Hne)
    as (RC0 & _ & _ & _ & _ & _ & _ & _ & D0 & _ & Ifr0).
  apply fb_alloc_ctor_fresh in C as (P & CH & Rr & N & Hr & Hc & I & G0 & _).
  pose proof Cfg as (Hn & Hu & He & Hfit).
  unfold dump in D0. injection D0 as DA0 DF0.
  destruct (allocate_each_checked sizeof_T ss h st0 [] 0 [] 0) as
      (ps & h1 & st1 & cs & E & Len & N1 & E1 & Rc1 & Na1 & I1 & Ifr1 & G1 & NF1 & NA1
       & Lcs & _ & Orig & CF & CA & R1 & _ & Hpz & Rg & _ & _);
    try assumption; try congruence; try lia.
  - unfold pool_inv. repeat split; try constructor; try assumption.
    intros r0 [].
  - apply List.Forall_forall. intros s _. constructor.
  - rewrite CH. unfold is_size, size_mod. lia.
  - rewrite P. unfold is_size, size_mod. lia.
  - cbn [length] in Lcs, NA1.
    specialize (NA1 ltac:(unfold INT_MIN; lia) ltac:(lia)).
    assert (Cfg1 : config_ok h1) by (unfold config_ok; now rewrite N1, E1).
    assert (Hna1 : nof_allocs_ h1 <> 0) by congruence.
    destruct (deallocate_each_run fuel cs ps h1 st1 (Z.of_nat (length ss))) as
        (h2 & st2 & D & P2 & C2 & N2 & E2 & Rc2 & Na2 & I2 & Ifr2 & R2 & _ & G2 & D2 & _);
      try assumption; try lia.
    + now rewrite N1, E1.
    + unfold chunk_fits. now rewrite N1, E1.
    + intros p Hp. destruct (Rg p Hp) as (c0 & i & Hc0 & Hi & ->).
      exists c0. split; [exact Hc0|]. rewrite N1, E1. unfold ptr_size in *. nia.
    + rewrite Na1, I1. f_equal.
    + unfold dump in D2. injection D2 as DA2 DF2.
      assert (BB2 : blocks_bytes h2 = elsize_ h * nof_elmts_ h).
      { unfold blocks_bytes. rewrite N2, E2, N1, E1. apply wrap_size_small.
        unfold ptr_size in *. nia. }
      assert (RC2 : refcount h2 st2 = Ok 1).
      { unfold refcount in *. rewrite Rc2, Rc1.
        destruct (Z.eqb_spec (refcount_ h) 0); [congruence|].
        apply int_read_Ok in RC0 as [_ RC0].
        apply int_read_live; [assumption|].
        rewrite Ifr2, Ifr1 by congruence. exact RC0. }
      destruct (fb_alloc_dtor_last fuel h2 st2 cs RC2) as
          (st3 & Dt & I3 & NF3 & NA3 & G3 & S3 & _); try congruence; try lia.
      * rewrite Na2, I2. eauto.
      * rewrite List.Forall_forall in *. intros c0 Hc0.
        destruct (CF c0 Hc0) as (Hc1 & Hc2). unfold is_size, ptr_size in *. nia.
      * rewrite G2, G1. unfold is_size, size_mod. lia.
      * exists ps, h1, st1, h2, st2, st3, cs.
        split; [exact E|]. split; [exact D|]. split; [exact Dt|].
        split; [exact R1|].
        split.
        { intros c0 Hc0. destruct (Orig c0 Hc0) as [[]|Hin]. exact Hin. }
        rewrite I3, Rc2, Rc1, Na2, Na1, Rr, N.
        split.
        { rewrite lookup_delete_ne by congruence. apply lookup_delete_eq. }
        split; [apply lookup_delete_eq|].
        split.
        { intros q Q1 Q2. rewrite !lookup_delete_ne by congruence.
          rewrite Ifr2, Ifr1 by congruence. now apply Ifr0. }
        split; [lia|]. split; [lia|].
        rewrite G2, G1 in G3, S3. split; [exact G3|exact S3].
Qed.

Lemma pool_lifecycle_witness :
  exists ps h1 st1 h2 st2 st3 cs,
    allocate_each 8 (map Some [4096; 8192; 12288; 16384; 20480])
                  (fst four_ctor) (snd four_ctor) = Ok (ps, h1, st1) /\
    deallocate_each 5 ps h1 st1 = Ok (h2, st2) /\
    fb_alloc_dtor 5 h2 st2 = Ok st3 /\
    registry (mem st1) (blocks_bytes h1) (chunk_head_ h1) cs /\
    (forall c0, In c0 cs -> In c0 [4096; 8192; 12288; 16384; 20480]) /\
    ints st3 !! 64 = None /\ ints st3 !! 68 = None /\
    (forall q, q <> 64 -> q <> 68 -> ints st3 !! q = ints st_init !! q) /\
    nof_allocated_chunks_ st3 = nof_allocated_chunks_ st_init + Z.of_nat (length cs) /\
    nof_free_chunks_ st3 = nof_free_chunks_ st_init + Z.of_nat (length cs) /\
    global_chunk_head_ st3 = List.last cs 0 /\
    cache_segment (mem st3) (global_chunk_head_ st3) (rev cs) 0.
Proof.
  apply (pool_lifecycle 8 4 8 64 68 st_init (fst four_ctor) (snd four_ctor)
                        [4096; 8192; 12288; 16384; 20480] 5).
  - refine (returned_Ok2 (no_handle, st_init)
              (fb_alloc_ctor 8 4 8 (Some 64) (Some 68) st_init) _).
    vm_compute. reflexivity.
  - discriminate.
  - vm_compute. repeat split; discriminate || reflexivity.
  - reflexivity.
  - vm_compute. split; discriminate.
  - vm_compute. discriminate.
  - repeat constructor; vm_compute; discriminate.
  - cbn [chunks_apart].
    repeat split;
      repeat (apply List.Forall_cons; [left; vm_compute; discriminate|]);
      apply List.Forall_nil.
  - cbn. lia.
Defined.

(** Distinct blocks of disjoint chunks do not overlap. *)
Lemma aligned_blocks_apart n e cs ps :
  0 < e -> 0 <= n ->
  chunks_apart (e * n) cs ->
  (forall p, In p ps -> exists c i, In c cs /\ 0 <= i < n /\ p = c + i * e) ->
  List.NoDup ps ->
  blocks_apart e ps.
Proof.
  intros He Hn CA. induction ps as [|p ps IH]; intros Form ND; cbn [blocks_apart].
  - exact I.
  - apply List.NoDup_cons_iff in ND as [Hp ND]. split.
    + apply List.Forall_forall. intros q Hq.
      destruct (Form p ltac:(now left)) as (c1 & i1 & Hc1 & Hi1 & ->).
      destruct (Form q ltac:(now right)) as (c2 & i2 & Hc2 & Hi2 & ->).
      destruct (Z.eq_dec c1 c2) as [<-|Nc].
      * assert (i1 <> i2) by (intros ->; contradiction). nia.
      * pose proof (chunks_apart_In _ _ _ _ CA Hc1 Hc2 Nc) as D.
        unfold ptr_size in D. nia.
    + apply IH; [|exact ND]. intros q Hq. apply Form. now right.
Qed.

(** X14: the blocks that a new handle gives out never overlap. From a handle
    just built by the default constructor (blocks that hold a pointer, at
    least two per chunk, the Global Chunk Cache empty, the heap giving
    pairwise disjoint chunks), any number of calls of [allocate(1)] return
    addresses whose blocks of [elsize_] bytes are pairwise disjoint, and
    each block lies within the block area of a chunk that the heap gave: it
    overlaps neither the back link of the chunk nor memory outside. *)
Theorem allocated_blocks_disjoint
    sizeof_T nof_elements alignment r c st h st0 ss :
  fb_alloc_ctor sizeof_T nof_elements alignment (Some r) (Some c) st = Ok (h, st0) ->
  config_ok h ->
  global_chunk_head_ st = 0 ->
  Forall (chunk_fits h) ss ->
  chunks_apart (elsize_ h * nof_elmts_ h) ss ->
  Z.of_nat (length ss) <= INT_MAX ->
  exists ps h' st',
    allocate_each sizeof_T (map Some ss) h st0 = Ok (ps, h', st') /\
    length ps = length ss /\
    blocks_apart (elsize_ h) ps /\
    (forall p, In p ps ->
       exists s, In s ss /\
                 s <= p /\ p + elsize_ h <= s + elsize_ h * nof_elmts_ h).
Proof.
  intros C Cfg G Fits Apart Hmax.
  apply fb_alloc_ctor_fresh in C as (P & CH & Rr & N & Hr & Hc & I & G0 & _).
  pose proof Cfg as (Hn & Hu & He & Hfit). unfold ptr_size in He.
  destruct (allocate_each_checked sizeof_T ss h st0 [] 0 [] 0) as
      (ps & h1 & st1 & cs & E & Len & _ & _ & _ & _ & _ & _ & _ & _ & _ & _ & _
       & Orig & _ & CA & _ & _ & _ & Rg & ND & _);
    try assumption; try congruence; try lia.
  - unfold pool_inv. repeat split; try constructor; try assumption.
    intros r0 [].
  - apply List.Forall_forall. intros s _. constructor.
  - rewrite CH. unfold is_size, size_mod. lia.
  - rewrite P. unfold is_size, size_mod. lia.
  - exists ps, h1, st1. split; [exact E|]. split; [exact Len|]. split.
    + apply (aligned_blocks_apart (nof_elmts_ h) (elsize_ h) cs ps); try assumption; lia.
    + intros p Hp. destruct (Rg p Hp) as (c0 & i & Hc0 & Hi & ->).
      exists c0. split; [|nia].
      destruct (Orig c0 Hc0) as [[]|Hin]. exact Hin.
Qed.

Lemma allocated_blocks_disjoint_witness :
  exists ps h' st',
    allocate_each 8 (map Some [4096; 8192; 12288; 16384; 20480])
                  (fst four_ctor) (snd four_ctor) = Ok (ps, h', st') /\
    length ps = length [4096; 8192; 12288; 16384; 20480] /\
    blocks_apart (elsize_ (fst four_ctor)) ps /\
    (forall p, In p ps ->
       exists s, In s [4096; 8192; 12288; 16384; 20480] /\
                 s <= p /\
                 p + elsize_ (fst four_ctor)
                 <= s + elsize_ (fst four_ctor) * nof_elmts_ (fst four_ctor)).
Proof.
  apply (allocated_blocks_disjoint 8 4 8 64 68 st_init (fst four_ctor) (snd four_ctor)
                                   [4096; 8192; 12288; 16384; 20480]).
  - refine (returned_Ok2 (no_handle, st_init)
              (fb_alloc_ctor 8 4 8 (Some 64) (Some 68) st_init) _).
    vm_compute. reflexivity.
  - vm_compute. repeat split; discriminate || reflexivity.
  - reflexivity.
  - repeat constructor; vm_compute; discriminate.
  - cbn [chunks_apart].
    repeat split;
      repeat (apply List.Forall_cons; [left; vm_compute; discriminate|]);
      apply List.Forall_nil.
  - vm_compute. discriminate.
Defined.

(** ** Handles that share a group *)

Lemma fb_alloc_copy_share sizeof_T nof_elements alignment h0 fba rc na st v :
  fb_alloc_init sizeof_T nof_elements alignment = Ok h0 ->
  elsize_ h0 = elsize_ fba ->
  refcount_ fba <> 0 -> ints st !! refcount_ fba = Some v -> 0 <= v < INT_MAX ->
  fb_alloc_copy sizeof_T nof_elements alignment fba rc na st
  = Ok (mkHandle (nof_elmts_ h0) (elsize_ h0) (alignment_ h0) (pool_head_ fba)
                 (chunk_head_ fba) (refcount_ fba) (nof_allocs_ fba),
        set_ints st (<[refcount_ fba := v + 1]> (ints st))).
Proof.
  intros E Q Hr Hl Hv. unfold fb_alloc_copy. rewrite E. cbn [mbind result_bind].
  destruct (Z.eqb_spec (elsize_ h0) (elsize_ fba)); [|contradiction].
  cbn [refcount_]. rewrite (int_incr_live st (refcount_ fba) 1 v) by assumption.
  cbn [mbind result_bind].
  rewrite wrap_int_small by (unfold INT_MIN, INT_MAX in *; lia).
  rewrite (int_read_live _ (refcount_ fba) (v + 1))
    by (try assumption; apply lookup_insert_eq).
  cbn [mbind result_bind]. unfold assert.
  destruct (Z.leb_spec 0 (v + 1)); [reflexivity|lia].
Qed.

Lemma refcount_live h st v :
  refcount h st = Ok v -> v <> 0 ->
  refcount_ h <> 0 /\ ints st !! refcount_ h = Some v.
Proof.
  unfold refcount. destruct (Z.eqb_spec (refcount_ h) 0).
  - intros [= <-] N. contradiction.
  - intros H _. now apply int_read_Ok in H.
Qed.

Lemma allocate_pop_eval sizeof_T heap h st v :
  pool_head_ h <> 0 -> nof_allocs_ h <> 0 ->
  ints st !! nof_allocs_ h = Some v -> 0 <= v < INT_MAX ->
  allocate sizeof_T heap h 1 st
  = Ok (pool_head_ h, set_pool_head h (load_ptr (mem st) (pool_head_ h)),
        set_ints st (<[nof_allocs_ h := v + 1]> (ints st))).
Proof.
  intros P Hna Hl Hv. unfold allocate. cbn [Z.eqb Pos.eqb].
  destruct (Z.eqb_spec (pool_head_ h) 0); [contradiction|].
  cbn [mbind result_bind nof_allocs_ set_pool_head].
  rewrite (int_incr_live st (nof_allocs_ h) 1 v) by assumption.
  cbn [mbind result_bind].
  rewrite wrap_int_small by (unfold INT_MIN, INT_MAX in *; lia).
  rewrite (int_read_live _ (nof_allocs_ h) (v + 1))
    by (try assumption; apply lookup_insert_eq).
  cbn [mbind result_bind]. unfold assert.
  destruct (Z.ltb_spec 0 (v + 1)); [reflexivity|lia].
Qed.

(** X15: a sharing construction for an element type of the same block size,
    followed by the destruction of the new handle, leaves the program state
    exactly as it was. In between, the reference count is one higher, the
    new handle holds the source's free-list head, registry head and counter
    pointers, and the heap was not asked for anything. *)
Theorem copy_then_destroy
    sizeof_T nof_elements alignment h0 fba rc na st v fuel :
  fb_alloc_init sizeof_T nof_elements alignment = Ok h0 ->
  elsize_ h0 = elsize_ fba ->
  refcount fba st = Ok v -> 1 <= v < INT_MAX ->
  exists h st1,
    fb_alloc_copy sizeof_T nof_elements alignment fba rc na st = Ok (h, st1) /\
    refcount h st1 = Ok (v + 1) /\ refcount fba st1 = Ok (v + 1) /\
    pool_head_ h = pool_head_ fba /\ chunk_head_ h = chunk_head_ fba /\
    refcount_ h = refcount_ fba /\ nof_allocs_ h = nof_allocs_ fba /\
    heap_log st1 = heap_log st /\ mem st1 = mem st /\
    fb_alloc_dtor fuel h st1 = Ok st.
Proof.
  intros E Q RC Hv.
  destruct (refcount_live fba st v RC ltac:(lia)) as [Hr Hl].
  eexists _, _. split.
  { apply (fb_alloc_copy_share _ _ _ h0 fba rc na st v); assumption || lia. }
  unfold refcount. cbn [refcount_ pool_head_ chunk_head_ nof_allocs_ heap_log mem
                        set_ints].
  destruct (Z.eqb_spec (refcount_ fba) 0); [contradiction|].
  split; [apply int_read_live; [assumption|apply lookup_insert_eq]|].
  split; [apply int_read_live; [assumption|apply lookup_insert_eq]|].
  repeat (split; [reflexivity|]).
  unfold fb_alloc_dtor. cbn [refcount_].
  destruct (Z.eqb_spec (refcount_ fba) 0); [contradiction|].
  rewrite (int_incr_live _ (refcount_ fba) (-1) (v + 1))
    by (try assumption; apply lookup_insert_eq).
  cbn [mbind result_bind].
  rewrite wrap_int_small by (unfold INT_MIN, INT_MAX in *; lia).
  rewrite (int_read_live _ (refcount_ fba) (v + 1 + -1))
    by (try assumption; apply lookup_insert_eq).
  cbn [mbind result_bind]. unfold assert.
  destruct (Z.leb_spec 0 (v + 1 + -1)); [|lia]. cbn [mbind result_bind].
  destruct (Z.eqb_spec (v + 1 + -1) 0); [lia|].
  f_equal. destruct st as [m i g a f l]. unfold set_ints.
  cbn [mem ints global_chunk_head_ nof_allocated_chunks_ nof_free_chunks_ heap_log]
    in *.
  f_equal. rewrite insert_insert_eq. apply insert_id.
  rewrite Hl. f_equal. lia.
Qed.

Lemma copy_then_destroy_witness :
  exists h st1,
    fb_alloc_copy 8 4 8 (fst four_ctor) None None (snd four_ctor) = Ok (h, st1) /\
    refcount h st1 = Ok (1 + 1) /\ refcount (fst four_ctor) st1 = Ok (1 + 1) /\
    pool_head_ h = pool_head_ (fst four_ctor) /\
    chunk_head_ h = chunk_head_ (fst four_ctor) /\
    refcount_ h = refcount_ (fst four_ctor) /\
    nof_allocs_ h = nof_allocs_ (fst four_ctor) /\
    heap_log st1 = heap_log (snd four_ctor) /\ mem st1 = mem (snd four_ctor) /\
    fb_alloc_dtor 0 h st1 = Ok (snd four_ctor).
Proof.
  apply (copy_then_destroy 8 4 8 (mkHandle 4 8 8 0 0 0 0) (fst four_ctor) None None
                           (snd four_ctor) 1 0).
  - vm_compute. reflexivity.
  - vm_compute. reflexivity.
  - vm_compute. reflexivity.
  - unfold INT_MAX. lia.
Defined.

(** X16: the sharing constructor copies the free-list head by value, so two
    handles of one group each keep a head of their own. A sharing
    construction from a handle whose free list is not empty, then
    [allocate(1)] on the source and [allocate(1)] on the new handle: both
    calls return, and both return the same address, the head of the free
    list at the time of the construction; [nof_allocs()], which the two
    handles share, has gone up by two, and no memory was written. *)
Theorem sharers_give_out_same_block
    sizeof_T sizeof_U nof_elements alignment h0 fba rc na st rv v heap1 heap2 :
  fb_alloc_init sizeof_U nof_elements alignment = Ok h0 ->
  elsize_ h0 = elsize_ fba ->
  refcount fba st = Ok rv -> 1 <= rv < INT_MAX ->
  nof_allocs_ fba <> 0 -> nof_allocs_ fba <> refcount_ fba ->
  nof_allocs fba st = Ok v -> 0 <= v -> v + 2 <= INT_MAX ->
  pool_head_ fba <> 0 ->
  exists h st1 fba' st2 h' st3,
    fb_alloc_copy sizeof_U nof_elements alignment fba rc na st = Ok (h, st1) /\
    allocate sizeof_T heap1 fba 1 st1 = Ok (pool_head_ fba, fba', st2) /\
    allocate sizeof_U heap2 h 1 st2 = Ok (pool_head_ fba, h', st3) /\
    pool_head_ h' = pool_head_ fba' /\
    nof_allocs fba' st3 = Ok (v + 2) /\ nof_allocs h' st3 = Ok (v + 2) /\
    refcount fba' st3 = Ok (rv + 1) /\
    mem st3 = mem st /\ heap_log st3 = heap_log st.
Proof.
  intros E Q RC Hrv Hna Hne NA Hv0 Hv P.
  destruct (refcount_live fba st rv RC ltac:(lia)) as [Hr Hl].
  assert (Hla : ints st !! nof_allocs_ fba = Some v).
  { unfold nof_allocs in NA. destruct (Z.eqb_spec (nof_allocs_ fba) 0); [contradiction|].
    now apply int_read_Ok in NA. }
  set (h := mkHandle (nof_elmts_ h0) (elsize_ h0) (alignment_ h0) (pool_head_ fba)
                     (chunk_head_ fba) (refcount_ fba) (nof_allocs_ fba)).
  set (st1 := set_ints st (<[refcount_ fba := rv + 1]> (ints st))).
  set (st2 := set_ints st1 (<[nof_allocs_ fba := v + 1]> (ints st1))).
  exists h, st1, (set_pool_head fba (load_ptr (mem st1) (pool_head_ fba))), st2,
         (set_pool_head h (load_ptr (mem st2) (pool_head_ h))),
         (set_ints st2 (<[nof_allocs_ h := v + 1 + 1]> (ints st2))).
  split.
  { apply (fb_alloc_copy_share _ _ _ h0 fba rc na st rv); assumption || lia. }
  split.
  { apply (allocate_pop_eval sizeof_T heap1 fba st1 v); try assumption; [|lia].
    subst st1. cbn [ints set_ints]. now rewrite lookup_insert_ne by congruence. }
  split.
  { apply (allocate_pop_eval sizeof_U heap2 h st2 (v + 1));
      subst h st2; cbn [pool_head_ nof_allocs_ ints set_ints mem]; try assumption;
      [|lia].
    apply lookup_insert_eq. }
  subst h st2 st1.
  unfold nof_allocs, refcount.
  cbn [pool_head_ nof_allocs_ refcount_ set_pool_head ints set_ints mem heap_log].
  destruct (Z.eqb_spec (nof_allocs_ fba) 0); [contradiction|].
  destruct (Z.eqb_spec (refcount_ fba) 0); [contradiction|].
  split; [reflexivity|].
  assert (L : forall m : gmap Z Z,
            <[nof_allocs_ fba := v + 1 + 1]> m !! nof_allocs_ fba = Some (v + 2)).
  { intros m. rewrite lookup_insert_eq. f_equal. lia. }
  split; [apply int_read_live; [assumption|apply L]|].
  split; [apply int_read_live; [assumption|apply L]|].
  split; [|split; reflexivity].
  apply int_read_live; [assumption|]. cbn [ints set_ints].
  rewrite !lookup_insert_ne by congruence. apply lookup_insert_eq.
Qed.

Lemma sharers_give_out_same_block_witness :
  exists h st1 fba' st2 h' st3,
    fb_alloc_copy 8 4 8 (snd (fst four_first)) None None (snd four_first) = Ok (h, st1) /\
    allocate 8 None (snd (fst four_first)) 1 st1
    = Ok (pool_head_ (snd (fst four_first)), fba', st2) /\
    allocate 8 None h 1 st2 = Ok (pool_head_ (snd (fst four_first)), h', st3) /\
    pool_head_ h' = pool_head_ fba' /\
    nof_allocs fba' st3 = Ok (1 + 2) /\ nof_allocs h' st3 = Ok (1 + 2) /\
    refcount fba' st3 = Ok (1 + 1) /\
    mem st3 = mem (snd four_first) /\ heap_log st3 = heap_log (snd four_first).
Proof.
  apply (sharers_give_out_same_block 8 8 4 8 (mkHandle 4 8 8 0 0 0 0)
           (snd (fst four_first)) None None (snd four_first) 1 1 None None).
  - vm_compute. reflexivity.
  - vm_compute. reflexivity.
  - vm_compute. reflexivity.
  - unfold INT_MAX. lia.
  - vm_compute. discriminate.
  - vm_compute. discriminate.
  - vm_compute. reflexivity.
  - lia.
  - unfold INT_MAX. lia.
  - vm_compute. discriminate.
Defined.

(** ** A block given back twice *)

(** Once the head of the free list points to itself, every [allocate(1)]
    returns it. *)
Lemma allocate_each_self_loop sizeof_T p heaps : forall h st v,
  pool_head_ h = p -> p <> 0 -> load_ptr (mem st) p = p ->
  nof_allocs_ h <> 0 -> ints st !! nof_allocs_ h = Some v ->
  0 <= v -> v + Z.of_nat (length heaps) <= INT_MAX ->
  exists h' st',
    allocate_each sizeof_T heaps h st = Ok (repeat p (length heaps), h', st') /\
    nof_allocs h' st' = Ok (v + Z.of_nat (length heaps)).
Proof.
  induction heaps as [|heap heaps IH]; intros h st v P Hp L Hna Hl Hv Hmax.
  - exists h, st. split; [reflexivity|].
    unfold nof_allocs. destruct (Z.eqb_spec (nof_allocs_ h) 0); [contradiction|].
    apply int_read_live; [assumption|]. rewrite Hl. f_equal. cbn [length]. lia.
  - cbn [length] in Hmax.
    pose proof (allocate_pop_eval sizeof_T heap h st v ltac:(congruence) Hna Hl
                                  ltac:(lia)) as A.
    rewrite P, L in A.
    destruct (IH (set_pool_head h p)
                 (set_ints st (<[nof_allocs_ h := v + 1]> (ints st))) (v + 1))
      as (h' & st' & E & N); try assumption; try lia.
    + reflexivity.
    + cbn [ints set_ints nof_allocs_ set_pool_head]. apply lookup_insert_eq.
    + exists h', st'. split.
      * cbn [allocate_each length repeat]. rewrite A. cbn [mbind result_bind].
        rewrite E. reflexivity.
      * rewrite N. f_equal. cbn [length]. lia.
Qed.

(** X17: giving a block back twice is not noticed while other blocks are
    outstanding. With at least two blocks outstanding and [p] in the block
    range of a chunk of the registry, [deallocate(p, 1)] returns twice in a
    row; [nof_allocs()] has gone down by two, and the free list is now the
    block [p] pointing to itself: every later run of [allocate(1)] returns
    [p] each time, without ever growing the pool. *)
Theorem double_free_accepted sizeof_T fuel h p st cs v :
  config_ok h ->
  registry (mem st) (blocks_bytes h) (chunk_head_ h) cs ->
  chunks_apart (elsize_ h * nof_elmts_ h) cs ->
  Forall (chunk_fits h) cs ->
  (length cs <= fuel)%nat ->
  (exists c, In c cs /\ c <= p <= c + (nof_elmts_ h - 1) * elsize_ h) ->
  nof_allocs_ h <> 0 ->
  ints st !! nof_allocs_ h = Some v -> 2 <= v <= INT_MAX ->
  is_size (pool_head_ h) ->
  exists h1 st1 h2 st2,
    deallocate fuel h p 1 st = Ok (h1, st1) /\
    deallocate fuel h1 p 1 st1 = Ok (h2, st2) /\
    nof_allocs h2 st2 = Ok (v - 2) /\
    pool_head_ h2 = p /\ load_ptr (mem st2) p = p /\
    forall heaps, v - 2 + Z.of_nat (length heaps) <= INT_MAX ->
      exists h3 st3,
        allocate_each sizeof_T heaps h2 st2 = Ok (repeat p (length heaps), h3, st3) /\
        nof_allocs h3 st3 = Ok (v - 2 + Z.of_nat (length heaps)).
Proof.
  intros Cfg R A CF F Rg Hna Hl Hv Hpz.
  assert (Hp : 0 < p < size_mod).
  { destruct Rg as (c & Hc & Hr). rewrite List.Forall_forall in CF.
    destruct (CF c Hc) as (Hc0 & Hcf). destruct Cfg as (Hn & _ & He & _).
    unfold ptr_size in *. nia. }
  destruct (deallocate_in_range fuel h p st cs v Cfg R A F Rg Hna Hl ltac:(lia) Hpz)
    as (h1 & st1 & D1 & P1 & _ & C1 & N1 & E1 & _ & Na1 & I1 & _ & R1 & _).
  destruct (deallocate_in_range fuel h1 p st1 cs (v - 1)) as
      (h2 & st2 & D2 & P2 & L2 & _ & _ & _ & _ & Na2 & I2 & NA2 & _).
  - unfold config_ok. now rewrite N1, E1.
  - exact R1.
  - now rewrite N1, E1.
  - exact F.
  - rewrite N1, E1. exact Rg.
  - congruence.
  - rewrite Na1, I1. apply lookup_insert_eq.
  - lia.
  - rewrite P1. unfold is_size. lia.
  - exists h1, st1, h2, st2. split; [exact D1|]. split; [exact D2|].
    replace (v - 2) with (v - 1 - 1) by lia.
    split; [exact NA2|]. split; [exact P2|]. split; [now rewrite L2|].
    intros heaps Hmax.
    apply (allocate_each_self_loop sizeof_T p heaps h2 st2 (v - 1 - 1));
      try assumption; try lia.
    rewrite Na2, I2. apply lookup_insert_eq.
Qed.

Lemma double_free_accepted_witness :
  exists h1 st1 h2 st2,
    deallocate 1 (snd (fst four_second)) 4096 1 (snd four_second) = Ok (h1, st1) /\
    deallocate 1 h1 4096 1 st1 = Ok (h2, st2) /\
    nof_allocs h2 st2 = Ok (2 - 2) /\
    pool_head_ h2 = 4096 /\ load_ptr (mem st2) 4096 = 4096 /\
    forall heaps, 2 - 2 + Z.of_nat (length heaps) <= INT_MAX ->
      exists h3 st3,
        allocate_each 8 heaps h2 st2 = Ok (repeat 4096 (length heaps), h3, st3) /\
        nof_allocs h3 st3 = Ok (2 - 2 + Z.of_nat (length heaps)).
Proof.
  apply (double_free_accepted 8 1 (snd (fst four_second)) 4096 (snd four_second)
                              [4096] 2).
  - vm_compute. repeat split; discriminate || reflexivity.
  - vm_compute. repeat split. discriminate.
  - vm_compute. auto.
  - repeat constructor; vm_compute; discriminate.
  - cbn. lia.
  - exists 4096. split; [now left|]. vm_compute. split; discriminate.
  - vm_compute. discriminate.
  - vm_compute. reflexivity.
  - unfold INT_MAX. lia.
  - vm_compute. split; [discriminate|reflexivity].
Defined.

(** ** A pool built after another one was destroyed *)



